(** * Trombinoscope: a single-button random people selector

    Shallow embedding of [src/trombinoscope/trombinoscope.ino] and the
    properties of its button classifier, its unique random selector, its
    renderer and its mode controller.

    Conventions of the embedding:
    - a [uint8_t] or [uint32_t] value is a [Z], every arithmetic operation of
      the sketch is followed by the wrap-around of its C++ type ([u8], [u32]);
    - the global variables of the sketch are the fields of one record [St],
      every function of the sketch is a function on [St];
    - an array is a [list Z]; reading or writing it outside its extent is
      undefined behaviour in C++ and is the outcome [OutOfBounds] here;
    - the loop of [pickUniqueRandom] has no bound in the sketch, it takes a
      fuel here and [OutOfFuel] stands for "has not returned yet";
    - [millis], [digitalRead] and the generator behind [random] are inputs. *)

From Stdlib Require Import ZArith Bool Lia.
From stdpp Require Import base tactics option list.

Local Open Scope Z_scope.

(** ** Machine integers *)

Definition u8 (z : Z) : Z := z mod 256.
Definition u32 (z : Z) : Z := z mod 4294967296.

(** [(int32_t) z]: the 32-bit pattern of [z] read as a signed number. *)
Definition i32 (z : Z) : Z :=
  if u32 z <? 2147483648 then u32 z else u32 z - 4294967296.

(** ** Outcomes of the sketch's functions *)

Inductive outcome (A : Type) : Type :=
| Ret (a : A)      (* the function returns *)
| OutOfBounds      (* an array is indexed outside its extent *)
| Halted           (* the busy wait of [setup] on a bad configuration *)
| OutOfFuel.       (* an unbounded loop has not finished within the fuel *)

Arguments Ret {A} a.
Arguments OutOfBounds {A}.
Arguments Halted {A}.
Arguments OutOfFuel {A}.

#[global] Instance outcome_ret : MRet outcome := @Ret.

#[global] Instance outcome_bind : MBind outcome := λ A B f m,
  match m with
  | Ret a => f a
  | OutOfBounds => OutOfBounds
  | Halted => Halted
  | OutOfFuel => OutOfFuel
  end.

(** [arr[i]] as a read and [arr[i] = v] as a write, both checked. *)
Definition rd (arr : list Z) (i : Z) : outcome Z :=
  match arr !! Z.to_nat i with
  | Some x => Ret x
  | None => OutOfBounds
  end.

Definition wr (arr : list Z) (i v : Z) : outcome (list Z) :=
  if decide (Z.to_nat i < length arr)%nat
  then Ret (<[Z.to_nat i := v]> arr)
  else OutOfBounds.

(** [for (uint8_t i = 0; i < hi; i++) body]: the counter stays below
    [hi <= 255], so it never wraps. *)
Fixpoint for_loop {A : Type} (n : nat) (i : Z) (body : Z → A → outcome A)
    (a : A) : outcome A :=
  match n with
  | O => Ret a
  | S n' => a' ← body i a; for_loop n' (i + 1) body a'
  end.

Definition for_upto {A : Type} (hi : Z) (body : Z → A → outcome A) (a : A)
    : outcome A :=
  for_loop (Z.to_nat hi) 0 body a.

(** ** Configuration *)

(** The table of the LEDs that stand for the people and the length of the
    strip; the sketch invites the user to change both. *)
Class Config : Type := {
  UsedLEDs : list Z;
  NUM_LEDS : Z
}.

(** The configuration the sketch ships with. *)
Definition shipped : Config :=
  {| UsedLEDs := [0; 2; 4; 6; 8; 10; 12; 14; 16; 18; 20]; NUM_LEDS := 30 |}.

Definition DEBOUNCE_MS : Z := 35.
Definition LONG_PRESS_MS : Z := 800.
Definition COUNT_WINDOW_MS : Z := 900.
Definition IDLE_STEP_MS : Z := 20.
Definition ANIM_STEP_MS : Z := 55.
Definition ANIM_MS : Z := 1800.
Definition HOLD_MS : Z := 10000.
Definition RAINBOW_SPACING : Z := 20.
Definition MAX_SEL : Z := 32.

(** [const uint8_t PEOPLE_NB = sizeof(UsedLEDs) / sizeof(UsedLEDs[0])]. *)
Definition PEOPLE_NB `{Config} : Z := u8 (Z.of_nat (length UsedLEDs)).
Definition MAX_REQUEST `{Config} : Z := PEOPLE_NB.

(** ** State *)

Inductive State : Type := IDLE | COUNTING | ANIMATING | SHOW.

#[global] Instance State_eq_dec : EqDecision State.
Proof. solve_decision. Defined.

(** Button levels: [true] is HIGH (released, the pin has a pull-up), [false]
    is LOW (pressed). [pixels] is the frame buffer of the strip object and
    [shown] the frame last sent to the LEDs by [strip.show()]; [rngPos] counts
    the draws taken from the generator. *)
Record St : Type := {
  state : State;
  nowMs : Z;
  lastIdleStep : Z;
  lastAnimStep : Z;
  stateEnterMs : Z;
  lastButtonEdge : Z;
  lastButtonLevel : bool;
  longPressArmed : bool;
  buttonPressMs : Z;
  rainbowOffset : Z;
  requestedCount : Z;
  countWindowEnds : Z;
  selectedIdx : list Z;
  selectedCount : Z;
  pixels : list Z;
  shown : list Z;
  rngPos : nat
}.

Definition set_state (v : State) (s : St) : St :=
  {| state := v; nowMs := nowMs s; lastIdleStep := lastIdleStep s;
     lastAnimStep := lastAnimStep s; stateEnterMs := stateEnterMs s;
     lastButtonEdge := lastButtonEdge s;
     lastButtonLevel := lastButtonLevel s;
     longPressArmed := longPressArmed s; buttonPressMs := buttonPressMs s;
     rainbowOffset := rainbowOffset s; requestedCount := requestedCount s;
     countWindowEnds := countWindowEnds s; selectedIdx := selectedIdx s;
     selectedCount := selectedCount s; pixels := pixels s; shown := shown s;
     rngPos := rngPos s |}.

Definition set_nowMs (v : Z) (s : St) : St :=
  {| state := state s; nowMs := v; lastIdleStep := lastIdleStep s;
     lastAnimStep := lastAnimStep s; stateEnterMs := stateEnterMs s;
     lastButtonEdge := lastButtonEdge s;
     lastButtonLevel := lastButtonLevel s;
     longPressArmed := longPressArmed s; buttonPressMs := buttonPressMs s;
     rainbowOffset := rainbowOffset s; requestedCount := requestedCount s;
     countWindowEnds := countWindowEnds s; selectedIdx := selectedIdx s;
     selectedCount := selectedCount s; pixels := pixels s; shown := shown s;
     rngPos := rngPos s |}.

Definition set_lastIdleStep (v : Z) (s : St) : St :=
  {| state := state s; nowMs := nowMs s; lastIdleStep := v;
     lastAnimStep := lastAnimStep s; stateEnterMs := stateEnterMs s;
     lastButtonEdge := lastButtonEdge s;
     lastButtonLevel := lastButtonLevel s;
     longPressArmed := longPressArmed s; buttonPressMs := buttonPressMs s;
     rainbowOffset := rainbowOffset s; requestedCount := requestedCount s;
     countWindowEnds := countWindowEnds s; selectedIdx := selectedIdx s;
     selectedCount := selectedCount s; pixels := pixels s; shown := shown s;
     rngPos := rngPos s |}.

Definition set_lastAnimStep (v : Z) (s : St) : St :=
  {| state := state s; nowMs := nowMs s; lastIdleStep := lastIdleStep s;
     lastAnimStep := v; stateEnterMs := stateEnterMs s;
     lastButtonEdge := lastButtonEdge s;
     lastButtonLevel := lastButtonLevel s;
     longPressArmed := longPressArmed s; buttonPressMs := buttonPressMs s;
     rainbowOffset := rainbowOffset s; requestedCount := requestedCount s;
     countWindowEnds := countWindowEnds s; selectedIdx := selectedIdx s;
     selectedCount := selectedCount s; pixels := pixels s; shown := shown s;
     rngPos := rngPos s |}.

Definition set_stateEnterMs (v : Z) (s : St) : St :=
  {| state := state s; nowMs := nowMs s; lastIdleStep := lastIdleStep s;
     lastAnimStep := lastAnimStep s; stateEnterMs := v;
     lastButtonEdge := lastButtonEdge s;
     lastButtonLevel := lastButtonLevel s;
     longPressArmed := longPressArmed s; buttonPressMs := buttonPressMs s;
     rainbowOffset := rainbowOffset s; requestedCount := requestedCount s;
     countWindowEnds := countWindowEnds s; selectedIdx := selectedIdx s;
     selectedCount := selectedCount s; pixels := pixels s; shown := shown s;
     rngPos := rngPos s |}.

Definition set_lastButtonEdge (v : Z) (s : St) : St :=
  {| state := state s; nowMs := nowMs s; lastIdleStep := lastIdleStep s;
     lastAnimStep := lastAnimStep s; stateEnterMs := stateEnterMs s;
     lastButtonEdge := v; lastButtonLevel := lastButtonLevel s;
     longPressArmed := longPressArmed s; buttonPressMs := buttonPressMs s;
     rainbowOffset := rainbowOffset s; requestedCount := requestedCount s;
     countWindowEnds := countWindowEnds s; selectedIdx := selectedIdx s;
     selectedCount := selectedCount s; pixels := pixels s; shown := shown s;
     rngPos := rngPos s |}.

Definition set_lastButtonLevel (v : bool) (s : St) : St :=
  {| state := state s; nowMs := nowMs s; lastIdleStep := lastIdleStep s;
     lastAnimStep := lastAnimStep s; stateEnterMs := stateEnterMs s;
     lastButtonEdge := lastButtonEdge s; lastButtonLevel := v;
     longPressArmed := longPressArmed s; buttonPressMs := buttonPressMs s;
     rainbowOffset := rainbowOffset s; requestedCount := requestedCount s;
     countWindowEnds := countWindowEnds s; selectedIdx := selectedIdx s;
     selectedCount := selectedCount s; pixels := pixels s; shown := shown s;
     rngPos := rngPos s |}.

Definition set_longPressArmed (v : bool) (s : St) : St :=
  {| state := state s; nowMs := nowMs s; lastIdleStep := lastIdleStep s;
     lastAnimStep := lastAnimStep s; stateEnterMs := stateEnterMs s;
     lastButtonEdge := lastButtonEdge s;
     lastButtonLevel := lastButtonLevel s; longPressArmed := v;
     buttonPressMs := buttonPressMs s; rainbowOffset := rainbowOffset s;
     requestedCount := requestedCount s;
     countWindowEnds := countWindowEnds s; selectedIdx := selectedIdx s;
     selectedCount := selectedCount s; pixels := pixels s; shown := shown s;
     rngPos := rngPos s |}.

Definition set_buttonPressMs (v : Z) (s : St) : St :=
  {| state := state s; nowMs := nowMs s; lastIdleStep := lastIdleStep s;
     lastAnimStep := lastAnimStep s; stateEnterMs := stateEnterMs s;
     lastButtonEdge := lastButtonEdge s;
     lastButtonLevel := lastButtonLevel s;
     longPressArmed := longPressArmed s; buttonPressMs := v;
     rainbowOffset := rainbowOffset s; requestedCount := requestedCount s;
     countWindowEnds := countWindowEnds s; selectedIdx := selectedIdx s;
     selectedCount := selectedCount s; pixels := pixels s; shown := shown s;
     rngPos := rngPos s |}.

Definition set_rainbowOffset (v : Z) (s : St) : St :=
  {| state := state s; nowMs := nowMs s; lastIdleStep := lastIdleStep s;
     lastAnimStep := lastAnimStep s; stateEnterMs := stateEnterMs s;
     lastButtonEdge := lastButtonEdge s;
     lastButtonLevel := lastButtonLevel s;
     longPressArmed := longPressArmed s; buttonPressMs := buttonPressMs s;
     rainbowOffset := v; requestedCount := requestedCount s;
     countWindowEnds := countWindowEnds s; selectedIdx := selectedIdx s;
     selectedCount := selectedCount s; pixels := pixels s; shown := shown s;
     rngPos := rngPos s |}.

Definition set_requestedCount (v : Z) (s : St) : St :=
  {| state := state s; nowMs := nowMs s; lastIdleStep := lastIdleStep s;
     lastAnimStep := lastAnimStep s; stateEnterMs := stateEnterMs s;
     lastButtonEdge := lastButtonEdge s;
     lastButtonLevel := lastButtonLevel s;
     longPressArmed := longPressArmed s; buttonPressMs := buttonPressMs s;
     rainbowOffset := rainbowOffset s; requestedCount := v;
     countWindowEnds := countWindowEnds s; selectedIdx := selectedIdx s;
     selectedCount := selectedCount s; pixels := pixels s; shown := shown s;
     rngPos := rngPos s |}.

Definition set_countWindowEnds (v : Z) (s : St) : St :=
  {| state := state s; nowMs := nowMs s; lastIdleStep := lastIdleStep s;
     lastAnimStep := lastAnimStep s; stateEnterMs := stateEnterMs s;
     lastButtonEdge := lastButtonEdge s;
     lastButtonLevel := lastButtonLevel s;
     longPressArmed := longPressArmed s; buttonPressMs := buttonPressMs s;
     rainbowOffset := rainbowOffset s; requestedCount := requestedCount s;
     countWindowEnds := v; selectedIdx := selectedIdx s;
     selectedCount := selectedCount s; pixels := pixels s; shown := shown s;
     rngPos := rngPos s |}.

Definition set_selectedIdx (v : list Z) (s : St) : St :=
  {| state := state s; nowMs := nowMs s; lastIdleStep := lastIdleStep s;
     lastAnimStep := lastAnimStep s; stateEnterMs := stateEnterMs s;
     lastButtonEdge := lastButtonEdge s;
     lastButtonLevel := lastButtonLevel s;
     longPressArmed := longPressArmed s; buttonPressMs := buttonPressMs s;
     rainbowOffset := rainbowOffset s; requestedCount := requestedCount s;
     countWindowEnds := countWindowEnds s; selectedIdx := v;
     selectedCount := selectedCount s; pixels := pixels s; shown := shown s;
     rngPos := rngPos s |}.

Definition set_selectedCount (v : Z) (s : St) : St :=
  {| state := state s; nowMs := nowMs s; lastIdleStep := lastIdleStep s;
     lastAnimStep := lastAnimStep s; stateEnterMs := stateEnterMs s;
     lastButtonEdge := lastButtonEdge s;
     lastButtonLevel := lastButtonLevel s;
     longPressArmed := longPressArmed s; buttonPressMs := buttonPressMs s;
     rainbowOffset := rainbowOffset s; requestedCount := requestedCount s;
     countWindowEnds := countWindowEnds s; selectedIdx := selectedIdx s;
     selectedCount := v; pixels := pixels s; shown := shown s;
     rngPos := rngPos s |}.

Definition set_pixels (v : list Z) (s : St) : St :=
  {| state := state s; nowMs := nowMs s; lastIdleStep := lastIdleStep s;
     lastAnimStep := lastAnimStep s; stateEnterMs := stateEnterMs s;
     lastButtonEdge := lastButtonEdge s;
     lastButtonLevel := lastButtonLevel s;
     longPressArmed := longPressArmed s; buttonPressMs := buttonPressMs s;
     rainbowOffset := rainbowOffset s; requestedCount := requestedCount s;
     countWindowEnds := countWindowEnds s; selectedIdx := selectedIdx s;
     selectedCount := selectedCount s; pixels := v; shown := shown s;
     rngPos := rngPos s |}.

Definition set_shown (v : list Z) (s : St) : St :=
  {| state := state s; nowMs := nowMs s; lastIdleStep := lastIdleStep s;
     lastAnimStep := lastAnimStep s; stateEnterMs := stateEnterMs s;
     lastButtonEdge := lastButtonEdge s;
     lastButtonLevel := lastButtonLevel s;
     longPressArmed := longPressArmed s; buttonPressMs := buttonPressMs s;
     rainbowOffset := rainbowOffset s; requestedCount := requestedCount s;
     countWindowEnds := countWindowEnds s; selectedIdx := selectedIdx s;
     selectedCount := selectedCount s; pixels := pixels s; shown := v;
     rngPos := rngPos s |}.

Definition set_rngPos (v : nat) (s : St) : St :=
  {| state := state s; nowMs := nowMs s; lastIdleStep := lastIdleStep s;
     lastAnimStep := lastAnimStep s; stateEnterMs := stateEnterMs s;
     lastButtonEdge := lastButtonEdge s;
     lastButtonLevel := lastButtonLevel s;
     longPressArmed := longPressArmed s; buttonPressMs := buttonPressMs s;
     rainbowOffset := rainbowOffset s; requestedCount := requestedCount s;
     countWindowEnds := countWindowEnds s; selectedIdx := selectedIdx s;
     selectedCount := selectedCount s; pixels := pixels s; shown := shown s;
     rngPos := v |}.

(** ** The LED strip (Adafruit_NeoPixel, an external driver)

    [Color] packs three bytes, [clear] zeroes the frame buffer,
    [setPixelColor] ignores a position outside the strip and [show] sends the
    frame buffer to the LEDs. *)

Definition Color (r g b : Z) : Z :=
  Z.lor (Z.lor (Z.shiftl (u8 r) 16) (Z.shiftl (u8 g) 8)) (u8 b).

Definition red (c : Z) : Z := Z.land (Z.shiftr c 16) 255.
Definition green (c : Z) : Z := Z.land (Z.shiftr c 8) 255.
Definition blue (c : Z) : Z := Z.land c 255.

Definition clear (s : St) : St :=
  set_pixels (replicate (length (pixels s)) 0) s.

Definition setPixelColor `{Config} (n c : Z) (s : St) : St :=
  if n <? NUM_LEDS then set_pixels (<[Z.to_nat n := c]> (pixels s)) s else s.

Definition show (s : St) : St := set_shown (pixels s) s.

(** ** The generator behind [random]

    [raw] is the sequence of the numbers the generator produces;
    [random(lo, hi)] of the Arduino core returns [lo] without a draw when
    [lo >= hi] and [lo + draw % (hi - lo)] otherwise. *)
Definition random (raw : nat → Z) (lo hi : Z) (pos : nat) : Z * nat :=
  if hi <=? lo then (lo, pos) else (lo + raw pos mod (hi - lo), S pos).

(** ** Color helpers *)

Definition colorWheel (pos : Z) : Z :=
  let pos := u8 (255 - pos) in
  if pos <? 85 then
    Color (255 - pos * 3) 0 (pos * 3)
  else if pos <? 170 then
    let pos := u8 (pos - 85) in
    Color 0 (pos * 3) (255 - pos * 3)
  else
    let pos := u8 (pos - 170) in
    Color (pos * 3) (255 - pos * 3) 0.

(** The hue wheel as the specification words it, on the position it is given:
    0-84 from red toward blue, 85-169 from blue toward green, 170-255 from
    green toward red. *)
Definition spec_wheel (p : Z) : Z :=
  if p <? 85 then Color (255 - p * 3) 0 (p * 3)
  else if p <? 170 then Color 0 ((p - 85) * 3) (255 - (p - 85) * 3)
  else Color ((p - 170) * 3) (255 - (p - 170) * 3) 0.

(** ** Selection helpers *)

(** [contains(arr, len, val)]: [n] is the number of entries still to look at,
    [i] the index of the next one. *)
Fixpoint contains_from (n : nat) (arr : list Z) (i val : Z) : outcome bool :=
  match n with
  | O => Ret false
  | S n' =>
      x ← rd arr i;
      if x =? val then Ret true else contains_from n' arr (i + 1) val
  end.

Definition contains (arr : list Z) (len val : Z) : outcome bool :=
  contains_from (Z.to_nat len) arr 0 val.

(** The [while (count < k)] loop of [pickUniqueRandom]; [pos] is the position
    in the generator's sequence. *)
Fixpoint pickLoop `{Config} (raw : nat → Z) (fuel : nat) (k count : Z)
    (out : list Z) (pos : nat) : outcome (list Z * nat) :=
  match fuel with
  | O => if count <? k then OutOfFuel else Ret (out, pos)
  | S fuel' =>
      if count <? k then
        let '(r0, pos) := random raw 0 PEOPLE_NB pos in
        let r := u8 r0 in
        c ← contains out count r;
        if c : bool then pickLoop raw fuel' k count out pos
        else
          out ← wr out count r;
          pickLoop raw fuel' k (u8 (count + 1)) out pos
      else Ret (out, pos)
  end.

Definition pickUniqueRandom `{Config} (raw : nat → Z) (fuel : nat) (k : Z)
    (out : list Z) (pos : nat) : outcome (list Z * nat) :=
  pickLoop raw fuel k 0 out pos.

(** ** Button handling *)

(** [pollButton]: 1 = short press, 2 = long press, 0 = nothing. [level] is
    the [digitalRead] of the first line and [level2] the one of the held-down
    test, which C++ evaluates only when the two tests before it hold. *)
Definition pollButton (level level2 : bool) (s : St) : Z * St :=
  let evt := 0 in
  let '(evt, s) :=
    if negb (eqb level (lastButtonLevel s)) then
      let t := nowMs s in
      if DEBOUNCE_MS <? u32 (t - lastButtonEdge s) then
        let s := set_lastButtonEdge t s in
        let '(evt, s) :=
          if negb level then
            (evt, set_longPressArmed true (set_buttonPressMs t s))
          else if longPressArmed s then
            let pressDur := u32 (t - buttonPressMs s) in
            (if LONG_PRESS_MS <=? pressDur then 2 else 1,
             set_longPressArmed false s)
          else (evt, s) in
        (evt, set_lastButtonLevel level s)
      else (evt, s)
    else (evt, s) in
  if longPressArmed s
     && (LONG_PRESS_MS <=? u32 (nowMs s - buttonPressMs s))
     && negb level2
  then (2, set_longPressArmed false s)
  else (evt, s).

(** ** Rendering *)

Definition renderIdle `{Config} (s : St) : outcome St :=
  if IDLE_STEP_MS <=? u32 (nowMs s - lastIdleStep s) then
    let s := set_rainbowOffset (u8 (rainbowOffset s + 1)) s in
    s ← for_upto PEOPLE_NB (λ i s,
          led ← rd UsedLEDs i;
          Ret (setPixelColor led
                 (colorWheel (u8 (rainbowOffset s + i * RAINBOW_SPACING))) s))
        s;
    Ret (set_lastIdleStep (nowMs s) (show s))
  else Ret s.

(** C++ leaves the order of the three [random] calls of a pixel open; they
    are taken from left to right here. *)
Definition renderAnimating `{Config} (raw : nat → Z) (s : St) : outcome St :=
  if ANIM_STEP_MS <=? u32 (nowMs s - lastAnimStep s) then
    s ← for_upto PEOPLE_NB (λ i s,
          led ← rd UsedLEDs i;
          let '(r, p) := random raw 0 255 (rngPos s) in
          let '(g, p) := random raw 0 255 p in
          let '(b, p) := random raw 0 255 p in
          Ret (setPixelColor led (Color r g b) (set_rngPos p s)))
        s;
    Ret (set_lastAnimStep (nowMs s) (show s))
  else Ret s.

Definition renderShowSelection `{Config} (s : St) : outcome St :=
  s ← for_upto (selectedCount s) (λ i s,
        idx ← rd (selectedIdx s) i;
        led ← rd UsedLEDs idx;
        Ret (setPixelColor led (Color 255 255 255) s))
      (clear s);
  Ret (show s).

(** ** State transitions *)

Definition enterState `{Config} (st : State) (s : St) : outcome St :=
  let s := set_stateEnterMs (nowMs s) (set_state st s) in
  match st with
  | IDLE => Ret s
  | COUNTING => Ret (set_countWindowEnds (u32 (nowMs s + COUNT_WINDOW_MS)) s)
  | ANIMATING => Ret (set_lastAnimStep 0 s)
  | SHOW => renderShowSelection s
  end.

(** ** Setup and loop *)

(** The globals as their initializers leave them, the strip buffer as
    [strip.begin()] allocates it. *)
Definition initial `{Config} : St :=
  {| state := IDLE; nowMs := 0; lastIdleStep := 0; lastAnimStep := 0;
     stateEnterMs := 0; lastButtonEdge := 0; lastButtonLevel := true;
     longPressArmed := false; buttonPressMs := 0; rainbowOffset := 0;
     requestedCount := 0; countWindowEnds := 0;
     selectedIdx := replicate (Z.to_nat MAX_SEL) 0; selectedCount := 0;
     pixels := replicate (Z.to_nat NUM_LEDS) 0;
     shown := replicate (Z.to_nat NUM_LEDS) 0; rngPos := 0 |}.

Definition setup `{Config} : outcome St :=
  let s := show (clear initial) in
  s ← for_upto PEOPLE_NB (λ i s,
        led ← rd UsedLEDs i;
        if NUM_LEDS <=? led then Halted else Ret s)
      s;
  enterState IDLE s.

(** Lines 243-246: a short press while counting. *)
Definition countShortPress `{Config} (btn : Z) (s : St) : St :=
  if btn =? 1 then
    let s :=
      if requestedCount s <? MAX_REQUEST
      then set_requestedCount (u8 (requestedCount s + 1)) s
      else s in
    set_countWindowEnds (u32 (nowMs s + COUNT_WINDOW_MS)) s
  else s.

(** Lines 248-249: the two clamps at the expiry of the count window. *)
Definition clampZero (s : St) : St :=
  if requestedCount s =? 0 then set_requestedCount 1 s else s.

Definition clampPeople `{Config} (s : St) : St :=
  if PEOPLE_NB <? requestedCount s then set_requestedCount PEOPLE_NB s else s.

(** Lines 258-259: the number of people to select. *)
Definition selectCount `{Config} (requested : Z) : Z :=
  let sc := if PEOPLE_NB <? requested then PEOPLE_NB else requested in
  if MAX_SEL <? sc then MAX_SEL else sc.

(** Lines 258-260: the selection as the controller draws it. *)
Definition select `{Config} (raw : nat → Z) (fuel : nat) (requested : Z)
    (out : list Z) (pos : nat) : outcome (list Z * nat) :=
  pickUniqueRandom raw fuel (selectCount requested) out pos.

(** The [switch] of [loop], on the event [btn] of this tick. *)
Definition dispatch `{Config} (raw : nat → Z) (fuel : nat) (btn : Z) (s : St)
    : outcome St :=
  match state s with
  | IDLE =>
      s ← renderIdle s;
      if btn =? 2 then Ret (show (clear s))
      else if btn =? 1 then enterState COUNTING (set_requestedCount 1 s)
      else Ret s
  | COUNTING =>
      s ← renderIdle s;
      if btn =? 2 then enterState IDLE (set_requestedCount 0 s)
      else
        let s := countShortPress btn s in
        if 0 <=? i32 (nowMs s - countWindowEnds s) then
          enterState ANIMATING (clampPeople (clampZero s))
        else Ret s
  | ANIMATING =>
      s ← renderAnimating raw s;
      if btn =? 2 then enterState IDLE s
      else if ANIM_MS <=? u32 (nowMs s - stateEnterMs s) then
        let s := set_selectedCount (selectCount (requestedCount s)) s in
        '(out, pos) ← select raw fuel (requestedCount s) (selectedIdx s)
                        (rngPos s);
        enterState SHOW (set_rngPos pos (set_selectedIdx out s))
      else Ret s
  | SHOW =>
      if btn =? 2 then enterState IDLE s
      else if HOLD_MS <=? u32 (nowMs s - stateEnterMs s) then enterState IDLE s
      else Ret s
  end.

(** One pass of [loop]: [ms] is what [millis()] returns. *)
Definition loop `{Config} (raw : nat → Z) (fuel : nat) (ms : Z)
    (level level2 : bool) (s : St) : outcome St :=
  let s := set_nowMs (u32 ms) s in
  let '(btn, s) := pollButton level level2 s in
  dispatch raw fuel btn s.

(** The states the controller can be in: after [setup], then after any number
    of passes of [loop] that return. *)
Inductive reachable `{Config} (raw : nat → Z) : St → Prop :=
| reach_setup s : setup = Ret s → reachable raw s
| reach_loop s s' fuel ms level level2 :
    reachable raw s →
    loop raw fuel ms level level2 s = Ret s' →
    reachable raw s'.

(** * Vocabulary of the statements *)

(** ** Colors and selections *)

(** Red, green and blue of a packed color, and the color of a selected
    person. *)
Definition channels (c : Z) : Z * Z * Z := (red c, green c, blue c).

Definition white : Z := Color 255 255 255.

(** The first [k] entries of the selection buffer. *)
Definition selection (k : Z) (out : list Z) : list Z := take (Z.to_nat k) out.

(** The physical positions the table maps a list of indices to. *)
Definition mapped `{Config} (sel : list Z) : list Z :=
  omap (λ idx, UsedLEDs !! Z.to_nat idx) sel.

(** What the loop of [pickUniqueRandom] keeps true of the [count] entries
    drawn so far: they are there, distinct, and indices of the population. *)
Definition drawn `{Config} (count : Z) (out : list Z) : Prop :=
  length (selection count out) = Z.to_nat count
  ∧ NoDup (selection count out)
  ∧ Forall (λ x, 0 <= x < PEOPLE_NB) (selection count out).

(** ** Generators *)

(** A generator is fair when every index of the population keeps coming back
    in its draws. *)
Definition fair `{Config} (raw : nat → Z) : Prop :=
  ∀ (n : nat) (v : Z), 0 <= v < PEOPLE_NB →
    ∃ m : nat, (n <= m)%nat ∧ raw m mod PEOPLE_NB = v.

(** A counter, a generator stuck at 0, and one that is stuck for its first
    [n] draws and counts after. *)
Definition counter : nat → Z := λ n, Z.of_nat n.


Definition late (n : nat) : nat → Z :=
  λ m, if (m <? n)%nat then 0 else Z.of_nat m.

(** ** Runs of the sketch *)

(** Passes of [loop] on the given clock readings and button levels (the two
    reads of a pass see the same level), with the events they produce. *)
Fixpoint run `{Config} (raw : nat → Z) (fuel : nat) (inputs : list (Z * bool))
    (s : St) : outcome (list Z * St) :=
  match inputs with
  | [] => Ret ([], s)
  | (ms, level) :: rest =>
      let '(btn, s1) := pollButton level level (set_nowMs (u32 ms) s) in
      s2 ← dispatch raw fuel btn s1;
      '(evts, s3) ← run raw fuel rest s2;
      Ret (btn :: evts, s3)
  end.

(** Passes of [loop] labelled with the time of each and the event its
    [pollButton] reports, whatever the button levels behind the event. The
    time is the true one, [millis()] is its low 32 bits. *)
Inductive passes `{Config} (raw : nat → Z) (fuel : nat)
    : list (Z * Z) → St → St → Prop :=
| passes_nil s : passes raw fuel [] s s
| passes_cons ms btn level level2 s s1 s2 s3 tr :
    pollButton level level2 (set_nowMs (u32 ms) s) = (btn, s1) →
    dispatch raw fuel btn s1 = Ret s2 →
    passes raw fuel tr s2 s3 →
    passes raw fuel ((ms, btn) :: tr) s s3.

(** ** The classifier over samples *)

(** The classifier alone, over samples (clock reading, level of the first
    read, level of the second read): the results of [pollButton] and the
    state it ends in. *)
Fixpoint polls (samples : list (Z * bool * bool)) (s : St) : list Z * St :=
  match samples with
  | [] => ([], s)
  | (ms, level, level2) :: rest =>
      let '(evt, s1) := pollButton level level2 (set_nowMs (u32 ms) s) in
      let '(evts, s2) := polls rest s1 in
      (evt :: evts, s2)
  end.

(** The events among the results of [pollButton]: 0 is "nothing". *)
Definition events (evts : list Z) : list Z := filter (λ e, e ≠ 0) evts.

(** The clock reading of the first sample that passes the debounce gate after
    an edge accepted at [edge]. *)
Fixpoint first_accept (edge : Z) (samples : list (Z * bool * bool))
    : option Z :=
  match samples with
  | [] => None
  | (ms, _, _) :: rest =>
      if DEBOUNCE_MS <? u32 (u32 ms - edge) then Some (u32 ms)
      else first_accept edge rest
  end.

(** The classifier at rest: the button is known released and no press is
    pending. *)
Definition resting (s : St) : Prop :=
  lastButtonLevel s = true ∧ longPressArmed s = false.

(** The classifier in a press it accepted at [ta]: the button is known
    pressed, and while the press is pending its start is [ta]. *)
Definition held (ta : Z) (s : St) : Prop :=
  lastButtonLevel s = false
  ∧ lastButtonEdge s = ta
  ∧ (longPressArmed s = true → buttonPressMs s = ta).

(** The variables of the button, and the sample of a pass whose two reads
    see the same level. *)
Definition button (s : St) : bool * bool * Z * Z :=
  (lastButtonLevel s, longPressArmed s, lastButtonEdge s, buttonPressMs s).

Definition both (input : Z * bool) : Z * bool * bool :=
  (input.1, input.2, input.2).

(** ** Frames *)

(** A state that differs from [s] in the variables of the button only. *)
Definition with_button (level armed : bool) (edge press : Z) (s : St) : St :=
  set_lastButtonLevel level
    (set_longPressArmed armed
       (set_buttonPressMs press (set_lastButtonEdge edge s))).

(** A state that differs from [s] in what the renderers write. *)
Definition with_frame (offset idle anim : Z) (px sh : list Z) (pos : nat)
    (s : St) : St :=
  set_rainbowOffset offset
    (set_lastIdleStep idle
       (set_lastAnimStep anim
          (set_pixels px (set_shown sh (set_rngPos pos s))))).

(** ** The count window *)

(** A trace of (time, event) labels in which the count window, which closes
    at [deadline], stays open: every pass comes before the deadline and at
    most [COUNT_WINDOW_MS] after it was set, and a short press sets it anew. *)
Fixpoint window_open (deadline : Z) (tr : list (Z * Z)) : Prop :=
  match tr with
  | [] => True
  | (ms, btn) :: rest =>
      deadline - COUNT_WINDOW_MS <= ms < deadline
      ∧ ((btn = 1 ∧ window_open (ms + COUNT_WINDOW_MS) rest)
         ∨ (btn = 0 ∧ window_open deadline rest))
  end.

(** Where the deadline is after the trace, and how many short presses the
    trace holds. *)
Fixpoint deadline_after (deadline : Z) (tr : list (Z * Z)) : Z :=
  match tr with
  | [] => deadline
  | (ms, btn) :: rest =>
      deadline_after (if btn =? 1 then ms + COUNT_WINDOW_MS else deadline) rest
  end.

Definition presses (tr : list (Z * Z)) : Z :=
  Z.of_nat (length (filter (λ p, p.2 = 1) tr)).

(** The invariant of the controller: the requested count is within
    1..PEOPLE_NB while counting, and the selection buffer keeps its [MAX_SEL]
    entries. *)
Definition counting_inv `{Config} (s : St) : Prop :=
  (state s = COUNTING → 1 <= requestedCount s <= PEOPLE_NB)
  ∧ length (selectedIdx s) = Z.to_nat MAX_SEL.

(** ** Examples on the shipped sketch *)

(** A state on entry to Show with people 2 and 5 selected. *)
Definition show_example : St :=
  set_selectedCount 2
    (set_selectedIdx ([2; 5] ++ replicate 30 0) (@initial shipped)).

(** Runs from [setup]. The button goes down at 100 ms and up at 200 ms, which
    enters Counting; the count window closes at 1100 ms; the animation ends
    at 2900 ms; in Show the button goes down at 3000 ms. *)
Definition idle_run : outcome (list Z * St) :=
  s0 ← @setup shipped; run (H := shipped) counter 0 [(100, false)] s0.

Definition counting_run : outcome (list Z * St) :=
  s0 ← @setup shipped;
  run (H := shipped) counter 0 [(100, false); (200, true)] s0.

Definition animating_run : outcome (list Z * St) :=
  s0 ← @setup shipped;
  run (H := shipped) counter 0 [(100, false); (200, true); (1100, true)] s0.

Definition show_trace : list (Z * bool) :=
  [(100, false); (200, true); (1100, true); (2900, true); (3000, false)].

Definition show_run : outcome (list Z * St) :=
  s0 ← @setup shipped; run (H := shipped) counter 40 show_trace s0.

(** After [idle_run]: the release that enters Counting at 200 ms, three more
    short presses released at 400, 600 and 800 ms, and the first pass after
    the window has closed, at 1700 ms. *)
Definition count_trace : list (Z * bool) :=
  [(200, true); (300, false); (400, true); (500, false); (600, true);
   (700, false); (800, true); (1700, true)].

(** The passes of [count_trace] after the one that enters Counting and
    before the one that finds the window closed, with their events. *)
Definition count_labels : list (Z * Z) :=
  [(300, 0); (400, 1); (500, 0); (600, 1); (700, 0); (800, 1)].

Arguments u8 : simpl never.
Arguments u32 : simpl never.
Arguments i32 : simpl never.
Arguments PEOPLE_NB : simpl never.
Arguments Color : simpl never.
Arguments colorWheel : simpl never.
Arguments countShortPress : simpl never.
Arguments clampZero : simpl never.
Arguments clampPeople : simpl never.
Arguments selectCount : simpl never.
Arguments select : simpl never.

(** ** More vocabulary *)

(** The samples after the first one that passes the debounce gate, and the
    samples up to and including it. *)
Fixpoint after_accept (edge : Z) (samples : list (Z * bool * bool))
    : list (Z * bool * bool) :=
  match samples with
  | [] => []
  | (ms, level, level2) :: rest =>
      if DEBOUNCE_MS <? u32 (u32 ms - edge) then rest
      else after_accept edge rest
  end.

Fixpoint upto_accept (edge : Z) (samples : list (Z * bool * bool))
    : list (Z * bool * bool) :=
  match samples with
  | [] => []
  | (ms, level, level2) :: rest =>
      if DEBOUNCE_MS <? u32 (u32 ms - edge) then [(ms, level, level2)]
      else (ms, level, level2) :: upto_accept edge rest
  end.

(** A table whose third person sits beyond the end of the strip. *)
Definition broken : Config :=
  {| UsedLEDs := [0; 2; 40]; NUM_LEDS := 30 |}.

(** ** What the strip shows *)

(** A frame that lights no LED but those of the table. *)
Definition only_table `{Config} (px : list Z) : Prop :=
  ∀ (n : nat) (c : Z), px !! n = Some c → c ≠ 0 →
    ∃ led, led ∈ UsedLEDs ∧ n = Z.to_nat led.

(** A frame of the length of the strip in which the selected people are
    white and every other LED is off. *)
Definition shows_selection `{Config} (sel px : list Z) : Prop :=
  length px = Z.to_nat NUM_LEDS
  ∧ ∀ p : nat, (p < Z.to_nat NUM_LEDS)%nat →
      px !! p
      = Some (if bool_decide (Z.of_nat p ∈ mapped sel) then white else 0).

(** The invariant behind the selection on display: the buffers keep their
    lengths, the requested count is within 1..PEOPLE_NB outside Idle, and in
    Show the selection is the one drawn for the requested count and the
    strip shows it. *)
Definition show_inv `{Config} (s : St) : Prop :=
  length (pixels s) = Z.to_nat NUM_LEDS
  ∧ length (selectedIdx s) = Z.to_nat MAX_SEL
  ∧ (state s ≠ IDLE → 1 <= requestedCount s <= PEOPLE_NB)
  ∧ (state s = SHOW →
     selectedCount s = selectCount (requestedCount s)
     ∧ drawn (selectedCount s) (selectedIdx s)
     ∧ shows_selection (selection (selectedCount s) (selectedIdx s))
         (shown s)).

(** ** More example runs on the shipped sketch *)


(** After [show_run], which enters Show at 2900 ms and ends with the button
    down since 3000 ms: the release at 3100 ms, a short press, a pass at
    5000 ms and the pass at 12900 ms, when the hold time is over. *)
Definition hold_trace : list (Z * bool) :=
  [(3100, true); (5000, true); (12900, true)].

(** * Properties *)

(** ** Machine integers *)

Lemma u8_range z : 0 <= u8 z < 256.
Proof. unfold u8. apply Z.mod_pos_bound. lia. Qed.

Lemma u8_small z : 0 <= z < 256 → u8 z = z.
Proof. intros. unfold u8. apply Z.mod_small. lia. Qed.

Lemma u32_range z : 0 <= u32 z < 4294967296.
Proof. unfold u32. apply Z.mod_pos_bound. lia. Qed.

Lemma u32_small z : 0 <= z < 4294967296 → u32 z = z.
Proof. intros. unfold u32. apply Z.mod_small. lia. Qed.

(** Adding a wrapped number or the number itself wraps to the same. *)
Lemma u32_add_u32_l a b : u32 (u32 a + b) = u32 (a + b).
Proof. unfold u32. apply Zplus_mod_idemp_l. Qed.

Lemma u32_sub_u32 a b : u32 (u32 a - u32 b) = u32 (a - b).
Proof. unfold u32. symmetry. apply Zminus_mod. Qed.

Lemma u32_self t : u32 (t - t) = 0.
Proof. rewrite Z.sub_diag. reflexivity. Qed.

(** The signed difference of two clock readings is the true difference as
    long as that one fits 32 signed bits. *)
Lemma i32_sub_u32 a b :
  -2147483648 <= a - b < 2147483648 → i32 (u32 a - u32 b) = a - b.
Proof.
  intros Hab. unfold i32. rewrite u32_sub_u32. unfold u32.
  destruct (Z_lt_le_dec (a - b) 0) as [Hneg | Hpos].
  - replace ((a - b) mod 4294967296) with (a - b + 4294967296).
    + destruct (Z.ltb_spec (a - b + 4294967296) 2147483648); lia.
    + apply Z.mod_unique with (q := -1); lia.
  - rewrite Z.mod_small by lia.
    destruct (Z.ltb_spec (a - b) 2147483648); lia.
Qed.

(** ** Packed colors *)

Lemma channels_Color r g b :
  0 <= r < 256 → 0 <= g < 256 → 0 <= b < 256 →
  channels (Color r g b) = (r, g, b).
Proof.
  intros Hr Hg Hb. unfold channels, red, green, blue, Color.
  rewrite !u8_small by assumption.
  assert (Hmask : ∀ x, Z.land x 255 = x mod 256).
  { intros x. change 255 with (Z.ones 8). rewrite Z.land_ones by lia.
    reflexivity. }
  assert (Hhi : ∀ x, 0 <= x < 256 → Z.shiftr x 8 = 0).
  { intros x Hx. rewrite Z.shiftr_div_pow2 by lia. apply Z.div_small.
    change (2 ^ 8) with 256. lia. }
  assert (Hhi2 : ∀ x, 0 <= x < 256 → Z.shiftr x 16 = 0).
  { intros x Hx. rewrite Z.shiftr_div_pow2 by lia. apply Z.div_small.
    change (2 ^ 16) with 65536. lia. }
  assert (Hlow : ∀ x n, 8 <= n → Z.land (Z.shiftl x n) 255 = 0).
  { intros x n Hn. rewrite Hmask, Z.shiftl_mul_pow2 by lia.
    replace n with (n - 8 + 8) by lia. rewrite Z.pow_add_r by lia.
    change (2 ^ 8) with 256. rewrite Z.mul_assoc. apply Z_mod_mult. }
  f_equal; [f_equal |].
  - rewrite !Z.shiftr_lor, Z.shiftr_shiftl_l, Z.shiftr_shiftl_r by lia.
    change (16 - 16) with 0. change (16 - 8) with 8.
    rewrite Z.shiftl_0_r, Hhi, Hhi2, !Z.lor_0_r, Hmask by assumption.
    apply Z.mod_small. assumption.
  - rewrite !Z.shiftr_lor, !Z.shiftr_shiftl_l by lia.
    change (16 - 8) with 8. change (8 - 8) with 0.
    rewrite Z.shiftl_0_r, Hhi, Z.lor_0_r, Z.land_lor_distr_l by assumption.
    rewrite Hlow, Z.lor_0_l, Hmask by lia. apply Z.mod_small. assumption.
  - rewrite !Z.land_lor_distr_l, !Hlow, !Z.lor_0_l, Hmask by lia.
    apply Z.mod_small. assumption.
Qed.

(** ** The hue wheel *)

(** The sketch inverts the position first, so its three branches are the
    three segments of the specification read on [255 - p]. *)
Lemma colorWheel_spec_wheel p : colorWheel p = spec_wheel (u8 (255 - p)).
Proof.
  unfold colorWheel, spec_wheel. pose proof (u8_range (255 - p)) as Hq.
  destruct (Z.ltb_spec (u8 (255 - p)) 85); [reflexivity |].
  destruct (Z.ltb_spec (u8 (255 - p)) 170).
  - rewrite u8_small by lia. reflexivity.
  - rewrite u8_small by lia. reflexivity.
Qed.

(** C3, as amended. For a position [p] in 0..255 the wheel is the
    specification's mapping on the inverted position [255 - p]; on [p] itself
    0..85 runs from red to green, 86..170 from green to blue and 171..255
    from blue back to red. *)
Theorem colorWheel_segments (p : Z) :
  0 <= p <= 255 →
  colorWheel p = spec_wheel (255 - p)
  ∧ (p <= 85 → channels (colorWheel p) = (255 - 3 * p, 3 * p, 0))
  ∧ (86 <= p <= 170 → channels (colorWheel p) = (0, 510 - 3 * p, 3 * p - 255))
  ∧ (171 <= p → channels (colorWheel p) = (3 * p - 510, 0, 765 - 3 * p)).
Proof.
  intros Hp. rewrite colorWheel_spec_wheel, u8_small by lia.
  split; [reflexivity |]. unfold spec_wheel.
  repeat split; intros Hseg.
  - destruct (Z.ltb_spec (255 - p) 85); [lia |].
    destruct (Z.ltb_spec (255 - p) 170); [lia |].
    rewrite channels_Color by lia. apply f_equal2; [apply f_equal2 |]; lia.
  - destruct (Z.ltb_spec (255 - p) 85); [lia |].
    destruct (Z.ltb_spec (255 - p) 170); [| lia].
    rewrite channels_Color by lia. apply f_equal2; [apply f_equal2 |]; lia.
  - destruct (Z.ltb_spec (255 - p) 85); [| lia].
    rewrite channels_Color by lia. apply f_equal2; [apply f_equal2 |]; lia.
Qed.

Lemma colorWheel_segments_witness :
  0 <= 100 <= 255
  ∧ colorWheel 100 = spec_wheel (255 - 100)
  ∧ channels (colorWheel 100) = (0, 210, 45).
Proof.
  split; [lia |].
  destruct (colorWheel_segments 100 ltac:(lia)) as (Hspec & _ & Hmid & _).
  split; [exact Hspec | apply Hmid; lia].
Defined.

(** The wheel is closed: its two ends are the same pure red. *)
Lemma colorWheel_closed :
  channels (colorWheel 0) = (255, 0, 0)
  ∧ channels (colorWheel 255) = (255, 0, 0).
Proof. split; reflexivity. Qed.

(** C3, as stated, fails: position 42 lies in the segment 0-84, yet its color
    has green in it and no blue, so it is not between red and blue. *)
Lemma colorWheel_42_not_red_blue :
  0 <= 42 <= 84
  ∧ channels (colorWheel 42) = (129, 126, 0)
  ∧ channels (spec_wheel 42) = (129, 0, 126)
  ∧ colorWheel 42 ≠ spec_wheel 42.
Proof.
  split; [lia |]. split; [reflexivity |]. split; [reflexivity |].
  intros Heq. apply (f_equal green) in Heq. vm_compute in Heq. discriminate.
Qed.

(** ** The unique random selector *)

Section Selector.
Context `{cfg : Config} (raw : nat → Z).

Lemma PEOPLE_NB_range :
  0 <= PEOPLE_NB < 256 ∧ (Z.to_nat PEOPLE_NB <= length UsedLEDs)%nat.
Proof.
  unfold PEOPLE_NB, u8.
  pose proof (Z.mod_pos_bound (Z.of_nat (length UsedLEDs)) 256 ltac:(lia)).
  pose proof (Z.mod_le (Z.of_nat (length UsedLEDs)) 256 ltac:(lia) ltac:(lia)).
  lia.
Qed.

Lemma random_people pos :
  1 <= PEOPLE_NB →
  random raw 0 PEOPLE_NB pos = (raw pos mod PEOPLE_NB, S pos)
  ∧ 0 <= raw pos mod PEOPLE_NB < PEOPLE_NB.
Proof.
  intros HP. unfold random.
  destruct (Z.leb_spec PEOPLE_NB 0); [lia |].
  rewrite Z.sub_0_r, Z.add_0_l. split; [reflexivity |].
  apply Z.mod_pos_bound. lia.
Qed.

Lemma rd_Ret arr i x : rd arr i = Ret x → arr !! Z.to_nat i = Some x.
Proof. unfold rd. destruct (arr !! Z.to_nat i); congruence. Qed.

Lemma rd_lookup arr i x : arr !! Z.to_nat i = Some x → rd arr i = Ret x.
Proof. unfold rd. intros ->. reflexivity. Qed.

(** [contains] answers whether the value is among the entries it scans. *)
Lemma contains_from_Ret n arr (j : nat) val b :
  contains_from n arr (Z.of_nat j) val = Ret b →
  b = bool_decide (val ∈ take n (drop j arr)).
Proof.
  revert j. induction n as [| n IH]; intros j Hc; simpl in Hc.
  - inversion Hc. rewrite take_0. symmetry. apply bool_decide_eq_false.
    apply not_elem_of_nil.
  - destruct (rd arr (Z.of_nat j)) as [x | | |] eqn:Hrd; try discriminate.
    apply rd_Ret in Hrd. rewrite Nat2Z.id in Hrd.
    rewrite (drop_S _ _ _ Hrd). simpl in *.
    destruct (Z.eqb_spec x val) as [-> | Hne].
    + inversion Hc. symmetry. apply bool_decide_eq_true. apply elem_of_cons.
      left. reflexivity.
    + replace (Z.of_nat j + 1) with (Z.of_nat (S j)) in Hc by lia.
      rewrite (IH _ Hc). apply bool_decide_ext. rewrite elem_of_cons.
      split; [tauto |]. intros [Heq | Hin]; [congruence | exact Hin].
Qed.

Lemma contains_from_total n arr (j : nat) val :
  (j + n <= length arr)%nat →
  ∃ b, contains_from n arr (Z.of_nat j) val = Ret b.
Proof.
  revert j. induction n as [| n IH]; intros j Hlen; simpl.
  - eexists. reflexivity.
  - destruct (lookup_lt_is_Some_2 arr j ltac:(lia)) as [x Hx].
    rewrite (rd_lookup _ _ x) by (rewrite Nat2Z.id; exact Hx). simpl.
    destruct (x =? val); [eexists; reflexivity |].
    replace (Z.of_nat j + 1) with (Z.of_nat (S j)) by lia.
    apply IH. lia.
Qed.

Lemma contains_Ret arr len val b :
  contains arr len val = Ret b →
  b = bool_decide (val ∈ selection len arr).
Proof.
  unfold contains, selection. intros Hc.
  apply (contains_from_Ret _ _ 0%nat) in Hc. rewrite drop_0 in Hc. exact Hc.
Qed.

Lemma contains_total arr len val :
  (Z.to_nat len <= length arr)%nat → ∃ b, contains arr len val = Ret b.
Proof.
  intros Hlen. unfold contains. apply (contains_from_total _ _ 0%nat). lia.
Qed.

Lemma drawn_0 out : drawn 0 out.
Proof.
  unfold drawn, selection. simpl. rewrite take_0.
  split; [reflexivity |]. split; [apply NoDup_nil_2 | apply Forall_nil_2].
Qed.

Lemma drawn_length count out :
  drawn count out → (Z.to_nat count <= length out)%nat.
Proof.
  intros (Hl & _). unfold selection in Hl. rewrite length_take in Hl. lia.
Qed.

Lemma drawn_next count out r :
  0 <= count → (Z.to_nat count < length out)%nat →
  0 <= r < PEOPLE_NB → r ∉ selection count out →
  drawn count out →
  drawn (count + 1) (<[Z.to_nat count := r]> out).
Proof.
  intros Hc Hlen Hr Hnew (Hl & Hnd & Hall). unfold drawn, selection in *.
  replace (Z.to_nat (count + 1)) with (S (Z.to_nat count)) by lia.
  rewrite (take_S_r _ _ r) by (apply list_lookup_insert_eq; exact Hlen).
  rewrite take_insert_ge by lia.
  split; [rewrite length_app, Hl; simpl; lia |].
  split.
  - apply NoDup_app. split; [exact Hnd |]. split; [| apply NoDup_singleton].
    intros x Hx Hx'. apply list_elem_of_singleton in Hx'. subst x. tauto.
  - apply Forall_app. split; [exact Hall |]. apply Forall_singleton. exact Hr.
Qed.

(** One turn of the loop when the draw is already in the buffer, and when it
    is new. *)
Lemma pickLoop_reject fuel k count out pos :
  1 <= PEOPLE_NB → 0 <= count < k → (Z.to_nat count <= length out)%nat →
  raw pos mod PEOPLE_NB ∈ selection count out →
  pickLoop raw (S fuel) k count out pos = pickLoop raw fuel k count out (S pos).
Proof.
  intros HP Hc Hlen Hin. simpl.
  destruct (Z.ltb_spec count k); [| lia].
  destruct (random_people pos HP) as [-> Hr].
  pose proof PEOPLE_NB_range as [HPr _].
  rewrite (u8_small (raw pos mod PEOPLE_NB)) by lia.
  destruct (contains_total out count (raw pos mod PEOPLE_NB) Hlen) as [b Hb].
  rewrite Hb. apply contains_Ret in Hb. rewrite bool_decide_eq_true_2 in Hb
    by exact Hin. subst b. reflexivity.
Qed.

Lemma pickLoop_accept fuel k count out pos :
  1 <= PEOPLE_NB → 0 <= count < k → k <= 255 →
  (Z.to_nat count < length out)%nat →
  raw pos mod PEOPLE_NB ∉ selection count out →
  pickLoop raw (S fuel) k count out pos
  = pickLoop raw fuel k (count + 1)
      (<[Z.to_nat count := raw pos mod PEOPLE_NB]> out) (S pos).
Proof.
  intros HP Hc Hk Hlen Hin. simpl.
  destruct (Z.ltb_spec count k); [| lia].
  destruct (random_people pos HP) as [-> Hr].
  pose proof PEOPLE_NB_range as [HPr _].
  rewrite (u8_small (raw pos mod PEOPLE_NB)) by lia.
  destruct (contains_total out count (raw pos mod PEOPLE_NB) ltac:(lia))
    as [b Hb].
  rewrite Hb. apply contains_Ret in Hb. rewrite bool_decide_eq_false_2 in Hb
    by exact Hin. subst b. simpl. unfold wr.
  destruct (decide (Z.to_nat count < length out)%nat); [| lia]. simpl.
  rewrite (u8_small (count + 1)) by lia. reflexivity.
Qed.

(** Partial correctness: when the loop returns, the first [k] entries are
    [k] distinct indices of the population. *)
Lemma pickLoop_drawn fuel k count out pos out' pos' :
  1 <= PEOPLE_NB → k <= PEOPLE_NB → 0 <= count <= k →
  drawn count out →
  pickLoop raw fuel k count out pos = Ret (out', pos') →
  drawn k out' ∧ length out' = length out.
Proof.
  intros HP Hk. pose proof PEOPLE_NB_range as [HPr _].
  revert count out pos.
  induction fuel as [| fuel IH]; intros count out pos Hc Hd Hret.
  - simpl in Hret. destruct (Z.ltb_spec count k); [discriminate |].
    inversion Hret; subst. replace k with count by lia. tauto.
  - destruct (Z_lt_le_dec count k) as [Hlt | Hge].
    2:{ simpl in Hret. destruct (Z.ltb_spec count k); [lia |].
        inversion Hret; subst. replace k with count by lia. tauto. }
    destruct (decide (raw pos mod PEOPLE_NB ∈ selection count out))
      as [Hin | Hnew].
    + rewrite pickLoop_reject in Hret; try assumption; try lia.
      * eapply IH; eauto.
      * apply drawn_length. exact Hd.
    + destruct (decide (Z.to_nat count < length out)%nat) as [Hlen | Hlen].
      * rewrite pickLoop_accept in Hret; try assumption; try lia.
        apply IH in Hret; [| lia |].
        -- rewrite length_insert in Hret. exact Hret.
        -- apply drawn_next; try assumption; try lia.
           apply Z.mod_pos_bound. lia.
      * exfalso. pose proof (drawn_length _ _ Hd) as Hle. simpl in Hret. destruct (Z.ltb_spec count k); [| lia].
        destruct (random_people pos HP) as [Hrand Hr].
        rewrite Hrand in Hret.
        rewrite (u8_small (raw pos mod PEOPLE_NB)) in Hret by lia.
        destruct (contains_total out count (raw pos mod PEOPLE_NB)
                    ltac:(lia)) as [b Hb].
        rewrite Hb in Hret. apply contains_Ret in Hb.
        rewrite bool_decide_eq_false_2 in Hb by exact Hnew. subst b.
        simpl in Hret. unfold wr in Hret.
        destruct (decide (Z.to_nat count < length out)%nat); [lia |].
        discriminate.
Qed.

(** No access of the loop leaves the buffer when the buffer holds [k]
    entries. *)
Lemma pickLoop_in_bounds fuel k count out pos :
  0 <= count → (Z.to_nat k <= length out)%nat →
  pickLoop raw fuel k count out pos ≠ OutOfBounds
  ∧ pickLoop raw fuel k count out pos ≠ Halted.
Proof.
  intros Hc Hk. revert count out pos Hc Hk.
  induction fuel as [| fuel IH]; intros count out pos Hc Hk; simpl.
  - destruct (count <? k); split; discriminate.
  - destruct (Z.ltb_spec count k); [| split; discriminate].
    destruct (random raw 0 PEOPLE_NB pos) as [r0 pos1].
    destruct (contains_total out count (u8 r0) ltac:(lia)) as [b Hb].
    rewrite Hb. simpl. destruct b; [apply IH; assumption |].
    unfold wr. destruct (decide (Z.to_nat count < length out)%nat); [| lia].
    simpl. apply IH; [pose proof (u8_range (count + 1)); lia |].
    rewrite length_insert. exact Hk.
Qed.

End Selector.

(** *** Termination on fair generators *)

Section SelectorTermination.
Context `{cfg : Config} (raw : nat → Z).




End SelectorTermination.

(** *** The claims on the selector *)

Lemma shipped_PEOPLE_NB : @PEOPLE_NB shipped = 11.
Proof. reflexivity. Qed.

Lemma counter_fair : @fair shipped counter.
Proof.
  intros n v Hv. rewrite shipped_PEOPLE_NB in *. unfold counter.
  exists (n + Z.to_nat ((v - Z.of_nat n) mod 11))%nat.
  pose proof (Z.mod_pos_bound (v - Z.of_nat n) 11 ltac:(lia)).
  split; [lia |].
  rewrite Nat2Z.inj_add, Z2Nat.id by lia.
  rewrite Zplus_mod_idemp_r.
  replace (Z.of_nat n + (v - Z.of_nat n)) with v by lia.
  apply Z.mod_small. exact Hv.
Qed.

(** C2. For 1 <= k <= P and every generator, when [pickUniqueRandom] returns,
    the first [k] entries of its buffer are exactly [k] pairwise distinct
    indices, each in [0, P). *)
Theorem pickUniqueRandom_distinct `{cfg : Config} (raw : nat → Z)
    (fuel : nat) (k : Z) (out : list Z) (pos : nat) (out' : list Z)
    (pos' : nat) :
  1 <= k <= PEOPLE_NB →
  pickUniqueRandom raw fuel k out pos = Ret (out', pos') →
  length (selection k out') = Z.to_nat k
  ∧ NoDup (selection k out')
  ∧ ∀ x, x ∈ selection k out' → 0 <= x < PEOPLE_NB.
Proof.
  intros Hk Hret. unfold pickUniqueRandom in Hret.
  apply pickLoop_drawn in Hret as [(Hl & Hnd & Hall) _];
    try lia; [| apply drawn_0].
  split; [exact Hl |]. split; [exact Hnd |].
  intros x Hx. revert x Hx. apply Forall_forall. exact Hall.
Qed.

Lemma pickUniqueRandom_distinct_witness :
  1 <= 3 <= @PEOPLE_NB shipped
  ∧ pickUniqueRandom (H := shipped) (λ n, Z.of_nat (n / 2)) 9 3
      (replicate 32 0) 0
    = Ret ([0; 1; 2] ++ replicate 29 0, 5%nat)
  ∧ NoDup (selection 3 ([0; 1; 2] ++ replicate 29 0)).
Proof.
  split; [vm_compute; split; discriminate |].
  split; [vm_compute; reflexivity |].
  refine (proj1 (proj2 (pickUniqueRandom_distinct (cfg := shipped)
    (λ n, Z.of_nat (n / 2)) 9 3 (replicate 32 0) 0
    ([0; 1; 2] ++ replicate 29 0) 5 _ _))).
  - vm_compute. split; discriminate.
  - vm_compute. reflexivity.
Defined.




(** The loop has no retry bound: whatever the number of draws allowed, some
    fair generator needs more of them for two indices. *)
Lemma late_fair n : @fair shipped (late n).
Proof.
  intros m v Hv. rewrite shipped_PEOPLE_NB in *.
  destruct (counter_fair (Nat.max m n) v) as (m' & Hm' & Hdraw);
    [rewrite shipped_PEOPLE_NB; exact Hv |].
  exists m'. split; [lia |]. unfold late.
  destruct (Nat.ltb_spec m' n); [lia |].
  rewrite shipped_PEOPLE_NB in Hdraw. exact Hdraw.
Qed.

Lemma pickUniqueRandom_no_retry_bound (n : nat) :
  @fair shipped (late n)
  ∧ pickUniqueRandom (H := shipped) (late n) n 2 (replicate 32 0) 0
    = OutOfFuel.
Proof.
  split; [apply late_fair |].
  assert (Hloop : ∀ fuel pos, (pos + fuel <= n)%nat →
    pickLoop (H := shipped) (late n) fuel 2 1 (replicate 32 0) pos
    = OutOfFuel).
  { induction fuel as [| fuel IH]; intros pos Hpos; [reflexivity |].
    rewrite pickLoop_reject; [apply IH; lia | | | |].
    - vm_compute. discriminate.
    - lia.
    - simpl. lia.
    - unfold late. destruct (Nat.ltb_spec pos n); [| lia].
      vm_compute. apply list_elem_of_here. }
  destruct n as [| n]; [reflexivity |].
  unfold pickUniqueRandom. rewrite pickLoop_accept.
  - apply (Hloop n 1%nat). lia.
  - vm_compute. discriminate.
  - lia.
  - lia.
  - simpl. lia.
  - vm_compute. apply not_elem_of_nil.
Qed.

(** ** What each function leaves alone *)

(** Unfolds the record updates down to the fields. *)
Ltac fields :=
  cbv beta iota delta [
    with_button with_frame set_state set_nowMs set_lastIdleStep
    set_lastAnimStep set_stateEnterMs set_lastButtonEdge
    set_lastButtonLevel set_longPressArmed set_buttonPressMs
    set_rainbowOffset set_requestedCount set_countWindowEnds
    set_selectedIdx set_selectedCount set_pixels set_shown set_rngPos state
    nowMs lastIdleStep lastAnimStep stateEnterMs lastButtonEdge
    lastButtonLevel longPressArmed buttonPressMs rainbowOffset
    requestedCount countWindowEnds selectedIdx selectedCount pixels shown
    rngPos ].

Section Frames.
Context `{cfg : Config} (raw : nat → Z).

Lemma with_button_id s :
  with_button (lastButtonLevel s) (longPressArmed s) (lastButtonEdge s)
    (buttonPressMs s) s = s.
Proof. destruct s. reflexivity. Qed.

Lemma with_frame_id s :
  with_frame (rainbowOffset s) (lastIdleStep s) (lastAnimStep s) (pixels s)
    (shown s) (rngPos s) s = s.
Proof. destruct s. reflexivity. Qed.

(** A loop returns, and establishes what its body carries from one index to
    the next. *)
Lemma for_loop_inv {A : Type} (I : nat → A → Prop) (body : Z → A → outcome A)
    (n : nat) :
  ∀ (i : nat) (a : A),
    I i a →
    (∀ (j : nat) a, (i <= j < i + n)%nat → I j a →
       ∃ a', body (Z.of_nat j) a = Ret a' ∧ I (S j) a') →
    ∃ a', for_loop n (Z.of_nat i) body a = Ret a' ∧ I (i + n)%nat a'.
Proof.
  induction n as [| n IH]; intros i a Ha Hbody; simpl.
  - exists a. rewrite Nat.add_0_r. split; [reflexivity | exact Ha].
  - destruct (Hbody i a ltac:(lia) Ha) as (a1 & -> & Ha1). simpl.
    replace (Z.of_nat i + 1) with (Z.of_nat (S i)) by lia.
    replace (i + S n)%nat with (S i + n)%nat by lia.
    apply IH; [exact Ha1 |]. intros j a2 Hj. apply Hbody. lia.
Qed.

Lemma rd_UsedLEDs (j : nat) :
  (j < Z.to_nat PEOPLE_NB)%nat → ∃ led, rd UsedLEDs (Z.of_nat j) = Ret led.
Proof.
  intros Hj. pose proof PEOPLE_NB_range as [_ Hlen].
  destruct (lookup_lt_is_Some_2 UsedLEDs j ltac:(lia)) as [led Hled].
  exists led. apply rd_lookup. rewrite Nat2Z.id. exact Hled.
Qed.

Lemma setPixelColor_frame n c s :
  ∃ px, setPixelColor n c s
        = with_frame (rainbowOffset s) (lastIdleStep s) (lastAnimStep s) px
            (shown s) (rngPos s) s.
Proof.
  unfold setPixelColor. destruct (n <? NUM_LEDS).
  - exists (<[Z.to_nat n := c]> (pixels s)). destruct s. reflexivity.
  - exists (pixels s). symmetry. apply with_frame_id.
Qed.

Lemma renderIdle_frame s :
  ∃ offset idle px sh,
    renderIdle s
    = Ret (with_frame offset idle (lastAnimStep s) px sh (rngPos s) s).
Proof.
  unfold renderIdle. destruct (IDLE_STEP_MS <=? u32 (nowMs s - lastIdleStep s)).
  2:{ do 4 eexists. rewrite with_frame_id. reflexivity. }
  set (s0 := set_rainbowOffset (u8 (rainbowOffset s + 1)) s).
  unfold for_upto.
  destruct (for_loop_inv
    (λ _ a, ∃ px, a = with_frame (rainbowOffset s0) (lastIdleStep s0)
                      (lastAnimStep s0) px (shown s0) (rngPos s0) s0)
    (λ i a, led ← rd UsedLEDs i;
            Ret (setPixelColor led
                   (colorWheel (u8 (rainbowOffset a + i * RAINBOW_SPACING)))
                   a))
    (Z.to_nat PEOPLE_NB) 0%nat s0) as (a & Ha & px & ->).
  - exists (pixels s0). symmetry. apply with_frame_id.
  - intros j a Hj (px & ->).
    destruct (rd_UsedLEDs j ltac:(lia)) as (led & ->). simpl.
    eexists. split; [reflexivity |].
    match goal with
    | |- ∃ _, setPixelColor ?n ?c ?a = _ =>
        destruct (setPixelColor_frame n c a) as (px' & Hpx)
    end.
    exists px'. rewrite Hpx. reflexivity.
  - change (Z.of_nat 0) with 0 in Ha. rewrite Ha. simpl.
    exists (u8 (rainbowOffset s + 1)), (nowMs s), px, px. reflexivity.
Qed.

Lemma renderAnimating_frame s :
  ∃ anim px sh pos,
    renderAnimating raw s
    = Ret (with_frame (rainbowOffset s) (lastIdleStep s) anim px sh pos s).
Proof.
  unfold renderAnimating.
  destruct (ANIM_STEP_MS <=? u32 (nowMs s - lastAnimStep s)).
  2:{ do 4 eexists. rewrite with_frame_id. reflexivity. }
  unfold for_upto.
  destruct (for_loop_inv
    (λ _ a, ∃ px pos, a = with_frame (rainbowOffset s) (lastIdleStep s)
                          (lastAnimStep s) px (shown s) pos s)
    (λ i a, led ← rd UsedLEDs i;
            let '(r, p) := random raw 0 255 (rngPos a) in
            let '(g, p) := random raw 0 255 p in
            let '(b, p) := random raw 0 255 p in
            Ret (setPixelColor led (Color r g b) (set_rngPos p a)))
    (Z.to_nat PEOPLE_NB) 0%nat s) as (a & Ha & px & pos & ->).
  - exists (pixels s), (rngPos s). symmetry. apply with_frame_id.
  - intros j a Hj (px & pos & ->).
    destruct (rd_UsedLEDs j ltac:(lia)) as (led & ->). simpl.
    eexists. split; [reflexivity |].
    match goal with
    | |- ∃ _ _, setPixelColor ?n ?c ?a = _ =>
        destruct (setPixelColor_frame n c a) as (px' & Hpx)
    end.
    do 2 eexists. rewrite Hpx. fields. reflexivity.
  - change (Z.of_nat 0) with 0 in Ha. rewrite Ha. simpl.
    exists (nowMs s), px, px, pos. reflexivity.
Qed.

End Frames.

(** [pollButton] writes the variables of the button only, and reports 0, 1
    or 2. *)
Lemma pollButton_frame level level2 s :
  ∃ btn l a e p,
    pollButton level level2 s = (btn, with_button l a e p s)
    ∧ (btn = 0 ∨ btn = 1 ∨ btn = 2).
Proof.
  destruct s. unfold pollButton. fields.
  repeat match goal with
  | |- context [if ?c then _ else _] => destruct c
  end; fields;
  do 5 eexists; (split; [reflexivity | tauto]).
Qed.

(** ** The show frame *)

Section ShowFrame.
Context `{cfg : Config}.

(** The frame buffer after the white pixels of the first [i] selected
    indices are set on a cleared strip. *)
Lemma show_loop s :
  Forall (λ led, 0 <= led < NUM_LEDS) UsedLEDs →
  length (selection (selectedCount s) (selectedIdx s))
  = Z.to_nat (selectedCount s) →
  Forall (λ idx, 0 <= idx < PEOPLE_NB)
    (selection (selectedCount s) (selectedIdx s)) →
  ∃ px,
    for_upto (selectedCount s) (λ i a,
        idx ← rd (selectedIdx a) i;
        led ← rd UsedLEDs idx;
        Ret (setPixelColor led (Color 255 255 255) a))
      (clear s)
    = Ret (with_frame (rainbowOffset s) (lastIdleStep s) (lastAnimStep s) px
             (shown s) (rngPos s) s)
    ∧ length px = length (pixels s)
    ∧ ∀ p : nat, (p < length (pixels s))%nat →
        px !! p
        = Some (if bool_decide
                     (Z.of_nat p
                      ∈ mapped (selection (selectedCount s) (selectedIdx s)))
                then white else 0).
Proof.
  intros Hvalid Hlen Hsel. unfold for_upto.
  pose proof PEOPLE_NB_range as [_ HP].
  destruct (for_loop_inv
    (λ i a, ∃ px,
       a = with_frame (rainbowOffset s) (lastIdleStep s) (lastAnimStep s) px
             (shown s) (rngPos s) s
       ∧ length px = length (pixels s)
       ∧ ∀ p : nat, (p < length (pixels s))%nat →
           px !! p
           = Some (if bool_decide
                        (Z.of_nat p ∈ mapped (take i (selectedIdx s)))
                   then white else 0))
    (λ i a, idx ← rd (selectedIdx a) i;
            led ← rd UsedLEDs idx;
            Ret (setPixelColor led (Color 255 255 255) a))
    (Z.to_nat (selectedCount s)) 0%nat (clear s))
    as (a & Ha & px & -> & Hpx & Hlit).
  - exists (replicate (length (pixels s)) 0).
    split; [destruct s; reflexivity |].
    split; [apply length_replicate |].
    intros p Hp. rewrite take_0.
    rewrite bool_decide_eq_false_2 by apply not_elem_of_nil.
    apply lookup_replicate_2. exact Hp.
  - intros j a Hj (px & -> & Hpx & Hlit). simpl in Hj.
    assert (Hj' : (j < length (selectedIdx s))%nat).
    { unfold selection in Hlen. rewrite length_take in Hlen. lia. }
    destruct (lookup_lt_is_Some_2 _ _ Hj') as [idx Hidx].
    assert (Hidx' : 0 <= idx < PEOPLE_NB).
    { apply (Forall_lookup_1 _ _ j idx) in Hsel; [exact Hsel |].
      unfold selection. rewrite lookup_take_lt by lia. exact Hidx. }
    destruct (lookup_lt_is_Some_2 UsedLEDs (Z.to_nat idx) ltac:(lia))
      as [led Hled].
    pose proof (Forall_lookup_1 _ _ _ _ Hvalid Hled) as Hledr.
    simpl in Hledr.
    replace (selectedIdx (with_frame (rainbowOffset s) (lastIdleStep s)
               (lastAnimStep s) px (shown s) (rngPos s) s))
      with (selectedIdx s) by reflexivity.
    rewrite (rd_lookup _ _ idx) by (rewrite Nat2Z.id; exact Hidx). simpl.
    rewrite (rd_lookup _ _ led) by exact Hled. simpl.
    eexists. split; [reflexivity |].
    exists (<[Z.to_nat led := white]> px).
    split.
    { unfold setPixelColor. destruct (Z.ltb_spec led NUM_LEDS); [| lia].
      destruct s. reflexivity. }
    split; [rewrite length_insert; exact Hpx |].
    intros p Hp. rewrite (take_S_r _ _ idx) by exact Hidx.
    unfold mapped. rewrite omap_app. simpl. rewrite Hled. simpl.
    destruct (decide (p = Z.to_nat led)) as [-> | Hne].
    + rewrite list_lookup_insert_eq by lia.
      rewrite bool_decide_eq_true_2; [reflexivity |].
      apply elem_of_app. right. rewrite Z2Nat.id by lia.
      apply list_elem_of_here.
    + rewrite list_lookup_insert_ne by lia. rewrite (Hlit p Hp).
      unfold mapped. erewrite bool_decide_ext; [reflexivity |].
      rewrite elem_of_app, list_elem_of_singleton. split; [tauto |].
      intros [Hin | Heq]; [exact Hin | lia].
  - change (Z.of_nat 0) with 0 in Ha. exists px.
    split; [exact Ha |]. split; [exact Hpx |].
    simpl in Hlit. exact Hlit.
Qed.

End ShowFrame.

(** C8. For a table [setup] accepts, in which no two people share a LED, and
    a selection of valid indices, the frame [renderShowSelection] sends to
    the strip has white exactly at the positions the table maps the selected
    indices to and is off everywhere else; the LED of a person is white when
    the person is selected and off otherwise. *)
Theorem show_frame `{cfg : Config} (s : St) :
  Forall (λ led, 0 <= led < NUM_LEDS) UsedLEDs →
  NoDup UsedLEDs →
  length (pixels s) = Z.to_nat NUM_LEDS →
  length (selection (selectedCount s) (selectedIdx s))
  = Z.to_nat (selectedCount s) →
  Forall (λ idx, 0 <= idx < PEOPLE_NB)
    (selection (selectedCount s) (selectedIdx s)) →
  ∃ s',
    renderShowSelection s = Ret s'
    ∧ shown s' = pixels s'
    ∧ length (shown s') = Z.to_nat NUM_LEDS
    ∧ (∀ p : nat, (p < Z.to_nat NUM_LEDS)%nat →
         shown s' !! p
         = Some (if bool_decide
                      (Z.of_nat p
                       ∈ mapped (selection (selectedCount s) (selectedIdx s)))
                 then white else 0))
    ∧ (∀ (j : nat) (led : Z), UsedLEDs !! j = Some led →
         shown s' !! Z.to_nat led
         = Some (if bool_decide
                      (Z.of_nat j
                       ∈ selection (selectedCount s) (selectedIdx s))
                 then white else 0)).
Proof.
  intros Hvalid Hinj Hstrip Hlen Hsel.
  destruct (show_loop s Hvalid Hlen Hsel) as (px & Hloop & Hpx & Hlit).
  unfold renderShowSelection. rewrite Hloop. simpl.
  eexists. split; [reflexivity |]. simpl.
  split; [reflexivity |]. split; [lia |].
  split; [intros p Hp; apply Hlit; lia |].
  intros j led Hled.
  pose proof (Forall_lookup_1 _ _ _ _ Hvalid Hled) as Hledr. simpl in Hledr.
  rewrite (Hlit (Z.to_nat led)) by lia. rewrite Z2Nat.id by lia.
  erewrite bool_decide_ext; [reflexivity |].
  unfold mapped. rewrite list_elem_of_omap. split.
  - intros (idx & Hin & Hidx).
    assert (Hidx' : 0 <= idx < PEOPLE_NB).
    { rewrite Forall_forall in Hsel. apply Hsel. exact Hin. }
    rewrite <- (NoDup_lookup _ _ _ _ Hinj Hidx Hled).
    rewrite Z2Nat.id by lia. exact Hin.
  - intros Hin. exists (Z.of_nat j). split; [exact Hin |].
    rewrite Nat2Z.id. exact Hled.
Qed.

Lemma show_frame_witness :
  ∃ s',
    renderShowSelection (H := shipped) show_example = Ret s'
    ∧ shown s' = <[4%nat := white]> (<[10%nat := white]> (replicate 30 0)).
Proof.
  destruct (show_frame (cfg := shipped) show_example) as (s' & Hret & _).
  - repeat constructor; lia.
  - apply (bool_decide_unpack _). vm_compute. exact I.
  - reflexivity.
  - reflexivity.
  - repeat constructor; vm_compute; congruence.
  - exists s'. split; [exact Hret |].
    vm_compute in Hret. inversion Hret. reflexivity.
Defined.

(** ** The button classifier *)

Lemma polls_cons ms level level2 rest s :
  polls ((ms, level, level2) :: rest) s
  = ((pollButton level level2 (set_nowMs (u32 ms) s)).1
       :: (polls rest (pollButton level level2 (set_nowMs (u32 ms) s)).2).1,
     (polls rest (pollButton level level2 (set_nowMs (u32 ms) s)).2).2).
Proof.
  simpl. destruct (pollButton level level2 (set_nowMs (u32 ms) s)) as [e s1].
  simpl. destruct (polls rest s1). reflexivity.
Qed.

Lemma polls_app l1 l2 s :
  polls (l1 ++ l2) s
  = ((polls l1 s).1 ++ (polls l2 (polls l1 s).2).1,
     (polls l2 (polls l1 s).2).2).
Proof.
  revert s. induction l1 as [| [[ms level] level2] l1 IH]; intros s.
  - simpl. destruct (polls l2 s). reflexivity.
  - rewrite <- app_comm_cons, !polls_cons, IH. reflexivity.
Qed.

Lemma events_0 l : events (0 :: l) = events l.
Proof. reflexivity. Qed.

Lemma events_1 l : events (1 :: l) = 1 :: events l.
Proof. reflexivity. Qed.

Lemma events_2 l : events (2 :: l) = 2 :: events l.
Proof. reflexivity. Qed.

Lemma events_app l1 l2 : events (l1 ++ l2) = events l1 ++ events l2.
Proof. apply filter_app. Qed.

(** The six situations of one call of [pollButton] at time [nowMs s]. *)

Lemma poll_rest_high level2 s :
  resting s → pollButton true level2 s = (0, s).
Proof.
  intros [Hl Ha]. unfold pollButton. rewrite Hl. simpl. rewrite Ha.
  reflexivity.
Qed.

Lemma poll_rest_bounce level2 s :
  resting s → ¬ DEBOUNCE_MS < u32 (nowMs s - lastButtonEdge s) →
  pollButton false level2 s = (0, s).
Proof.
  intros [Hl Ha] Hgate. unfold pollButton. rewrite Hl. simpl.
  destruct (Z.ltb_spec DEBOUNCE_MS (u32 (nowMs s - lastButtonEdge s)));
    [tauto |].
  rewrite Ha. reflexivity.
Qed.

Lemma poll_rest_press level2 s :
  resting s → DEBOUNCE_MS < u32 (nowMs s - lastButtonEdge s) →
  ∃ s', pollButton false level2 s = (0, s')
        ∧ held (nowMs s) s' ∧ longPressArmed s' = true
        ∧ nowMs s' = nowMs s.
Proof.
  intros [Hl Ha] Hgate. unfold pollButton. rewrite Hl. simpl.
  destruct (Z.ltb_spec DEBOUNCE_MS (u32 (nowMs s - lastButtonEdge s)));
    [| lia].
  simpl. rewrite u32_self. simpl.
  eexists. split; [reflexivity |]. unfold held. simpl. tauto.
Qed.

Lemma poll_held_low ta level2 s :
  held ta s →
  (pollButton false level2 s = (0, s)
   ∨ (longPressArmed s = true
      ∧ pollButton false level2 s = (2, set_longPressArmed false s))).
Proof.
  intros (Hl & He & Hp). unfold pollButton. rewrite Hl. simpl.
  destruct (longPressArmed s
            && (LONG_PRESS_MS <=? u32 (nowMs s - buttonPressMs s))
            && negb level2) eqn:Hfire.
  - right. split; [| reflexivity].
    destruct (longPressArmed s); [reflexivity | discriminate].
  - left. reflexivity.
Qed.

Lemma poll_held_bounce ta level2 s :
  held ta s → ¬ DEBOUNCE_MS < u32 (nowMs s - ta) →
  (pollButton true level2 s = (0, s)
   ∨ (longPressArmed s = true
      ∧ pollButton true level2 s = (2, set_longPressArmed false s))).
Proof.
  intros (Hl & He & Hp) Hgate. unfold pollButton. rewrite Hl, He. simpl.
  destruct (Z.ltb_spec DEBOUNCE_MS (u32 (nowMs s - ta))); [tauto |].
  destruct (longPressArmed s
            && (LONG_PRESS_MS <=? u32 (nowMs s - buttonPressMs s))
            && negb level2) eqn:Hfire.
  - right. split; [| reflexivity].
    destruct (longPressArmed s); [reflexivity | discriminate].
  - left. reflexivity.
Qed.

Lemma poll_held_release ta level2 s :
  held ta s → DEBOUNCE_MS < u32 (nowMs s - ta) →
  ∃ e s', pollButton true level2 s = (e, s') ∧ resting s'
    ∧ (longPressArmed s = false → e = 0)
    ∧ (longPressArmed s = true →
       e = if LONG_PRESS_MS <=? u32 (nowMs s - ta) then 2 else 1).
Proof.
  intros (Hl & He & Hp) Hgate. unfold pollButton. rewrite Hl, He. simpl.
  destruct (Z.ltb_spec DEBOUNCE_MS (u32 (nowMs s - ta))); [| lia].
  destruct (longPressArmed s) eqn:Ha; simpl.
  - rewrite (Hp eq_refl). do 2 eexists. split; [reflexivity |].
    unfold resting. simpl. split; [tauto |]. split; [discriminate |].
    reflexivity.
  - rewrite Ha. simpl. do 2 eexists. split; [reflexivity |].
    unfold resting. simpl. split; [tauto |]. split; [reflexivity |].
    discriminate.
Qed.

Lemma resting_nowMs t s : resting s → resting (set_nowMs t s).
Proof. exact id. Qed.

Lemma held_nowMs ta t s : held ta s → held ta (set_nowMs t s).
Proof. exact id. Qed.

Lemma held_disarm ta s : held ta s → held ta (set_longPressArmed false s).
Proof.
  intros (Hl & He & _). unfold held. simpl. split; [exact Hl |].
  split; [exact He | discriminate].
Qed.

(** Released samples at rest produce nothing. *)
Lemma polls_rest ups s :
  resting s → Forall (λ x, x.1.2 = true) ups →
  events (polls ups s).1 = [] ∧ resting (polls ups s).2.
Proof.
  revert s. induction ups as [| [[ms level] level2] ups IH]; intros s Hr Hup.
  - split; [reflexivity | exact Hr].
  - apply Forall_cons in Hup as [Hlevel Hup]. simpl in Hlevel. subst level.
    rewrite polls_cons.
    rewrite (poll_rest_high level2 _ (resting_nowMs (u32 ms) s Hr)). simpl.
    rewrite events_0. apply IH; [apply resting_nowMs; exact Hr | exact Hup].
Qed.

(** Pressed samples during an accepted press: a pending press stays pending
    or turns into one long press. *)
Lemma polls_held ta downs s :
  held ta s → Forall (λ x, x.1.2 = false) downs →
  held ta (polls downs s).2
  ∧ (longPressArmed s = false →
     longPressArmed (polls downs s).2 = false
     ∧ events (polls downs s).1 = [])
  ∧ (longPressArmed s = true →
     (longPressArmed (polls downs s).2 = true
      ∧ events (polls downs s).1 = [])
     ∨ (longPressArmed (polls downs s).2 = false
        ∧ events (polls downs s).1 = [2])).
Proof.
  revert s.
  induction downs as [| [[ms level] level2] downs IH]; intros s Hh Hdown.
  - simpl. split; [exact Hh |]. split; [tauto |]. left. tauto.
  - apply Forall_cons in Hdown as [Hlevel Hdown]. simpl in Hlevel.
    subst level. rewrite polls_cons.
    destruct (poll_held_low ta level2 _ (held_nowMs ta (u32 ms) s Hh))
      as [-> | [Ha ->]]; simpl.
    + rewrite events_0. apply (IH (set_nowMs (u32 ms) s)); assumption.
    + rewrite events_2.
      destruct (IH (set_longPressArmed false (set_nowMs (u32 ms) s)))
        as (Hh' & Hoff & _); [apply held_disarm; exact Hh | exact Hdown |].
      destruct (Hoff eq_refl) as [Ha' Hev]. rewrite Hev.
      split; [exact Hh' |]. simpl in Ha. split; [congruence |].
      intros _. right. split; [exact Ha' | reflexivity].
Qed.

(** Pressed samples at rest, one of which passes the debounce gate. *)
Lemma polls_press ta downs s :
  resting s → Forall (λ x, x.1.2 = false) downs →
  first_accept (lastButtonEdge s) downs = Some ta →
  held ta (polls downs s).2
  ∧ ((longPressArmed (polls downs s).2 = true
      ∧ events (polls downs s).1 = [])
     ∨ (longPressArmed (polls downs s).2 = false
        ∧ events (polls downs s).1 = [2])).
Proof.
  revert s.
  induction downs as [| [[ms level] level2] downs IH]; intros s Hr Hdown Hacc.
  - discriminate.
  - apply Forall_cons in Hdown as [Hlevel Hdown]. simpl in Hlevel.
    subst level. rewrite polls_cons. simpl in Hacc.
    destruct (Z.ltb_spec DEBOUNCE_MS (u32 (u32 ms - lastButtonEdge s)))
      as [Hgate | Hgate].
    + inversion Hacc; subst ta.
      destruct (poll_rest_press level2 (set_nowMs (u32 ms) s)
                  (resting_nowMs _ _ Hr) Hgate)
        as (s' & -> & Hh & Ha & _). simpl.
      rewrite events_0.
      destruct (polls_held (u32 ms) downs s' Hh Hdown) as (Hh' & _ & Hon).
      split; [exact Hh' |]. apply Hon. exact Ha.
    + rewrite (poll_rest_bounce level2 (set_nowMs (u32 ms) s)
                 (resting_nowMs _ _ Hr)) by (simpl; lia).
      simpl. rewrite events_0.
      apply (IH (set_nowMs (u32 ms) s)); assumption.
Qed.

(** Released samples during an accepted press, one of which passes the
    debounce gate: a pending press is reported once, a reported one is
    not reported again. *)
Lemma polls_release ta tr ups s :
  held ta s → Forall (λ x, x.1.2 = true) ups →
  first_accept ta ups = Some tr →
  resting (polls ups s).2
  ∧ (longPressArmed s = false → events (polls ups s).1 = [])
  ∧ (longPressArmed s = true →
     ∃ e, events (polls ups s).1 = [e] ∧ (e = 1 ∨ e = 2)
          ∧ (LONG_PRESS_MS <= u32 (tr - ta) → e = 2)).
Proof.
  revert s.
  induction ups as [| [[ms level] level2] ups IH]; intros s Hh Hup Hacc.
  - discriminate.
  - apply Forall_cons in Hup as [Hlevel Hup]. simpl in Hlevel.
    subst level. rewrite polls_cons. simpl in Hacc.
    destruct (Z.ltb_spec DEBOUNCE_MS (u32 (u32 ms - ta))) as [Hgate | Hgate].
    + inversion Hacc; subst tr.
      destruct (poll_held_release ta level2 (set_nowMs (u32 ms) s)
                  (held_nowMs _ _ _ Hh) Hgate)
        as (e & s' & -> & Hr & Hoff & Hon). simpl in *.
      destruct (polls_rest ups s' Hr Hup) as [Hev Hr'].
      split; [exact Hr' |]. split.
      * intros Ha. rewrite (Hoff Ha), events_0. exact Hev.
      * intros Ha. rewrite (Hon Ha).
        destruct (Z.leb_spec LONG_PRESS_MS (u32 (u32 ms - ta))).
        -- exists 2. rewrite events_2, Hev. tauto.
        -- exists 1. rewrite events_1, Hev.
           split; [reflexivity |]. split; [tauto | lia].
    + destruct (poll_held_bounce ta level2 (set_nowMs (u32 ms) s)
                  (held_nowMs _ _ _ Hh)) as [-> | [Ha ->]];
        [simpl; lia | |]; simpl.
      * rewrite events_0. apply (IH (set_nowMs (u32 ms) s)); assumption.
      * rewrite events_2.
        destruct (IH (set_longPressArmed false (set_nowMs (u32 ms) s)))
          as (Hr' & Hoff & _);
          [apply held_disarm; exact Hh | exact Hup | exact Hacc |].
        rewrite (Hoff eq_refl). split; [exact Hr' |].
        simpl in Ha. split; [congruence |].
        intros _. exists 2. tauto.
Qed.

(** C4. From rest, over the samples of one press-and-release cycle whose
    press and whose release each pass the debounce gate at some sample, the
    classifier emits exactly one event, whatever the second read of each pass
    sees; when the accepted release comes [LONG_PRESS_MS] or more after the
    accepted press, that event is a long press, so a long press reported
    while the button is held is not followed by an event on release. *)
Theorem one_event_per_press (s : St) (downs ups : list (Z * bool * bool))
    (ta tr : Z) :
  lastButtonLevel s = true → longPressArmed s = false →
  Forall (λ x, x.1.2 = false) downs →
  Forall (λ x, x.1.2 = true) ups →
  first_accept (lastButtonEdge s) downs = Some ta →
  first_accept ta ups = Some tr →
  ∃ e, events (polls (downs ++ ups) s).1 = [e]
       ∧ (e = 1 ∨ e = 2)
       ∧ (LONG_PRESS_MS <= u32 (tr - ta) → e = 2)
       ∧ lastButtonLevel (polls (downs ++ ups) s).2 = true
       ∧ longPressArmed (polls (downs ++ ups) s).2 = false.
Proof.
  intros Hl Ha Hdown Hup Hpress Hrelease.
  rewrite polls_app. simpl. rewrite events_app.
  destruct (polls_press ta downs s (conj Hl Ha) Hdown Hpress)
    as (Hh & [[Harm Hev] | [Harm Hev]]);
    destruct (polls_release ta tr ups _ Hh Hup Hrelease)
      as ([Hl' Ha'] & Hoff & Hon); rewrite Hev.
  - destruct (Hon Harm) as (e & Hev' & He & Hlong). exists e.
    rewrite Hev'. tauto.
  - exists 2. rewrite (Hoff Harm). tauto.
Qed.

Lemma one_event_per_press_witness :
  events (polls ([(100, false, false); (500, false, false);
                  (950, false, false)] ++ [(1000, true, true)])
            (@initial shipped)).1 = [2].
Proof.
  destruct (one_event_per_press (@initial shipped)
              [(100, false, false); (500, false, false); (950, false, false)]
              [(1000, true, true)] 100 1000)
    as (e & Hev & _ & Hlong & _).
  - reflexivity.
  - reflexivity.
  - repeat constructor.
  - repeat constructor.
  - reflexivity.
  - reflexivity.
  - rewrite Hev, Hlong; [reflexivity |]. vm_compute. discriminate.
Defined.

(** ** The mode controller *)

Section Controller.
Context `{cfg : Config} (raw : nat → Z) (fuel : nat).

Lemma enterState_IDLE s :
  enterState IDLE s = Ret (set_stateEnterMs (nowMs s) (set_state IDLE s)).
Proof. reflexivity. Qed.

Lemma enterState_COUNTING s :
  enterState COUNTING s
  = Ret (set_countWindowEnds (u32 (nowMs s + COUNT_WINDOW_MS))
           (set_stateEnterMs (nowMs s) (set_state COUNTING s))).
Proof. reflexivity. Qed.

Lemma enterState_ANIMATING s :
  enterState ANIMATING s
  = Ret (set_lastAnimStep 0
           (set_stateEnterMs (nowMs s) (set_state ANIMATING s))).
Proof. reflexivity. Qed.

(** What a loop that returns has kept. *)
Lemma for_loop_Ret {A : Type} (I : A → Prop) (body : Z → A → outcome A)
    (n : nat) :
  (∀ j a a', I a → body j a = Ret a' → I a') →
  ∀ i a a', I a → for_loop n i body a = Ret a' → I a'.
Proof.
  intros Hbody. induction n as [| n IH]; intros i a a' Ha Hret; simpl in Hret.
  - inversion Hret; subst. exact Ha.
  - destruct (body i a) as [a1 | | |] eqn:Hb; try discriminate.
    simpl in Hret. eapply IH; [| exact Hret]. eapply Hbody; eauto.
Qed.

Lemma renderShowSelection_Ret s s' :
  renderShowSelection s = Ret s' →
  ∃ px, s' = with_frame (rainbowOffset s) (lastIdleStep s) (lastAnimStep s)
               px px (rngPos s) s.
Proof.
  unfold renderShowSelection, for_upto. intros Hret.
  destruct (for_loop _ _ _ _) as [a | | |] eqn:Hloop; try discriminate.
  simpl in Hret. inversion Hret; subst s'. clear Hret.
  apply (for_loop_Ret
    (λ a, ∃ px, a = with_frame (rainbowOffset s) (lastIdleStep s)
                      (lastAnimStep s) px (shown s) (rngPos s) s))
    in Hloop.
  - destruct Hloop as (px & ->). exists px. reflexivity.
  - intros j a0 a' (px & ->) Hbody.
    destruct (rd _ j) as [idx | | |]; try discriminate. simpl in Hbody.
    destruct (rd UsedLEDs idx) as [led | | |]; try discriminate.
    simpl in Hbody. inversion Hbody; subst a'.
    match goal with
    | |- ∃ _, setPixelColor ?n ?c ?a = _ =>
        destruct (setPixelColor_frame n c a) as (px' & Hpx)
    end.
    exists px'. rewrite Hpx. reflexivity.
  - exists (replicate (length (pixels s)) 0). destruct s. reflexivity.
Qed.

Lemma enterState_SHOW_Ret s s' :
  enterState SHOW s = Ret s' →
  ∃ px, s' = with_frame (rainbowOffset s) (lastIdleStep s) (lastAnimStep s)
               px px (rngPos s)
               (set_stateEnterMs (nowMs s) (set_state SHOW s)).
Proof.
  unfold enterState. intros Hret. apply renderShowSelection_Ret in Hret.
  exact Hret.
Qed.

(** A long press in any mode but Idle. *)
Lemma dispatch_long_press s :
  state s ≠ IDLE →
  ∃ s', dispatch raw fuel 2 s = Ret s'
        ∧ state s' = IDLE
        ∧ stateEnterMs s' = nowMs s
        ∧ (state s = COUNTING → requestedCount s' = 0)
        ∧ selectedCount s' = selectedCount s
        ∧ selectedIdx s' = selectedIdx s.
Proof.
  intros Hmode. unfold dispatch. destruct (state s) eqn:Hst; [tauto | | |].
  - destruct (renderIdle_frame s) as (offset & idle & px & sh & ->). simpl.
    eexists. split; [reflexivity |]. simpl. tauto.
  - destruct (renderAnimating_frame raw s) as (anim & px & sh & pos & ->).
    simpl. eexists. split; [reflexivity |]. simpl.
    repeat split; try reflexivity. discriminate.
  - simpl. eexists. split; [reflexivity |]. simpl.
    repeat split; try reflexivity. discriminate.
Qed.

End Controller.

(** C1, as amended. In Counting, Animating or Show, the pass of [loop] in
    which [pollButton] reports a long press ends in Idle, entered at the time
    of that pass; from Counting the requested count is back to 0; the stored
    selection is not cleared, [selectedCount] and [selectedIdx] keep their
    values. *)
Theorem long_press_returns_to_idle `{cfg : Config} (raw : nat → Z)
    (fuel : nat) (ms : Z) (level level2 : bool) (s : St) :
  state s = COUNTING ∨ state s = ANIMATING ∨ state s = SHOW →
  (pollButton level level2 (set_nowMs (u32 ms) s)).1 = 2 →
  ∃ s', loop raw fuel ms level level2 s = Ret s'
        ∧ state s' = IDLE
        ∧ stateEnterMs s' = u32 ms
        ∧ (state s = COUNTING → requestedCount s' = 0)
        ∧ selectedCount s' = selectedCount s
        ∧ selectedIdx s' = selectedIdx s.
Proof.
  intros Hmode Hlong. unfold loop.
  destruct (pollButton_frame level level2 (set_nowMs (u32 ms) s))
    as (btn & l & a & e & p & Hpoll & _).
  rewrite Hpoll in *. simpl in Hlong. subst btn.
  destruct (dispatch_long_press raw fuel
              (with_button l a e p (set_nowMs (u32 ms) s)))
    as (s' & Hret & Hidle & Henter & Hcount & Hsc & Hsi).
  - simpl. destruct Hmode as [-> | [-> | ->]]; discriminate.
  - exists s'. split; [exact Hret |]. simpl in *. tauto.
Qed.

(** ** Runs *)

Section Runs.
Context `{cfg : Config} (raw : nat → Z) (fuel : nat).

Lemma run_cons ms level rest s evts s' :
  run raw fuel ((ms, level) :: rest) s = Ret (evts, s') →
  ∃ btn s1 s2 evts',
    pollButton level level (set_nowMs (u32 ms) s) = (btn, s1)
    ∧ dispatch raw fuel btn s1 = Ret s2
    ∧ run raw fuel rest s2 = Ret (evts', s')
    ∧ evts = btn :: evts'.
Proof.
  simpl. destruct (pollButton level level (set_nowMs (u32 ms) s)) as [btn s1].
  destruct (dispatch raw fuel btn s1) as [s2 | | |] eqn:Hd; try discriminate.
  simpl.
  destruct (run raw fuel rest s2) as [[evts' s3] | | |] eqn:Hrun;
    try discriminate.
  simpl. intros Hret. inversion Hret; subst.
  exists btn, s1, s2, evts'. repeat split; [exact Hd | exact Hrun].
Qed.

Lemma run_reachable inputs s evts s' :
  reachable raw s → run raw fuel inputs s = Ret (evts, s') →
  reachable raw s'.
Proof.
  revert s evts. induction inputs as [| [ms level] rest IH];
    intros s evts Hs Hrun.
  - inversion Hrun; subst. exact Hs.
  - apply run_cons in Hrun as (btn & s1 & s2 & evts' & Hp & Hd & Hrun & _).
    apply (IH s2 evts'); [| exact Hrun].
    apply (reach_loop raw s s2 fuel ms level level Hs).
    unfold loop. rewrite Hp. exact Hd.
Qed.

Lemma run_passes inputs s evts s' :
  run raw fuel inputs s = Ret (evts, s') →
  passes raw fuel (zip inputs.*1 evts) s s'.
Proof.
  revert s evts. induction inputs as [| [ms level] rest IH];
    intros s evts Hrun.
  - inversion Hrun; subst. apply passes_nil.
  - apply run_cons in Hrun as (btn & s1 & s2 & evts' & Hp & Hd & Hrun & ->).
    simpl. eapply passes_cons; eauto.
Qed.

Lemma passes_app tr1 tr2 s s' :
  passes raw fuel (tr1 ++ tr2) s s' →
  ∃ sm, passes raw fuel tr1 s sm ∧ passes raw fuel tr2 sm s'.
Proof.
  revert s. induction tr1 as [| [ms btn] tr1 IH]; intros s Hp.
  - exists s. split; [apply passes_nil | exact Hp].
  - rewrite <- app_comm_cons in Hp.
    inversion Hp as [| ms' btn' level level2 s0 s1 s2 s3 tr Hpoll Hd Hrest];
      subst.
    destruct (IH s2 Hrest) as (sm & H1 & H2).
    exists sm. split; [| exact H2]. eapply passes_cons; eauto.
Qed.

End Runs.

Lemma show_run_reachable evts s :
  show_run = Ret (evts, s) → reachable (H := shipped) counter s.
Proof.
  unfold show_run. destruct (@setup shipped) as [s0 | | |] eqn:Hsetup;
    try discriminate.
  intros Hrun.
  apply (run_reachable (cfg := shipped) counter 40 show_trace s0 evts s);
    [apply reach_setup; exact Hsetup | exact Hrun].
Qed.

Lemma long_press_returns_to_idle_witness :
  ∃ evts s s',
    show_run = Ret (evts, s)
    ∧ state s = SHOW
    ∧ (pollButton false false (set_nowMs (u32 3800) s)).1 = 2
    ∧ loop (H := shipped) counter 0 3800 false false s = Ret s'
    ∧ state s' = IDLE.
Proof.
  assert (Hrun : ∃ evts s,
            show_run = Ret (evts, s) ∧ state s = SHOW
            ∧ (pollButton false false (set_nowMs (u32 3800) s)).1 = 2).
  { do 2 eexists. split; [vm_compute; reflexivity |].
    split; vm_compute; reflexivity. }
  destruct Hrun as (evts & s & Hrun & Hst & Hlong).
  destruct (long_press_returns_to_idle (cfg := shipped) counter 0%nat 3800
              false false s) as (s' & Hret & Hidle & _);
    [right; right; exact Hst | exact Hlong |].
  exists evts, s, s'. tauto.
Defined.

(** C1, as stated, fails: a long press in a reachable Show state leads to
    Idle with the requested count still 1 and the selection still stored. *)
Lemma long_press_in_show_keeps_count :
  ∃ evts s s',
    show_run = Ret (evts, s)
    ∧ reachable (H := shipped) counter s
    ∧ state s = SHOW
    ∧ (pollButton false false (set_nowMs (u32 3800) s)).1 = 2
    ∧ loop (H := shipped) counter 0 3800 false false s = Ret s'
    ∧ state s' = IDLE
    ∧ requestedCount s' = 1
    ∧ selectedCount s' = 1
    ∧ selection (selectedCount s') (selectedIdx s') = [0].
Proof.
  do 3 eexists. split; [vm_compute; reflexivity |].
  split; [apply (show_run_reachable [0; 1; 0; 0; 0]); vm_compute; reflexivity |].
  split; [reflexivity |]. split; [vm_compute; reflexivity |].
  split; [vm_compute; reflexivity |].
  repeat split; vm_compute; reflexivity.
Qed.

(** ** The clamp of the request *)

Section Clamp.
Context `{cfg : Config} (raw : nat → Z).


Lemma selectCount_bound r :
  selectCount r <= PEOPLE_NB ∧ selectCount r <= MAX_SEL
  ∧ selectCount r <= Z.max r 0.
Proof.
  unfold selectCount.
  destruct (Z.ltb_spec PEOPLE_NB r);
    match goal with |- context [MAX_SEL <? ?x] =>
      destruct (Z.ltb_spec MAX_SEL x) end; lia.
Qed.


(** The selection the controller draws is made of valid, distinct indices,
    as many as [selectCount] says. *)
Lemma select_drawn fuel r out pos out' pos' :
  select raw fuel r out pos = Ret (out', pos') →
  drawn (selectCount r) out' ∧ length out' = length out.
Proof.
  unfold select, pickUniqueRandom. intros Hret.
  pose proof (selectCount_bound r) as (HkP & _ & _).
  destruct (Z_lt_le_dec 0 (selectCount r)) as [Hpos | Hneg].
  - apply pickLoop_drawn in Hret; try lia; [exact Hret | apply drawn_0].
  - destruct fuel; simpl in Hret;
      (destruct (Z.ltb_spec 0 (selectCount r)); [lia |]);
      inversion Hret; subst; (split; [| reflexivity]);
      unfold drawn, selection;
      replace (Z.to_nat (selectCount r)) with 0%nat by lia;
      rewrite take_0;
      (split; [reflexivity |]); (split; [apply NoDup_nil_2 | apply Forall_nil_2]).
Qed.

Lemma select_in_bounds fuel r out pos :
  (Z.to_nat MAX_SEL <= length out)%nat →
  select raw fuel r out pos ≠ OutOfBounds
  ∧ select raw fuel r out pos ≠ Halted.
Proof.
  intros Hlen. unfold select, pickUniqueRandom.
  pose proof (selectCount_bound r) as (_ & Hk & _).
  apply pickLoop_in_bounds; lia.
Qed.


End Clamp.




(** ** Counting *)

Section CountFields.
Context `{cfg : Config}.

Lemma countShortPress_frame o i a px sh pos btn s :
  countShortPress btn (with_frame o i a px sh pos s)
  = with_frame o i a px sh pos (countShortPress btn s).
Proof.
  unfold countShortPress. simpl. destruct (btn =? 1); [| reflexivity].
  destruct (requestedCount s <? MAX_REQUEST); reflexivity.
Qed.

Lemma countShortPress_button l a e p btn s :
  countShortPress btn (with_button l a e p s)
  = with_button l a e p (countShortPress btn s).
Proof.
  unfold countShortPress. simpl. destruct (btn =? 1); [| reflexivity].
  destruct (requestedCount s <? MAX_REQUEST); reflexivity.
Qed.

(** What a pass in Counting does to the count and to the window. *)
Lemma countShortPress_fields btn s :
  state (countShortPress btn s) = state s
  ∧ nowMs (countShortPress btn s) = nowMs s
  ∧ selectedIdx (countShortPress btn s) = selectedIdx s
  ∧ selectedCount (countShortPress btn s) = selectedCount s
  ∧ requestedCount (countShortPress btn s)
    = (if btn =? 1
       then if requestedCount s <? PEOPLE_NB
            then u8 (requestedCount s + 1) else requestedCount s
       else requestedCount s)
  ∧ countWindowEnds (countShortPress btn s)
    = (if btn =? 1 then u32 (nowMs s + COUNT_WINDOW_MS)
       else countWindowEnds s).
Proof.
  unfold countShortPress, MAX_REQUEST. destruct (btn =? 1); [| tauto].
  destruct (requestedCount s <? PEOPLE_NB); simpl; tauto.
Qed.

Lemma countShortPress_nonzero btn s :
  1 <= requestedCount s <= PEOPLE_NB →
  requestedCount (countShortPress btn s) ≠ 0.
Proof.
  intros Hcount. pose proof PEOPLE_NB_range as [HPr _].
  pose proof (countShortPress_fields btn s) as (_ & _ & _ & _ & -> & _).
  destruct (btn =? 1); [| lia].
  destruct (Z.ltb_spec (requestedCount s) PEOPLE_NB); [| lia].
  rewrite u8_small by lia. lia.
Qed.

Lemma clamp_frame o i a px sh pos s :
  clampPeople (clampZero (with_frame o i a px sh pos s))
  = with_frame o i a px sh pos (clampPeople (clampZero s)).
Proof.
  unfold clampPeople, clampZero. simpl.
  destruct (requestedCount s =? 0); simpl;
    match goal with |- context [PEOPLE_NB <? ?x] =>
      destruct (PEOPLE_NB <? x) end; reflexivity.
Qed.

Lemma clamp_fields s :
  state (clampPeople (clampZero s)) = state s
  ∧ nowMs (clampPeople (clampZero s)) = nowMs s
  ∧ selectedIdx (clampPeople (clampZero s)) = selectedIdx s
  ∧ selectedCount (clampPeople (clampZero s)) = selectedCount s.
Proof.
  unfold clampPeople, clampZero.
  destruct (requestedCount s =? 0); simpl;
    match goal with |- context [PEOPLE_NB <? ?x] =>
      destruct (PEOPLE_NB <? x) end; simpl; tauto.
Qed.

End CountFields.

Section Counting.
Context `{cfg : Config} (raw : nat → Z) (fuel : nat).

Lemma dispatch_IDLE btn s :
  state s = IDLE →
  ∃ s', dispatch raw fuel btn s = Ret s'
        ∧ selectedIdx s' = selectedIdx s
        ∧ selectedCount s' = selectedCount s
        ∧ (btn = 1 →
           state s' = COUNTING ∧ requestedCount s' = 1
           ∧ countWindowEnds s' = u32 (nowMs s + COUNT_WINDOW_MS))
        ∧ (btn ≠ 1 → state s' = IDLE).
Proof.
  intros Hst. unfold dispatch. rewrite Hst.
  destruct (renderIdle_frame s) as (offset & idle & px & sh & ->). simpl.
  destruct (Z.eqb_spec btn 2) as [-> | Hne2].
  - eexists. split; [reflexivity |]. simpl.
    repeat split; try reflexivity; try discriminate. intros _. exact Hst.
  - destruct (Z.eqb_spec btn 1) as [-> | Hne1].
    + eexists. split; [reflexivity |]. simpl. tauto.
    + eexists. split; [reflexivity |]. simpl. tauto.
Qed.

Lemma dispatch_COUNTING btn s :
  state s = COUNTING → btn ≠ 2 →
  ∃ s', dispatch raw fuel btn s = Ret s'
        ∧ selectedIdx s' = selectedIdx s
        ∧ selectedCount s' = selectedCount s
        ∧ (0 <= i32 (nowMs s - countWindowEnds (countShortPress btn s)) →
           state s' = ANIMATING
           ∧ requestedCount s'
             = requestedCount (clampPeople (clampZero (countShortPress btn s))))
        ∧ (i32 (nowMs s - countWindowEnds (countShortPress btn s)) < 0 →
           state s' = COUNTING
           ∧ requestedCount s' = requestedCount (countShortPress btn s)
           ∧ countWindowEnds s' = countWindowEnds (countShortPress btn s)).
Proof.
  intros Hst Hne. unfold dispatch. rewrite Hst.
  destruct (renderIdle_frame s) as (offset & idle & px & sh & ->). simpl.
  destruct (Z.eqb_spec btn 2); [tauto |].
  rewrite countShortPress_frame, clamp_frame. simpl.
  pose proof (countShortPress_fields btn s) as (Hs & Hn & Hi & Hc & _ & _).
  pose proof (clamp_fields (countShortPress btn s)) as (_ & _ & Hi' & Hc').
  rewrite Hn.
  destruct (Z.leb_spec 0
              (i32 (nowMs s - countWindowEnds (countShortPress btn s)))).
  - eexists. split; [reflexivity |]. simpl.
    rewrite Hi', Hc', Hi, Hc. split; [reflexivity |]. split; [reflexivity |].
    split; [intros _; split; reflexivity | lia].
  - eexists. split; [reflexivity |]. simpl.
    split; [exact Hi |]. split; [exact Hc |]. split; [lia |].
    intros _. rewrite Hs. tauto.
Qed.

Lemma dispatch_SHOW btn s :
  state s = SHOW →
  ∃ s', dispatch raw fuel btn s = Ret s'
        ∧ (state s' = IDLE ∨ state s' = SHOW)
        ∧ selectedIdx s' = selectedIdx s
        ∧ selectedCount s' = selectedCount s.
Proof.
  intros Hst. unfold dispatch. rewrite Hst.
  destruct (btn =? 2); [| destruct (HOLD_MS <=? _)];
    eexists; (split; [reflexivity |]); simpl; tauto.
Qed.

(** A pass in Animating that returns ends in Idle, in Animating, or in Show
    with the selection the controller has drawn. *)
Lemma dispatch_ANIMATING btn s s' :
  state s = ANIMATING → dispatch raw fuel btn s = Ret s' →
  (state s' ≠ SHOW ∧ state s' ≠ COUNTING
   ∧ selectedIdx s' = selectedIdx s ∧ selectedCount s' = selectedCount s)
  ∨ (state s' = SHOW
     ∧ selectedCount s' = selectCount (requestedCount s)
     ∧ ∃ pos pos',
         select raw fuel (requestedCount s) (selectedIdx s) pos
         = Ret (selectedIdx s', pos')).
Proof.
  intros Hst. unfold dispatch. rewrite Hst.
  destruct (renderAnimating_frame raw s) as (anim & px & sh & pos & ->).
  simpl. destruct (btn =? 2).
  { intros Hret. inversion Hret; subst. left. simpl.
    repeat split; try reflexivity; discriminate. }
  destruct (ANIM_MS <=? u32 (nowMs s - stateEnterMs s)).
  2:{ intros Hret. inversion Hret; subst. left. simpl. rewrite Hst.
      repeat split; try reflexivity; discriminate. }
  destruct (select raw fuel (requestedCount s) (selectedIdx s) pos)
    as [[out pos'] | | |] eqn:Hsel; try discriminate.
  simpl. intros Hret. apply renderShowSelection_Ret in Hret as (px' & ->).
  right. simpl. split; [reflexivity |]. split; [reflexivity |].
  exists pos, pos'. exact Hsel.
Qed.

(** The invariant holds after [setup] and is kept by every pass. *)
Lemma setup_Ret s :
  setup = Ret s → state s = IDLE ∧ counting_inv s.
Proof.
  unfold setup, for_upto. intros Hret.
  destruct (for_loop _ _ _ _) as [a | | |] eqn:Hloop; try discriminate.
  apply (for_loop_Ret (λ a, a = show (clear initial))) in Hloop;
    [| | reflexivity].
  - subst a. simpl in Hret. inversion Hret; subst.
    unfold counting_inv. simpl. split; [reflexivity |].
    split; [discriminate | reflexivity].
  - intros j a0 a' -> Hbody.
    destruct (rd UsedLEDs j) as [led | | |]; try discriminate.
    simpl in Hbody. destruct (NUM_LEDS <=? led); [discriminate |].
    inversion Hbody. reflexivity.
Qed.

Lemma dispatch_inv btn s s' :
  1 <= PEOPLE_NB → counting_inv s →
  dispatch raw fuel btn s = Ret s' → counting_inv s'.
Proof.
  intros HP [Hcount Hlen] Hret. pose proof PEOPLE_NB_range as [HPr _].
  unfold counting_inv. destruct (state s) eqn:Hst.
  - destruct (dispatch_IDLE btn s Hst) as (s1 & Hd & Hi & _ & H1 & Hn1).
    rewrite Hd in Hret. inversion Hret; subst s1. rewrite Hi.
    split; [| exact Hlen]. intros Hc.
    destruct (Z.eq_dec btn 1) as [-> | Hne].
    + destruct (H1 eq_refl) as (_ & -> & _). lia.
    + rewrite (Hn1 Hne) in Hc. discriminate.
  - destruct (Z.eq_dec btn 2) as [-> | Hne].
    + destruct (dispatch_long_press raw fuel s) as (s1 & Hd & Hidle & _ & _
        & _ & Hi); [rewrite Hst; discriminate |].
      rewrite Hd in Hret. inversion Hret; subst s1. rewrite Hi.
      split; [| exact Hlen]. rewrite Hidle. discriminate.
    + destruct (dispatch_COUNTING btn s Hst Hne)
        as (s1 & Hd & Hi & _ & Hexp & Hopen).
      rewrite Hd in Hret. inversion Hret; subst s1. rewrite Hi.
      split; [| exact Hlen]. intros Hc.
      destruct (Z_lt_le_dec
                  (i32 (nowMs s - countWindowEnds (countShortPress btn s))) 0)
        as [Hlt | Hge].
      * destruct (Hopen Hlt) as (_ & -> & _).
        pose proof (countShortPress_fields btn s) as (_ & _ & _ & _ & -> & _).
        specialize (Hcount eq_refl).
        destruct (btn =? 1); [| exact Hcount].
        destruct (Z.ltb_spec (requestedCount s) PEOPLE_NB); [| exact Hcount].
        rewrite u8_small by lia. lia.
      * destruct (Hexp Hge) as (Hanim & _). rewrite Hanim in Hc.
        discriminate.
  - destruct (dispatch_ANIMATING btn s s' Hst Hret)
      as [(_ & Hnc & Hi & _) | (Hshow & _ & pos & pos' & Hsel)].
    + rewrite Hi. split; [tauto | exact Hlen].
    + apply select_drawn in Hsel as [_ Hl]. rewrite Hl.
      split; [| exact Hlen]. rewrite Hshow. discriminate.
  - destruct (dispatch_SHOW btn s Hst) as (s1 & Hd & Hmode & Hi & _).
    rewrite Hd in Hret. inversion Hret; subst s1. rewrite Hi.
    split; [| exact Hlen]. destruct Hmode as [-> | ->]; discriminate.
Qed.

Lemma loop_inv ms level level2 s s' :
  1 <= PEOPLE_NB → counting_inv s →
  loop raw fuel ms level level2 s = Ret s' → counting_inv s'.
Proof.
  intros HP Hinv. unfold loop.
  destruct (pollButton_frame level level2 (set_nowMs (u32 ms) s))
    as (btn & l & a & e & p & -> & _).
  apply dispatch_inv; [exact HP | exact Hinv].
Qed.

End Counting.

Lemma reachable_inv `{cfg : Config} (raw : nat → Z) (s : St) :
  1 <= PEOPLE_NB → reachable raw s → counting_inv s.
Proof.
  intros HP Hreach.
  induction Hreach as [s Hsetup | s s' fuel ms level level2 _ IH Hloop].
  - apply setup_Ret. exact Hsetup.
  - eapply loop_inv; eauto.
Qed.

(** C9. In every reachable state that is in Counting the requested count is
    within 1..PEOPLE_NB, and in the pass that follows the test
    [requestedCount == 0] of the window expiry is false: the clamp to 1
    leaves the state as it is. *)
Theorem counting_count_in_range `{cfg : Config} (raw : nat → Z) (s : St) :
  1 <= PEOPLE_NB → reachable raw s → state s = COUNTING →
  1 <= requestedCount s <= PEOPLE_NB
  ∧ ∀ ms level level2 btn s1 s2,
      pollButton level level2 (set_nowMs (u32 ms) s) = (btn, s1) →
      renderIdle s1 = Ret s2 →
      requestedCount (countShortPress btn s2) ≠ 0
      ∧ clampZero (countShortPress btn s2) = countShortPress btn s2.
Proof.
  intros HP Hreach Hst. pose proof PEOPLE_NB_range as [HPr _].
  destruct (reachable_inv raw s HP Hreach) as [Hcount _].
  specialize (Hcount Hst). split; [exact Hcount |].
  intros ms level level2 btn s1 s2 Hpoll Hidle.
  assert (Hrc : requestedCount s2 = requestedCount s).
  { destruct (pollButton_frame level level2 (set_nowMs (u32 ms) s))
      as (btn' & l & a & e & p & Hpoll' & _).
    rewrite Hpoll' in Hpoll. inversion Hpoll; subst btn' s1.
    destruct (renderIdle_frame (with_button l a e p (set_nowMs (u32 ms) s)))
      as (offset & idle & px & sh & Hidle').
    rewrite Hidle' in Hidle. inversion Hidle. reflexivity. }
  assert (Hnz : requestedCount (countShortPress btn s2) ≠ 0).
  { apply countShortPress_nonzero. rewrite Hrc. exact Hcount. }
  split; [exact Hnz |]. unfold clampZero.
  apply Z.eqb_neq in Hnz. rewrite Hnz. reflexivity.
Qed.

Lemma counting_run_reachable evts s :
  counting_run = Ret (evts, s) → reachable (H := shipped) counter s.
Proof.
  unfold counting_run. destruct (@setup shipped) as [s0 | | |] eqn:Hsetup;
    try discriminate.
  intros Hrun.
  apply (run_reachable (cfg := shipped) counter 0
           [(100, false); (200, true)] s0 evts s);
    [apply reach_setup; exact Hsetup | exact Hrun].
Qed.

Lemma counting_count_in_range_witness :
  1 <= @PEOPLE_NB shipped
  ∧ ∃ evts s,
      counting_run = Ret (evts, s)
      ∧ reachable (H := shipped) counter s
      ∧ state s = COUNTING
      ∧ 1 <= requestedCount s <= @PEOPLE_NB shipped.
Proof.
  split; [vm_compute; discriminate |].
  assert (Hrun : ∃ evts s, counting_run = Ret (evts, s) ∧ state s = COUNTING).
  { do 2 eexists. split; vm_compute; reflexivity. }
  destruct Hrun as (evts & s & Hrun & Hst).
  pose proof (counting_run_reachable evts s Hrun) as Hreach.
  exists evts, s. split; [exact Hrun |]. split; [exact Hreach |].
  split; [exact Hst |].
  apply (counting_count_in_range (cfg := shipped) counter s);
    [vm_compute; discriminate | exact Hreach | exact Hst].
Defined.

(** ** The count window *)

Section Window.
Context `{cfg : Config} (raw : nat → Z) (fuel : nat).

Lemma presses_nonneg tr : 0 <= presses tr.
Proof. unfold presses. lia. Qed.

Lemma presses_short ms tr : presses ((ms, 1) :: tr) = 1 + presses tr.
Proof.
  unfold presses. rewrite filter_cons_True by reflexivity. simpl length. lia.
Qed.

Lemma presses_none ms tr : presses ((ms, 0) :: tr) = presses tr.
Proof.
  unfold presses. rewrite filter_cons_False by (simpl; lia). reflexivity.
Qed.

Lemma presses_app tr1 tr2 : presses (tr1 ++ tr2) = presses tr1 + presses tr2.
Proof. unfold presses. rewrite filter_app, length_app. lia. Qed.

(** One pass, as the controller sees it. *)
Lemma pass_inv ms btn tr s s' :
  passes raw fuel ((ms, btn) :: tr) s s' →
  ∃ l a e p s2,
    dispatch raw fuel btn (with_button l a e p (set_nowMs (u32 ms) s))
    = Ret s2
    ∧ passes raw fuel tr s2 s'.
Proof.
  intros Hp.
  inversion Hp as [| ms' btn' level level2 s0 s1 s2 s3 tr' Hpoll Hd Hrest];
    subst.
  destruct (pollButton_frame level level2 (set_nowMs (u32 ms) s))
    as (btn' & l & a & e & p & Hpoll' & _).
  rewrite Hpoll' in Hpoll. inversion Hpoll; subst.
  exists l, a, e, p, s2. split; [exact Hd | exact Hrest].
Qed.

(** The short press in Idle opens the window. *)
Lemma pass_entry ms s s' :
  state s = IDLE → passes raw fuel [(ms, 1)] s s' →
  state s' = COUNTING ∧ requestedCount s' = 1
  ∧ countWindowEnds s' = u32 (ms + COUNT_WINDOW_MS).
Proof.
  intros Hst Hp. apply pass_inv in Hp as (l & a & e & p & s2 & Hd & Hrest).
  inversion Hrest; subst.
  destruct (dispatch_IDLE raw fuel 1
              (with_button l a e p (set_nowMs (u32 ms) s)) Hst)
    as (s1 & Hd' & _ & _ & Hshort & _).
  rewrite Hd' in Hd. inversion Hd; subst s1.
  destruct (Hshort eq_refl) as (Hc & Hrc & Hw). simpl in Hw.
  rewrite u32_add_u32_l in Hw. tauto.
Qed.

(** While the window stays open the controller stays in Counting, moves the
    deadline at each short press and counts it, up to the population. *)
Lemma passes_counting tr :
  1 <= PEOPLE_NB →
  ∀ s D s',
    state s = COUNTING → countWindowEnds s = u32 D →
    1 <= requestedCount s <= PEOPLE_NB →
    window_open D tr → passes raw fuel tr s s' →
    state s' = COUNTING
    ∧ countWindowEnds s' = u32 (deadline_after D tr)
    ∧ requestedCount s' = Z.min (requestedCount s + presses tr) PEOPLE_NB.
Proof.
  intros HP. pose proof PEOPLE_NB_range as [HPr _].
  induction tr as [| [ms btn] tr IH]; intros s D s' Hst Hw Hrc Hopen Hp.
  - inversion Hp; subst. unfold presses. simpl. split; [exact Hst |].
    split; [exact Hw | lia].
  - destruct Hopen as [Hms Hopen].
    apply pass_inv in Hp as (l & a & e & p & s2 & Hd & Hrest).
    destruct (dispatch_COUNTING raw fuel btn
                (with_button l a e p (set_nowMs (u32 ms) s)) Hst)
      as (s1 & Hd' & _ & _ & _ & Hstay).
    { destruct Hopen as [[-> _] | [-> _]]; discriminate. }
    rewrite Hd' in Hd. inversion Hd; subst s1. clear Hd Hd'.
    pose proof (countShortPress_fields btn
                  (with_button l a e p (set_nowMs (u32 ms) s)))
      as (_ & _ & _ & _ & Hrc' & Hw').
    simpl in Hrc', Hw', Hstay. rewrite Hw', Hrc' in Hstay. clear Hw' Hrc'.
    unfold COUNT_WINDOW_MS in *.
    destruct Hopen as [[-> Hopen] | [-> Hopen]]; simpl in Hstay.
    + rewrite u32_add_u32_l, i32_sub_u32 in Hstay by lia.
      destruct (Hstay ltac:(lia)) as (Hst2 & Hrc2 & Hw2).
      destruct (IH s2 (ms + 900) s' Hst2 Hw2) as (Hst' & Hw'' & Hrc'');
        [| exact Hopen | exact Hrest |].
      { rewrite Hrc2.
        destruct (Z.ltb_spec (requestedCount s) PEOPLE_NB); [| lia].
        rewrite u8_small by lia. lia. }
      split; [exact Hst' |]. split; [exact Hw'' |].
      rewrite Hrc'', Hrc2, presses_short. pose proof (presses_nonneg tr).
      destruct (Z.ltb_spec (requestedCount s) PEOPLE_NB);
        [rewrite u8_small by lia |]; lia.
    + rewrite Hw, i32_sub_u32 in Hstay by lia.
      destruct (Hstay ltac:(lia)) as (Hst2 & Hrc2 & Hw2).
      destruct (IH s2 D s' Hst2) as (Hst' & Hw'' & Hrc'');
        [congruence | lia | exact Hopen | exact Hrest |].
      split; [exact Hst' |]. split; [exact Hw'' |].
      rewrite Hrc'', Hrc2, presses_none. reflexivity.
Qed.

(** The first pass at or after the deadline freezes the count and starts the
    animation. *)
Lemma pass_expiry ms D s s' :
  state s = COUNTING → countWindowEnds s = u32 D →
  1 <= requestedCount s <= PEOPLE_NB →
  D <= ms < D + 2147483648 →
  passes raw fuel [(ms, 0)] s s' →
  state s' = ANIMATING ∧ requestedCount s' = requestedCount s.
Proof.
  intros Hst Hw Hrc Hms Hp.
  apply pass_inv in Hp as (l & a & e & p & s2 & Hd & Hrest).
  inversion Hrest; subst.
  destruct (dispatch_COUNTING raw fuel 0
              (with_button l a e p (set_nowMs (u32 ms) s)) Hst)
    as (s1 & Hd' & _ & _ & Hexp & _); [discriminate |].
  rewrite Hd' in Hd. inversion Hd; subst s1. clear Hd Hd'.
  change (countShortPress 0 (with_button l a e p (set_nowMs (u32 ms) s)))
    with (with_button l a e p (set_nowMs (u32 ms) s)) in Hexp.
  simpl in Hexp. rewrite Hw, i32_sub_u32 in Hexp by lia.
  destruct (Hexp ltac:(lia)) as (Hanim & Hrc').
  split; [exact Hanim |]. rewrite Hrc'.
  unfold clampPeople, clampZero. simpl.
  destruct (Z.eqb_spec (requestedCount s) 0); [lia |]. simpl.
  destruct (Z.ltb_spec PEOPLE_NB (requestedCount s)); [lia | reflexivity].
Qed.

End Window.

(** C6, as amended. From Idle, after the short press that enters Counting
    (which counts as the first), three more short presses, each within
    [COUNT_WINDOW_MS] of the one before, and then a first pass at or after
    the deadline, the controller is in Counting up to that pass and enters
    Animating in it with a requested count of min(4, PEOPLE_NB): 4 on the
    shipped table. *)
Theorem three_presses_after_entry `{cfg : Config} (raw : nat → Z)
    (fuel : nat) (t0 tf : Z) (tr : list (Z * Z)) (s s' : St) :
  1 <= PEOPLE_NB →
  state s = IDLE →
  window_open (t0 + COUNT_WINDOW_MS) tr →
  presses tr = 3 →
  deadline_after (t0 + COUNT_WINDOW_MS) tr <= tf
    < deadline_after (t0 + COUNT_WINDOW_MS) tr + 2147483648 →
  passes raw fuel ((t0, 1) :: tr ++ [(tf, 0)]) s s' →
  state s' = ANIMATING
  ∧ requestedCount s' = Z.min 4 PEOPLE_NB
  ∧ ∃ sc, passes raw fuel ((t0, 1) :: tr) s sc
          ∧ state sc = COUNTING
          ∧ passes raw fuel [(tf, 0)] sc s'.
Proof.
  intros HP Hst Hopen Hn Htf Hp.
  change ((t0, 1) :: tr ++ [(tf, 0)])
    with ([(t0, 1)] ++ (tr ++ [(tf, 0)])) in Hp.
  apply passes_app in Hp as (s1 & Hentry & Hp).
  apply passes_app in Hp as (sc & Hcount & Hexp).
  destruct (pass_entry raw fuel t0 s s1 Hst Hentry) as (Hst1 & Hrc1 & Hw1).
  destruct (passes_counting raw fuel tr HP s1 (t0 + COUNT_WINDOW_MS) sc
              Hst1 Hw1 ltac:(lia) Hopen Hcount) as (Hstc & Hwc & Hrcc).
  rewrite Hrc1, Hn in Hrcc. change (1 + 3) with 4 in Hrcc.
  assert (Hrange : 1 <= requestedCount sc <= PEOPLE_NB) by lia.
  destruct (pass_expiry raw fuel tf _ sc s' Hstc Hwc Hrange Htf Hexp)
    as (Hanim & Hrc').
  split; [exact Hanim |]. split; [congruence |].
  exists sc. split; [| tauto].
  inversion Hentry as [| ? ? level level2 ? sa sb ? ? Hpoll Hd Hnil]; subst.
  inversion Hnil; subst.
  eapply passes_cons; eauto.
Qed.

Lemma idle_run_reachable evts s :
  idle_run = Ret (evts, s) → reachable (H := shipped) counter s.
Proof.
  unfold idle_run. destruct (@setup shipped) as [s0 | | |] eqn:Hsetup;
    try discriminate.
  intros Hrun.
  apply (run_reachable (cfg := shipped) counter 0 [(100, false)] s0 evts s);
    [apply reach_setup; exact Hsetup | exact Hrun].
Qed.

Lemma count_labels_open : window_open (200 + COUNT_WINDOW_MS) count_labels.
Proof.
  unfold count_labels. simpl.
  repeat first
    [ exact I
    | split; [unfold COUNT_WINDOW_MS; lia |]
    | left; split; [reflexivity |]
    | right; split; [reflexivity |] ].
Qed.

(** The run of [count_trace] after [idle_run], with its labels. *)
Lemma count_trace_passes :
  ∃ e0 s s',
    idle_run = Ret (e0, s)
    ∧ state s = IDLE
    ∧ passes (H := shipped) counter 0
        ((200, 1) :: count_labels ++ [(1700, 0)]) s s'
    ∧ state s' = ANIMATING
    ∧ requestedCount s' = 4.
Proof.
  assert (Hrun : ∃ e0 s evts s',
            idle_run = Ret (e0, s) ∧ state s = IDLE
            ∧ run (H := shipped) counter 0 count_trace s = Ret (evts, s')
            ∧ zip count_trace.*1 evts
              = (200, 1) :: count_labels ++ [(1700, 0)]
            ∧ state s' = ANIMATING ∧ requestedCount s' = 4).
  { do 4 eexists. split; [vm_compute; reflexivity |].
    split; [reflexivity |]. split; [vm_compute; reflexivity |].
    split; [reflexivity |]. split; reflexivity. }
  destruct Hrun as (e0 & s & evts & s' & Hidle & Hst & Hrun & Hzip & Hres).
  apply run_passes in Hrun. rewrite Hzip in Hrun.
  exists e0, s, s'. tauto.
Qed.

Lemma three_presses_after_entry_witness :
  ∃ e0 s s',
    idle_run = Ret (e0, s)
    ∧ state s = IDLE
    ∧ passes (H := shipped) counter 0
        ((200, 1) :: count_labels ++ [(1700, 0)]) s s'
    ∧ state s' = ANIMATING
    ∧ requestedCount s' = Z.min 4 (@PEOPLE_NB shipped).
Proof.
  destruct count_trace_passes as (e0 & s & s' & Hidle & Hst & Hp & _).
  destruct (three_presses_after_entry (cfg := shipped) counter 0%nat 200 1700
              count_labels s s') as (Hanim & Hrc & _).
  - vm_compute. discriminate.
  - exact Hst.
  - exact count_labels_open.
  - reflexivity.
  - vm_compute. split; [discriminate | reflexivity].
  - exact Hp.
  - exists e0, s, s'. tauto.
Defined.

(** C6, as stated, fails: three short presses after the entry into Counting
    give a requested count of 4 at the transition to Animating, not 3. *)
Lemma three_presses_after_entry_give_four :
  ∃ e0 s s',
    idle_run = Ret (e0, s)
    ∧ reachable (H := shipped) counter s
    ∧ state s = IDLE
    ∧ window_open (200 + COUNT_WINDOW_MS) count_labels
    ∧ presses count_labels = 3
    ∧ passes (H := shipped) counter 0
        ((200, 1) :: count_labels ++ [(1700, 0)]) s s'
    ∧ state s' = ANIMATING
    ∧ requestedCount s' = 4
    ∧ requestedCount s' ≠ 3.
Proof.
  destruct count_trace_passes as (e0 & s & s' & Hidle & Hst & Hp & Hanim & Hrc).
  exists e0, s, s'. split; [exact Hidle |].
  split; [apply (idle_run_reachable e0); exact Hidle |].
  split; [exact Hst |]. split; [exact count_labels_open |].
  split; [reflexivity |]. split; [exact Hp |]. split; [exact Hanim |].
  split; [exact Hrc |]. rewrite Hrc. discriminate.
Qed.

(** ** From Animating to Show *)

Section Bounds.
Context `{cfg : Config} (raw : nat → Z) (fuel : nat).

Lemma renderShowSelection_returns s :
  drawn (selectedCount s) (selectedIdx s) →
  ∃ s', renderShowSelection s = Ret s'.
Proof.
  intros (Hlen & _ & Hsel). unfold renderShowSelection, for_upto.
  pose proof PEOPLE_NB_range as [_ HP].
  destruct (for_loop_inv
    (λ _ a, ∃ px,
       a = with_frame (rainbowOffset s) (lastIdleStep s) (lastAnimStep s) px
             (shown s) (rngPos s) s)
    (λ i a, idx ← rd (selectedIdx a) i;
            led ← rd UsedLEDs idx;
            Ret (setPixelColor led (Color 255 255 255) a))
    (Z.to_nat (selectedCount s)) 0%nat (clear s)) as (a & Ha & _).
  - exists (replicate (length (pixels s)) 0). destruct s. reflexivity.
  - intros j a Hj (px & ->). simpl in Hj.
    assert (Hj' : (j < length (selectedIdx s))%nat).
    { unfold selection in Hlen. rewrite length_take in Hlen. lia. }
    destruct (lookup_lt_is_Some_2 _ _ Hj') as [idx Hidx].
    assert (Hidx' : 0 <= idx < PEOPLE_NB).
    { apply (Forall_lookup_1 _ _ j idx) in Hsel; [exact Hsel |].
      unfold selection. rewrite lookup_take_lt by lia. exact Hidx. }
    destruct (lookup_lt_is_Some_2 UsedLEDs (Z.to_nat idx) ltac:(lia))
      as [led Hled].
    replace (selectedIdx (with_frame (rainbowOffset s) (lastIdleStep s)
               (lastAnimStep s) px (shown s) (rngPos s) s))
      with (selectedIdx s) by reflexivity.
    rewrite (rd_lookup _ _ idx) by (rewrite Nat2Z.id; exact Hidx). simpl.
    rewrite (rd_lookup _ _ led) by exact Hled. simpl.
    eexists. split; [reflexivity |].
    match goal with
    | |- ∃ _, setPixelColor ?n ?c ?a = _ =>
        destruct (setPixelColor_frame n c a) as (px' & Hpx)
    end.
    exists px'. rewrite Hpx. reflexivity.
  - change (Z.of_nat 0) with 0 in Ha. rewrite Ha. simpl.
    eexists. reflexivity.
Qed.

Lemma dispatch_ANIMATING_in_bounds btn s :
  state s = ANIMATING → length (selectedIdx s) = Z.to_nat MAX_SEL →
  dispatch raw fuel btn s ≠ OutOfBounds.
Proof.
  intros Hst Hlen. unfold dispatch. rewrite Hst.
  destruct (renderAnimating_frame raw s) as (anim & px & sh & pos & ->).
  simpl. destruct (btn =? 2); [discriminate |].
  destruct (ANIM_MS <=? u32 (nowMs s - stateEnterMs s)); [| discriminate].
  destruct (select raw fuel (requestedCount s) (selectedIdx s) pos)
    as [[out pos'] | | |] eqn:Hsel; simpl; try discriminate.
  - apply select_drawn in Hsel as [Hd _].
    match goal with
    | |- renderShowSelection ?a ≠ _ =>
        destruct (renderShowSelection_returns a) as (s' & ->)
    end; [exact Hd | discriminate].
  - exfalso. revert Hsel. apply select_in_bounds. lia.
Qed.

End Bounds.

(** C10. In the pass that takes the controller from Animating to Show, no
    array is indexed outside its extent, and after it [selectedCount] is at
    most min(PEOPLE_NB, MAX_SEL), the buffer still has [MAX_SEL] entries and
    every entry below [selectedCount] is an index of [UsedLEDs] in
    [0, PEOPLE_NB). *)
Theorem animating_to_show_in_bounds `{cfg : Config} (raw : nat → Z)
    (fuel : nat) (ms : Z) (level level2 : bool) (s : St) :
  state s = ANIMATING →
  length (selectedIdx s) = Z.to_nat MAX_SEL →
  loop raw fuel ms level level2 s ≠ OutOfBounds
  ∧ ∀ s', loop raw fuel ms level level2 s = Ret s' → state s' = SHOW →
      selectedCount s' <= Z.min PEOPLE_NB MAX_SEL
      ∧ length (selectedIdx s') = Z.to_nat MAX_SEL
      ∧ ∀ i : nat, Z.of_nat i < selectedCount s' →
          ∃ v led, selectedIdx s' !! i = Some v
                   ∧ 0 <= v < PEOPLE_NB
                   ∧ UsedLEDs !! Z.to_nat v = Some led.
Proof.
  intros Hst Hlen. unfold loop.
  destruct (pollButton_frame level level2 (set_nowMs (u32 ms) s))
    as (btn & l & a & e & p & -> & _).
  split; [apply dispatch_ANIMATING_in_bounds; assumption |].
  intros s' Hret Hshow.
  destruct (dispatch_ANIMATING raw fuel btn
              (with_button l a e p (set_nowMs (u32 ms) s)) s' Hst Hret)
    as [(Hns & _) | (_ & Hsc & pos & pos' & Hsel)]; [tauto |].
  simpl in Hsc, Hsel. apply select_drawn in Hsel as [(Hl & _ & Hall) Hl'].
  pose proof (selectCount_bound (requestedCount s)) as (HkP & Hk32 & _).
  pose proof PEOPLE_NB_range as [_ HP].
  rewrite Hsc. split; [lia |]. split; [congruence |].
  intros i Hi. unfold selection in Hl, Hall.
  assert (Hi' : (i < length (selectedIdx s'))%nat).
  { rewrite length_take in Hl. lia. }
  destruct (lookup_lt_is_Some_2 _ _ Hi') as [v Hv].
  assert (Hvr : 0 <= v < PEOPLE_NB).
  { apply (Forall_lookup_1 _ _ i v) in Hall; [exact Hall |].
    rewrite lookup_take_lt by lia. exact Hv. }
  destruct (lookup_lt_is_Some_2 UsedLEDs (Z.to_nat v) ltac:(lia))
    as [led Hled].
  exists v, led. tauto.
Qed.

Lemma animating_to_show_in_bounds_witness :
  ∃ evts s s',
    animating_run = Ret (evts, s)
    ∧ state s = ANIMATING
    ∧ length (selectedIdx s) = Z.to_nat MAX_SEL
    ∧ loop (H := shipped) counter 40 2900 true true s = Ret s'
    ∧ state s' = SHOW
    ∧ selectedCount s' <= Z.min (@PEOPLE_NB shipped) MAX_SEL.
Proof.
  assert (Hrun : ∃ evts s s',
            animating_run = Ret (evts, s) ∧ state s = ANIMATING
            ∧ length (selectedIdx s) = Z.to_nat MAX_SEL
            ∧ loop (H := shipped) counter 40 2900 true true s = Ret s'
            ∧ state s' = SHOW).
  { do 3 eexists. split; [vm_compute; reflexivity |].
    split; [reflexivity |]. split; [reflexivity |].
    split; [vm_compute; reflexivity | reflexivity]. }
  destruct Hrun as (evts & s & s' & Hrun & Hst & Hlen & Hloop & Hshow).
  destruct (animating_to_show_in_bounds (cfg := shipped) counter 40%nat 2900
              true true s Hst Hlen) as [_ Hafter].
  destruct (Hafter s' Hloop Hshow) as (Hsc & _).
  exists evts, s, s'. tauto.
Defined.

(** ** The classifier inside [loop] *)

(** [pollButton] looks at the variables of the button and at the clock
    only. *)
Lemma pollButton_button level level2 s t :
  button s = button t → nowMs s = nowMs t →
  (pollButton level level2 s).1 = (pollButton level level2 t).1
  ∧ button (pollButton level level2 s).2
    = button (pollButton level level2 t).2.
Proof.
  destruct s, t. unfold button. simpl. intros Hb Hn.
  inversion Hb; subst. unfold pollButton. fields.
  repeat match goal with
  | |- context [if ?c then _ else _] => destruct c
  end; split; reflexivity.
Qed.

Section ClassifierInLoop.
Context `{cfg : Config} (raw : nat → Z) (fuel : nat).

(** The controller does not write the variables of the button. *)
Lemma dispatch_button btn s s' :
  dispatch raw fuel btn s = Ret s' → button s' = button s.
Proof.
  unfold dispatch. destruct (state s) eqn:Hst.
  - destruct (renderIdle_frame s) as (offset & idle & px & sh & ->). simpl.
    destruct (btn =? 2); [| destruct (btn =? 1)];
      intros Hret; inversion Hret; reflexivity.
  - destruct (renderIdle_frame s) as (offset & idle & px & sh & ->). simpl.
    destruct (btn =? 2); [intros Hret; inversion Hret; reflexivity |].
    rewrite countShortPress_frame, clamp_frame. simpl.
    destruct (0 <=? _); intros Hret; inversion Hret; subst; clear Hret;
      unfold clampPeople, clampZero, countShortPress;
      repeat match goal with
      | |- context [if ?c then _ else _] => destruct c
      end; reflexivity.
  - destruct (renderAnimating_frame raw s) as (anim & px & sh & pos & ->).
    simpl. destruct (btn =? 2); [intros Hret; inversion Hret; reflexivity |].
    destruct (ANIM_MS <=? _); [| intros Hret; inversion Hret; reflexivity].
    destruct (select raw fuel _ _ _) as [[out pos'] | | |]; try discriminate.
    simpl. intros Hret. apply renderShowSelection_Ret in Hret as (px' & ->).
    reflexivity.
  - destruct (btn =? 2); [| destruct (HOLD_MS <=? _)];
      intros Hret; inversion Hret; reflexivity.
Qed.

(** The events of a run of [loop] are the ones the classifier alone gives on
    the samples of the run. *)
Lemma run_polls inputs :
  ∀ s t evts s',
    button s = button t →
    run raw fuel inputs s = Ret (evts, s') →
    evts = (polls (both <$> inputs) t).1.
Proof.
  induction inputs as [| [ms level] inputs IH]; intros s t evts s' Hb Hrun.
  - inversion Hrun. reflexivity.
  - apply run_cons in Hrun as (btn & s1 & s2 & evts' & Hp & Hd & Hrun & ->).
    rewrite fmap_cons. change (both (ms, level)) with (ms, level, level).
    rewrite polls_cons. simpl fst.
    destruct (pollButton_button level level (set_nowMs (u32 ms) s)
                (set_nowMs (u32 ms) t) Hb eq_refl) as [Hevt Hb'].
    rewrite Hp in Hevt, Hb'. simpl in Hevt, Hb'. rewrite <- Hevt. f_equal.
    apply (IH s2 _ evts' s'); [| exact Hrun].
    rewrite (dispatch_button btn s1 s2 Hd). exact Hb'.
Qed.

End ClassifierInLoop.

(** * Further properties of the sketch *)

(** ** [contains] *)

Lemma contains_from_in_bounds n arr (j : nat) val :
  (j + n <= length arr)%nat →
  contains_from n arr (Z.of_nat j) val
  = Ret (bool_decide (val ∈ take n (drop j arr))).
Proof.
  revert j. induction n as [| n IH]; intros j Hlen; cbn [contains_from].
  - rewrite take_0, bool_decide_eq_false_2 by apply not_elem_of_nil.
    reflexivity.
  - destruct (lookup_lt_is_Some_2 arr j ltac:(lia)) as [x Hx].
    rewrite (rd_lookup _ _ x) by (rewrite Nat2Z.id; exact Hx).
    rewrite (drop_S _ _ _ Hx). cbn [mbind outcome_bind take].
    destruct (Z.eqb_spec x val) as [-> | Hne].
    + rewrite bool_decide_eq_true_2 by apply list_elem_of_here. reflexivity.
    + replace (Z.of_nat j + 1) with (Z.of_nat (S j)) by lia.
      rewrite IH by lia. f_equal. apply bool_decide_ext.
      rewrite elem_of_cons. split; [tauto |].
      intros [Heq | Hin]; [congruence | exact Hin].
Qed.

(** X1. When the buffer holds at least [len] entries, [contains] returns, and
    it answers true exactly when the value is among the first [len]
    entries; for [len = 0] the answer is false. *)
Theorem contains_in_bounds (arr : list Z) (len val : Z) :
  (Z.to_nat len <= length arr)%nat →
  contains arr len val = Ret (bool_decide (val ∈ selection len arr)).
Proof.
  intros Hlen. unfold contains, selection.
  rewrite (contains_from_in_bounds _ _ 0%nat) by lia.
  rewrite drop_0. reflexivity.
Qed.

Lemma contains_in_bounds_witness :
  contains [4; 7; 1; 7] 3 1 = Ret true
  ∧ contains [4; 7; 1; 7] 2 1 = Ret false
  ∧ contains [4; 7; 1; 7] 0 4 = Ret false.
Proof.
  split; [| split].
  - rewrite (contains_in_bounds [4; 7; 1; 7] 3 1) by (simpl; lia).
    reflexivity.
  - rewrite (contains_in_bounds [4; 7; 1; 7] 2 1) by (simpl; lia).
    reflexivity.
  - rewrite (contains_in_bounds [4; 7; 1; 7] 0 4) by (simpl; lia).
    reflexivity.
Defined.

(** ** [pickUniqueRandom] has no clamp of its own *)

Section NoClamp.
Context `{cfg : Config} (raw : nat → Z).

(** Once [PEOPLE_NB] distinct indices are drawn, every index is drawn. *)
Lemma drawn_full out v :
  drawn PEOPLE_NB out → 0 <= v < PEOPLE_NB → v ∈ selection PEOPLE_NB out.
Proof.
  intros (Hl & Hnd & Hall) Hv.
  set (cand := Z.of_nat <$> seq 0 (Z.to_nat PEOPLE_NB)).
  assert (Hsub : selection PEOPLE_NB out ⊆+ cand).
  { apply NoDup_submseteq; [exact Hnd |]. intros x Hx.
    rewrite Forall_forall in Hall. specialize (Hall x Hx).
    apply list_elem_of_fmap. exists (Z.to_nat x). split; [lia |].
    apply elem_of_seq. lia. }
  apply submseteq_length_Permutation in Hsub.
  - rewrite Hsub. apply list_elem_of_fmap. exists (Z.to_nat v).
    split; [lia |]. apply elem_of_seq. lia.
  - unfold cand. rewrite length_fmap, length_seq, Hl. lia.
Qed.

(** A new draw with the buffer full is a write outside the buffer. *)
Lemma pickLoop_overflow fuel k count out pos :
  1 <= PEOPLE_NB → 0 <= count < k →
  (Z.to_nat count = length out)%nat →
  raw pos mod PEOPLE_NB ∉ selection count out →
  pickLoop raw (S fuel) k count out pos = OutOfBounds.
Proof.
  intros HP Hc Hlen Hnew. simpl.
  destruct (Z.ltb_spec count k); [| lia].
  destruct (random_people raw pos HP) as [-> Hr].
  pose proof PEOPLE_NB_range as [HPr _].
  rewrite (u8_small (raw pos mod PEOPLE_NB)) by lia.
  destruct (contains_total out count (raw pos mod PEOPLE_NB) ltac:(lia))
    as [b Hb].
  rewrite Hb. apply (contains_Ret raw) in Hb.
  rewrite bool_decide_eq_false_2 in Hb by exact Hnew. subst b. simpl.
  unfold wr. destruct (decide (Z.to_nat count < length out)%nat); [lia |].
  reflexivity.
Qed.

Lemma pickLoop_never_returns k :
  1 <= PEOPLE_NB → PEOPLE_NB < k <= 255 →
  ∀ fuel count out pos res,
    0 <= count <= PEOPLE_NB → drawn count out →
    pickLoop raw fuel k count out pos ≠ Ret res.
Proof.
  intros HP Hk. induction fuel as [| fuel IH]; intros count out pos res Hc Hd.
  - simpl. destruct (Z.ltb_spec count k); [discriminate | lia].
  - pose proof (drawn_length _ _ Hd) as Hlen.
    destruct (decide (raw pos mod PEOPLE_NB ∈ selection count out))
      as [Hin | Hnew].
    + rewrite pickLoop_reject by (assumption || lia). apply IH; assumption.
    + assert (Hlt : count < PEOPLE_NB).
      { destruct (Z_lt_le_dec count PEOPLE_NB) as [Hlt | Hge]; [exact Hlt |].
        exfalso. apply Hnew. replace count with PEOPLE_NB in * by lia.
        apply drawn_full; [exact Hd |]. apply Z.mod_pos_bound. lia. }
      destruct (decide (Z.to_nat count < length out)%nat) as [Hroom | Hfull].
      * rewrite pickLoop_accept by (assumption || lia).
        apply IH; [lia |]. apply drawn_next; try assumption; try lia.
        apply Z.mod_pos_bound. lia.
      * rewrite pickLoop_overflow by (assumption || lia). discriminate.
Qed.

End NoClamp.

(** X2. [pickUniqueRandom] does not clamp its request: asked for more
    indices than there are people, it never returns, whatever the generator
    and however long it runs. *)
Theorem pickUniqueRandom_above_population `{cfg : Config} (raw : nat → Z)
    (fuel : nat) (k : Z) (out : list Z) (pos : nat) (res : list Z * nat) :
  1 <= PEOPLE_NB → PEOPLE_NB < k <= 255 →
  pickUniqueRandom raw fuel k out pos ≠ Ret res.
Proof.
  intros HP Hk. unfold pickUniqueRandom.
  apply pickLoop_never_returns; [exact HP | exact Hk | lia | apply drawn_0].
Qed.

Lemma pickUniqueRandom_above_population_witness :
  @PEOPLE_NB shipped < 12 <= 255
  ∧ pickUniqueRandom (H := shipped) counter 500 12 (replicate 32 0) 0
    = OutOfFuel.
Proof.
  split; [vm_compute; split; [reflexivity | discriminate] |].
  pose proof (pickUniqueRandom_above_population (cfg := shipped) counter 500
                12 (replicate 32 0) 0) as Hnever.
  destruct (pickUniqueRandom (H := shipped) counter 500 12 (replicate 32 0) 0)
    as [res | | |] eqn:Hrun.
  - exfalso. apply (Hnever res); [vm_compute; discriminate | |reflexivity].
    vm_compute. split; [reflexivity | discriminate].
  - vm_compute in Hrun. discriminate.
  - vm_compute in Hrun. discriminate.
  - reflexivity.
Defined.

(** ** [setup] *)

Section Setup.
Context `{cfg : Config}.

Lemma show_clear_initial : show (clear initial) = initial.
Proof.
  unfold show, clear, initial, set_shown, set_pixels. simpl.
  rewrite length_replicate. reflexivity.
Qed.

(** The check of the table: it goes through when every entry it looks at is
    on the strip, and ends in the busy wait at the first one that is not. *)
Lemma validate_passes n :
  ∀ (i : nat) (a : St),
    (i + n <= length UsedLEDs)%nat →
    Forall (λ led, led < NUM_LEDS) (take n (drop i UsedLEDs)) →
    for_loop n (Z.of_nat i)
      (λ i s, led ← rd UsedLEDs i; if NUM_LEDS <=? led then Halted else Ret s)
      a
    = Ret a.
Proof.
  induction n as [| n IH]; intros i a Hlen Hall; [reflexivity |].
  destruct (lookup_lt_is_Some_2 UsedLEDs i ltac:(lia)) as [led Hled].
  rewrite (drop_S _ _ _ Hled) in Hall. cbn [take] in Hall.
  apply Forall_cons in Hall as [Hok Hall].
  cbn [for_loop]. rewrite (rd_lookup _ _ led) by (rewrite Nat2Z.id; exact Hled).
  cbn [mbind outcome_bind].
  destruct (Z.leb_spec NUM_LEDS led); [lia |]. cbn [mbind outcome_bind].
  replace (Z.of_nat i + 1) with (Z.of_nat (S i)) by lia.
  apply IH; [lia | exact Hall].
Qed.

Lemma validate_halts n :
  ∀ (i : nat) (a : St),
    (i + n <= length UsedLEDs)%nat →
    Exists (λ led, NUM_LEDS <= led) (take n (drop i UsedLEDs)) →
    for_loop n (Z.of_nat i)
      (λ i s, led ← rd UsedLEDs i; if NUM_LEDS <=? led then Halted else Ret s)
      a
    = Halted.
Proof.
  induction n as [| n IH]; intros i a Hlen Hex.
  - rewrite take_0 in Hex. apply Exists_nil in Hex. tauto.
  - destruct (lookup_lt_is_Some_2 UsedLEDs i ltac:(lia)) as [led Hled].
    rewrite (drop_S _ _ _ Hled) in Hex. cbn [take] in Hex.
    apply Exists_cons in Hex.
    cbn [for_loop].
    rewrite (rd_lookup _ _ led) by (rewrite Nat2Z.id; exact Hled).
    cbn [mbind outcome_bind].
    destruct (Z.leb_spec NUM_LEDS led); [reflexivity |].
    cbn [mbind outcome_bind].
    replace (Z.of_nat i + 1) with (Z.of_nat (S i)) by lia.
    apply IH; [lia |]. destruct Hex as [Hbad | Hex]; [lia | exact Hex].
Qed.

End Setup.

(** X3. [setup] checks the people's LEDs against the length of the strip:
    when all of them are on the strip it returns the initial state (Idle,
    strip off, no request, button released); when one of them is not, it
    never leaves its busy wait. *)
Theorem setup_validates `{cfg : Config} :
  (Forall (λ led, led < NUM_LEDS) (selection PEOPLE_NB UsedLEDs) →
   setup = Ret initial)
  ∧ (Exists (λ led, NUM_LEDS <= led) (selection PEOPLE_NB UsedLEDs) →
     setup = Halted).
Proof.
  pose proof PEOPLE_NB_range as [_ HP]. unfold setup, for_upto, selection.
  rewrite show_clear_initial. split; intros Htable.
  - change 0 with (Z.of_nat 0).
    rewrite validate_passes; [reflexivity | lia |].
    rewrite drop_0. exact Htable.
  - change 0 with (Z.of_nat 0).
    rewrite validate_halts; [reflexivity | lia |].
    rewrite drop_0. exact Htable.
Qed.

Lemma setup_validates_witness :
  @setup shipped = Ret (@initial shipped) ∧ @setup broken = Halted.
Proof.
  split.
  - apply (proj1 (setup_validates (cfg := shipped))).
    repeat constructor.
  - apply (proj2 (setup_validates (cfg := broken))).
    apply Exists_cons_tl, Exists_cons_tl, Exists_cons_hd. vm_compute.
    discriminate.
Defined.

(** ** More on the hue wheel *)

Lemma channels_spec_wheel q :
  0 <= q <= 255 →
  channels (spec_wheel q)
  = if q <? 85 then (255 - 3 * q, 0, 3 * q)
    else if q <? 170 then (0, 3 * (q - 85), 255 - 3 * (q - 85))
    else (3 * (q - 170), 255 - 3 * (q - 170), 0).
Proof.
  intros Hq. unfold spec_wheel.
  destruct (Z.ltb_spec q 85); [| destruct (Z.ltb_spec q 170)];
    rewrite channels_Color by lia;
    (apply f_equal2; [apply f_equal2 |]); lia.
Qed.

(** The inverted position of the next hue is the one before. *)
Lemma u8_inverted_next p :
  u8 (255 - (p + 1))
  = if u8 (255 - p) =? 0 then 255 else u8 (255 - p) - 1.
Proof.
  pose proof (u8_range (255 - p)) as Hq. unfold u8 in *.
  replace (255 - (p + 1)) with (255 - p - 1) by lia.
  rewrite <- Zminus_mod_idemp_l.
  destruct (Z.eqb_spec ((255 - p) mod 256) 0) as [-> | Hne].
  - reflexivity.
  - apply Z.mod_small. lia.
Qed.

(** X4. Every color of the wheel is a pure hue of the same total: its three
    channels are within 0..255, add up to 255, and one of them is 0. *)
Theorem colorWheel_pure_hue (p : Z) :
  ∃ r g b,
    channels (colorWheel p) = (r, g, b)
    ∧ 0 <= r <= 255 ∧ 0 <= g <= 255 ∧ 0 <= b <= 255
    ∧ r + g + b = 255
    ∧ (r = 0 ∨ g = 0 ∨ b = 0).
Proof.
  rewrite colorWheel_spec_wheel. pose proof (u8_range (255 - p)) as Hq.
  rewrite channels_spec_wheel by lia.
  destruct (Z.ltb_spec (u8 (255 - p)) 85);
    [| destruct (Z.ltb_spec (u8 (255 - p)) 170)];
    do 3 eexists; (split; [reflexivity |]); lia.
Qed.

(** X5. The wheel is smooth and closed: from one position to the next,
    position 255 being followed by position 0 again, no channel moves by
    more than 3. *)
Theorem colorWheel_smooth (p : Z) :
  ∃ r g b r' g' b',
    channels (colorWheel p) = (r, g, b)
    ∧ channels (colorWheel (p + 1)) = (r', g', b')
    ∧ Z.abs (r' - r) <= 3 ∧ Z.abs (g' - g) <= 3 ∧ Z.abs (b' - b) <= 3.
Proof.
  rewrite !colorWheel_spec_wheel, u8_inverted_next.
  pose proof (u8_range (255 - p)) as Hq.
  destruct (Z.eqb_spec (u8 (255 - p)) 0) as [-> | Hne].
  - do 6 eexists. split; [reflexivity |]. split; [reflexivity |].
    vm_compute. repeat split; discriminate.
  - rewrite !channels_spec_wheel by lia.
    destruct (Z.ltb_spec (u8 (255 - p)) 85);
      destruct (Z.ltb_spec (u8 (255 - p) - 1) 85); try lia;
      destruct (Z.ltb_spec (u8 (255 - p)) 170); try lia;
      destruct (Z.ltb_spec (u8 (255 - p) - 1) 170); try lia;
      do 6 eexists; (split; [reflexivity |]); (split; [reflexivity |]); lia.
Qed.

(** ** More on the button classifier *)

Lemma poll_held_low_short ta level2 s :
  held ta s → longPressArmed s = true →
  u32 (nowMs s - ta) < LONG_PRESS_MS →
  pollButton false level2 s = (0, s).
Proof.
  intros (Hl & He & Hp) Ha Hshort. unfold pollButton. rewrite Hl. simpl.
  rewrite Ha, (Hp Ha). simpl.
  destruct (Z.leb_spec LONG_PRESS_MS (u32 (nowMs s - ta))); [lia |].
  reflexivity.
Qed.

Lemma poll_held_low_long ta s :
  held ta s → longPressArmed s = true →
  LONG_PRESS_MS <= u32 (nowMs s - ta) →
  pollButton false false s = (2, set_longPressArmed false s).
Proof.
  intros (Hl & He & Hp) Ha Hlong. unfold pollButton. rewrite Hl. simpl.
  rewrite Ha, (Hp Ha). simpl.
  destruct (Z.leb_spec LONG_PRESS_MS (u32 (nowMs s - ta))); [| lia].
  reflexivity.
Qed.

Lemma poll_held_bounce_short ta level2 s :
  held ta s → longPressArmed s = true →
  ¬ DEBOUNCE_MS < u32 (nowMs s - ta) →
  u32 (nowMs s - ta) < LONG_PRESS_MS →
  pollButton true level2 s = (0, s).
Proof.
  intros (Hl & He & Hp) Ha Hgate Hshort. unfold pollButton.
  rewrite Hl, He. simpl.
  destruct (Z.ltb_spec DEBOUNCE_MS (u32 (nowMs s - ta))); [tauto |].
  rewrite Ha, (Hp Ha). simpl.
  destruct (Z.leb_spec LONG_PRESS_MS (u32 (nowMs s - ta))); [lia |].
  reflexivity.
Qed.

(** Pressed samples of a pending press, none of them late. *)
Lemma polls_held_short ta downs s :
  held ta s → longPressArmed s = true →
  Forall (λ x, x.1.2 = false) downs →
  Forall (λ x, u32 (u32 x.1.1 - ta) < LONG_PRESS_MS) downs →
  held ta (polls downs s).2
  ∧ longPressArmed (polls downs s).2 = true
  ∧ events (polls downs s).1 = [].
Proof.
  revert s.
  induction downs as [| [[ms level] level2] downs IH];
    intros s Hh Ha Hdown Hshort.
  - simpl. tauto.
  - apply Forall_cons in Hdown as [Hlevel Hdown]. simpl in Hlevel.
    subst level. apply Forall_cons in Hshort as [Hs Hshort]. simpl in Hs.
    rewrite polls_cons.
    rewrite (poll_held_low_short ta level2 (set_nowMs (u32 ms) s))
      by assumption.
    simpl. rewrite events_0.
    apply (IH (set_nowMs (u32 ms) s)); assumption.
Qed.

Lemma polls_press_short ta downs s :
  resting s → Forall (λ x, x.1.2 = false) downs →
  first_accept (lastButtonEdge s) downs = Some ta →
  Forall (λ x, u32 (u32 x.1.1 - ta) < LONG_PRESS_MS)
    (after_accept (lastButtonEdge s) downs) →
  held ta (polls downs s).2
  ∧ longPressArmed (polls downs s).2 = true
  ∧ events (polls downs s).1 = [].
Proof.
  revert s.
  induction downs as [| [[ms level] level2] downs IH];
    intros s Hr Hdown Hacc Hshort.
  - discriminate.
  - apply Forall_cons in Hdown as [Hlevel Hdown]. simpl in Hlevel.
    subst level. rewrite polls_cons. simpl in Hacc, Hshort.
    destruct (Z.ltb_spec DEBOUNCE_MS (u32 (u32 ms - lastButtonEdge s)))
      as [Hgate | Hgate].
    + inversion Hacc; subst ta.
      destruct (poll_rest_press level2 (set_nowMs (u32 ms) s)
                  (resting_nowMs _ _ Hr) Hgate)
        as (s' & -> & Hh & Ha & _). simpl.
      rewrite events_0. apply polls_held_short; assumption.
    + rewrite (poll_rest_bounce level2 (set_nowMs (u32 ms) s)
                 (resting_nowMs _ _ Hr)) by (simpl; lia).
      simpl. rewrite events_0.
      apply (IH (set_nowMs (u32 ms) s)); assumption.
Qed.

Lemma polls_release_short ta tr ups s :
  held ta s → longPressArmed s = true →
  Forall (λ x, x.1.2 = true) ups →
  first_accept ta ups = Some tr →
  Forall (λ x, u32 (u32 x.1.1 - ta) < LONG_PRESS_MS) (upto_accept ta ups) →
  resting (polls ups s).2 ∧ events (polls ups s).1 = [1].
Proof.
  revert s.
  induction ups as [| [[ms level] level2] ups IH];
    intros s Hh Ha Hup Hacc Hshort.
  - discriminate.
  - apply Forall_cons in Hup as [Hlevel Hup]. simpl in Hlevel.
    subst level. rewrite polls_cons. simpl in Hacc, Hshort.
    destruct (Z.ltb_spec DEBOUNCE_MS (u32 (u32 ms - ta))) as [Hgate | Hgate];
      apply Forall_cons in Hshort as [Hs Hshort]; simpl in Hs.
    + destruct (poll_held_release ta level2 (set_nowMs (u32 ms) s)
                  (held_nowMs _ _ _ Hh) Hgate)
        as (e & s' & -> & Hr & _ & Hon). simpl in *.
      rewrite (Hon Ha).
      destruct (Z.leb_spec LONG_PRESS_MS (u32 (u32 ms - ta))); [lia |].
      destruct (polls_rest ups s' Hr Hup) as [Hev Hr'].
      rewrite events_1, Hev. tauto.
    + rewrite (poll_held_bounce_short ta level2 (set_nowMs (u32 ms) s))
        by (assumption || (simpl; lia)).
      simpl. rewrite events_0.
      apply (IH (set_nowMs (u32 ms) s)); assumption.
Qed.

(** X6. A short press: from rest, when the press and the release each pass
    the debounce gate and no sample from the accepted press to the accepted
    release comes [LONG_PRESS_MS] or more after the accepted press, the
    classifier emits exactly one event, a short press, and is at rest
    again. *)
Theorem short_press_reported (s : St) (downs ups : list (Z * bool * bool))
    (ta tr : Z) :
  lastButtonLevel s = true → longPressArmed s = false →
  Forall (λ x, x.1.2 = false) downs →
  Forall (λ x, x.1.2 = true) ups →
  first_accept (lastButtonEdge s) downs = Some ta →
  first_accept ta ups = Some tr →
  Forall (λ x, u32 (u32 x.1.1 - ta) < LONG_PRESS_MS)
    (after_accept (lastButtonEdge s) downs ++ upto_accept ta ups) →
  events (polls (downs ++ ups) s).1 = [1]
  ∧ lastButtonLevel (polls (downs ++ ups) s).2 = true
  ∧ longPressArmed (polls (downs ++ ups) s).2 = false.
Proof.
  intros Hl Ha Hdown Hup Hpress Hrelease Hshort.
  apply Forall_app in Hshort as [Hs1 Hs2].
  rewrite polls_app. simpl. rewrite events_app.
  destruct (polls_press_short ta downs s (conj Hl Ha) Hdown Hpress Hs1)
    as (Hh & Harm & Hev).
  destruct (polls_release_short ta tr ups _ Hh Harm Hup Hrelease Hs2)
    as ([Hl' Ha'] & Hev').
  rewrite Hev, Hev'. tauto.
Qed.

Lemma short_press_reported_witness :
  events (polls ([(100, false, false); (110, false, true);
                  (115, false, false)]
                 ++ [(120, true, true); (340, true, false);
                     (900, true, true)])
            (@initial shipped)).1 = [1].
Proof.
  refine (proj1 (short_press_reported (@initial shipped)
    [(100, false, false); (110, false, true); (115, false, false)]
    [(120, true, true); (340, true, false); (900, true, true)]
    100 340 _ _ _ _ _ _ _)).
  - reflexivity.
  - reflexivity.
  - repeat constructor.
  - repeat constructor.
  - reflexivity.
  - reflexivity.
  - repeat constructor; vm_compute; reflexivity.
Defined.

(** Pressed samples of a pending press, one of them late and seen pressed
    by the second read. *)
Lemma polls_held_long ta downs s :
  held ta s → longPressArmed s = true →
  Forall (λ x, x.1.2 = false) downs →
  Exists (λ x, LONG_PRESS_MS <= u32 (u32 x.1.1 - ta) ∧ x.2 = false) downs →
  held ta (polls downs s).2
  ∧ longPressArmed (polls downs s).2 = false
  ∧ events (polls downs s).1 = [2].
Proof.
  revert s.
  induction downs as [| [[ms level] level2] downs IH];
    intros s Hh Ha Hdown Hlong.
  - apply Exists_nil in Hlong. tauto.
  - apply Forall_cons in Hdown as [Hlevel Hdown]. simpl in Hlevel.
    subst level. rewrite polls_cons.
    assert (Hfired : ∀ s1,
              held ta s1 → longPressArmed s1 = false →
              held ta (polls downs s1).2
              ∧ longPressArmed (polls downs s1).2 = false
              ∧ 2 :: events (polls downs s1).1 = [2]).
    { intros s1 Hh1 Ha1.
      destruct (polls_held ta downs s1 Hh1 Hdown) as (Hh' & Hoff & _).
      destruct (Hoff Ha1) as [Ha' Hev]. rewrite Hev. tauto. }
    destruct (poll_held_low ta level2 _ (held_nowMs ta (u32 ms) s Hh))
      as [Hsame | [_ Hfire]].
    + rewrite Hsame. simpl. rewrite events_0.
      apply Exists_cons in Hlong as [[Hlate Hl2] | Hlong].
      * simpl in Hlate, Hl2. subst level2.
        rewrite (poll_held_low_long ta (set_nowMs (u32 ms) s)) in Hsame
          by assumption.
        discriminate.
      * apply (IH (set_nowMs (u32 ms) s)); assumption.
    + rewrite Hfire. simpl. rewrite events_2.
      apply Hfired; [apply held_disarm; exact Hh | reflexivity].
Qed.

(** X7. A long press is reported while the button is still down: from rest,
    once some pressed sample after the accepted press comes [LONG_PRESS_MS]
    or more after it (and the second read of that pass sees the button
    down), the pressed samples alone yield exactly one event, a long
    press; the classifier still knows the button down and no press is
    pending. *)
Theorem long_press_while_held (s : St) (downs : list (Z * bool * bool))
    (ta : Z) :
  lastButtonLevel s = true → longPressArmed s = false →
  Forall (λ x, x.1.2 = false) downs →
  first_accept (lastButtonEdge s) downs = Some ta →
  Exists (λ x, LONG_PRESS_MS <= u32 (u32 x.1.1 - ta) ∧ x.2 = false)
    (after_accept (lastButtonEdge s) downs) →
  events (polls downs s).1 = [2]
  ∧ lastButtonLevel (polls downs s).2 = false
  ∧ longPressArmed (polls downs s).2 = false.
Proof.
  intros Hl Ha. revert s Hl Ha.
  induction downs as [| [[ms level] level2] downs IH];
    intros s Hl Ha Hdown Hacc Hlong.
  - discriminate.
  - apply Forall_cons in Hdown as [Hlevel Hdown]. simpl in Hlevel.
    subst level. rewrite polls_cons. simpl in Hacc, Hlong.
    destruct (Z.ltb_spec DEBOUNCE_MS (u32 (u32 ms - lastButtonEdge s)))
      as [Hgate | Hgate].
    + inversion Hacc; subst ta.
      destruct (poll_rest_press level2 (set_nowMs (u32 ms) s)
                  (conj Hl Ha) Hgate) as (s' & -> & Hh & Harm & _).
      simpl. rewrite events_0.
      destruct (polls_held_long (u32 ms) downs s' Hh Harm Hdown Hlong)
        as ((Hl' & _) & Ha' & Hev).
      tauto.
    + rewrite (poll_rest_bounce level2 (set_nowMs (u32 ms) s) (conj Hl Ha))
        by (simpl; lia).
      simpl. rewrite events_0.
      apply (IH (set_nowMs (u32 ms) s)); assumption.
Qed.

Lemma long_press_while_held_witness :
  events (polls [(100, false, false); (500, false, false);
                 (900, false, false); (1500, false, false)]
            (@initial shipped)).1 = [2].
Proof.
  refine (proj1 (long_press_while_held (@initial shipped)
    [(100, false, false); (500, false, false); (900, false, false);
     (1500, false, false)] 100 _ _ _ _ _)).
  - reflexivity.
  - reflexivity.
  - repeat constructor.
  - reflexivity.
  - apply Exists_cons_tl, Exists_cons_hd. split; [| reflexivity].
    vm_compute. discriminate.
Defined.

(** Samples that change nothing. *)
Lemma polls_rest_button ups s :
  resting s → Forall (λ x, x.1.2 = true) ups →
  events (polls ups s).1 = [] ∧ button (polls ups s).2 = button s.
Proof.
  revert s. induction ups as [| [[ms level] level2] ups IH]; intros s Hr Hup.
  - split; reflexivity.
  - apply Forall_cons in Hup as [Hlevel Hup]. simpl in Hlevel. subst level.
    rewrite polls_cons.
    rewrite (poll_rest_high level2 _ (resting_nowMs (u32 ms) s Hr)). simpl.
    rewrite events_0. apply (IH (set_nowMs (u32 ms) s)); assumption.
Qed.

Lemma polls_bounce downs s :
  resting s → Forall (λ x, x.1.2 = false) downs →
  first_accept (lastButtonEdge s) downs = None →
  events (polls downs s).1 = []
  ∧ button (polls downs s).2 = button s.
Proof.
  revert s.
  induction downs as [| [[ms level] level2] downs IH];
    intros s Hr Hdown Hacc.
  - split; reflexivity.
  - apply Forall_cons in Hdown as [Hlevel Hdown]. simpl in Hlevel.
    subst level. rewrite polls_cons. simpl in Hacc.
    destruct (Z.ltb_spec DEBOUNCE_MS (u32 (u32 ms - lastButtonEdge s)))
      as [Hgate | Hgate]; [discriminate |].
    rewrite (poll_rest_bounce level2 (set_nowMs (u32 ms) s)
               (resting_nowMs _ _ Hr)) by (simpl; lia).
    simpl. rewrite events_0.
    apply (IH (set_nowMs (u32 ms) s)); assumption.
Qed.

(** X8. Bounce is absorbed: from rest, a press none of whose samples comes
    more than [DEBOUNCE_MS] after the last accepted edge is ignored, with the
    release that follows it: no event, and the variables of the button are
    as before. *)
Theorem bounce_ignored (s : St) (downs ups : list (Z * bool * bool)) :
  lastButtonLevel s = true → longPressArmed s = false →
  Forall (λ x, x.1.2 = false) downs →
  Forall (λ x, x.1.2 = true) ups →
  first_accept (lastButtonEdge s) downs = None →
  events (polls (downs ++ ups) s).1 = []
  ∧ button (polls (downs ++ ups) s).2 = button s.
Proof.
  intros Hl Ha Hdown Hup Hacc.
  rewrite polls_app. simpl. rewrite events_app.
  destruct (polls_bounce downs s (conj Hl Ha) Hdown Hacc) as [Hev Hb].
  assert (Hr : resting (polls downs s).2).
  { unfold button in Hb. inversion Hb as [[Hl' Ha' He' Hp']].
    split; congruence. }
  destruct (polls_rest_button ups _ Hr Hup) as [Hev' Hb'].
  rewrite Hev, Hev', Hb', Hb. split; reflexivity.
Qed.

Lemma bounce_ignored_witness :
  events (polls ([(10, false, false); (20, false, false)]
                 ++ [(30, true, true); (400, true, true)])
            (@initial shipped)).1 = [].
Proof.
  refine (proj1 (bounce_ignored (@initial shipped)
    [(10, false, false); (20, false, false)]
    [(30, true, true); (400, true, true)] _ _ _ _ _)).
  - reflexivity.
  - reflexivity.
  - repeat constructor.
  - repeat constructor.
  - reflexivity.
Defined.

(** ** The classifier and the controller *)

Section ClassifierState.
Context `{cfg : Config} (raw : nat → Z) (fuel : nat).


End ClassifierState.





(** ** What the renderers keep of the frame buffer *)

Lemma rd_UsedLEDs_elem `{cfg : Config} i led :
  rd UsedLEDs i = Ret led → led ∈ UsedLEDs.
Proof.
  intros Hrd. apply rd_Ret in Hrd. eapply list_elem_of_lookup_2. exact Hrd.
Qed.

Lemma count_strip `{cfg : Config} btn s :
  pixels (countShortPress btn s) = pixels s
  ∧ shown (countShortPress btn s) = shown s.
Proof.
  unfold countShortPress.
  destruct (btn =? 1); [| split; reflexivity].
  destruct (requestedCount s <? MAX_REQUEST); split; reflexivity.
Qed.

Lemma clamp_strip `{cfg : Config} s :
  pixels (clampPeople (clampZero s)) = pixels s
  ∧ shown (clampPeople (clampZero s)) = shown s.
Proof.
  unfold clampPeople, clampZero.
  destruct (requestedCount s =? 0); simpl;
    match goal with
    | |- context [if ?c then _ else _] => destruct c
    end; split; reflexivity.
Qed.

(** A property of frame buffers that writing a LED of the table keeps. *)
Section Keeps.
Context `{cfg : Config} (P : list Z → Prop).
Hypothesis P_insert :
  ∀ px led c, led ∈ UsedLEDs → P px → P (<[Z.to_nat led := c]> px).

Lemma setPixelColor_keeps led c s :
  led ∈ UsedLEDs → P (pixels s) →
  P (pixels (setPixelColor led c s))
  ∧ shown (setPixelColor led c s) = shown s.
Proof.
  intros Hled Hpx. unfold setPixelColor.
  destruct (led <? NUM_LEDS); simpl; [| tauto].
  split; [apply P_insert; assumption | reflexivity].
Qed.

Lemma renderIdle_keeps s s' :
  renderIdle s = Ret s' → P (pixels s) →
  P (pixels s') ∧ (P (shown s) → P (shown s')).
Proof.
  unfold renderIdle.
  destruct (IDLE_STEP_MS <=? u32 (nowMs s - lastIdleStep s)).
  2:{ intros Hret Hpx. inversion Hret; subst. tauto. }
  destruct (for_upto _ _ _) as [a | | |] eqn:Hloop; try discriminate.
  simpl. intros Hret Hpx. inversion Hret; subst s'; clear Hret. simpl.
  enough (P (pixels a)) by tauto.
  unfold for_upto in Hloop.
  apply (for_loop_Ret (λ a, P (pixels a))) in Hloop; [exact Hloop | | exact Hpx].
  intros j b b' Hb Hbody.
  destruct (rd UsedLEDs j) as [led | | |] eqn:Hrd; try discriminate.
  simpl in Hbody. inversion Hbody; subst b'.
  apply setPixelColor_keeps; [eapply rd_UsedLEDs_elem; eauto | exact Hb].
Qed.

Lemma renderAnimating_keeps raw s s' :
  renderAnimating raw s = Ret s' → P (pixels s) →
  P (pixels s') ∧ (P (shown s) → P (shown s')).
Proof.
  unfold renderAnimating.
  destruct (ANIM_STEP_MS <=? u32 (nowMs s - lastAnimStep s)).
  2:{ intros Hret Hpx. inversion Hret; subst. tauto. }
  destruct (for_upto _ _ _) as [a | | |] eqn:Hloop; try discriminate.
  simpl. intros Hret Hpx. inversion Hret; subst s'; clear Hret. simpl.
  enough (P (pixels a)) by tauto.
  unfold for_upto in Hloop.
  apply (for_loop_Ret (λ a, P (pixels a))) in Hloop; [exact Hloop | | exact Hpx].
  intros j b b' Hb Hbody.
  destruct (rd UsedLEDs j) as [led | | |] eqn:Hrd; try discriminate.
  simpl in Hbody.
  destruct (random raw 0 255 (rngPos b)) as [r p1].
  destruct (random raw 0 255 p1) as [g p2].
  destruct (random raw 0 255 p2) as [bl p3].
  inversion Hbody; subst b'.
  apply setPixelColor_keeps; [eapply rd_UsedLEDs_elem; eauto | exact Hb].
Qed.

End Keeps.

(** The same of a property that clearing the buffer keeps as well. *)
Section KeepsClear.
Context `{cfg : Config} (P : list Z → Prop).
Hypothesis P_insert :
  ∀ px led c, led ∈ UsedLEDs → P px → P (<[Z.to_nat led := c]> px).
Hypothesis P_clear : ∀ px, P px → P (replicate (length px) 0).

Lemma renderShowSelection_keeps s s' :
  renderShowSelection s = Ret s' → P (pixels s) →
  P (pixels s') ∧ shown s' = pixels s'.
Proof.
  unfold renderShowSelection.
  destruct (for_upto _ _ _) as [a | | |] eqn:Hloop; try discriminate.
  simpl. intros Hret Hpx. inversion Hret; subst s'; clear Hret. simpl.
  split; [| reflexivity].
  unfold for_upto in Hloop.
  apply (for_loop_Ret (λ a, P (pixels a))) in Hloop;
    [exact Hloop | | apply P_clear; exact Hpx].
  intros j b b' Hb Hbody.
  destruct (rd (selectedIdx b) j) as [idx | | |]; try discriminate.
  simpl in Hbody.
  destruct (rd UsedLEDs idx) as [led | | |] eqn:Hrd; try discriminate.
  simpl in Hbody. inversion Hbody; subst b'.
  apply (setPixelColor_keeps P P_insert); [eapply rd_UsedLEDs_elem; eauto | exact Hb].
Qed.

Lemma dispatch_keeps raw fuel btn s s' :
  dispatch raw fuel btn s = Ret s' → P (pixels s) →
  P (pixels s') ∧ (P (shown s) → P (shown s')).
Proof.
  unfold dispatch. intros Hret Hpx. destruct (state s).
  - destruct (renderIdle s) as [s1 | | |] eqn:Hidle; try discriminate.
    destruct (renderIdle_keeps P P_insert s s1 Hidle Hpx) as [Hpx1 Hsh1].
    simpl in Hret.
    destruct (btn =? 2); [| destruct (btn =? 1)];
      inversion Hret; subst s'; simpl; auto.
  - destruct (renderIdle s) as [s1 | | |] eqn:Hidle; try discriminate.
    destruct (renderIdle_keeps P P_insert s s1 Hidle Hpx) as [Hpx1 Hsh1].
    simpl in Hret.
    destruct (btn =? 2); [inversion Hret; subst s'; simpl; auto |].
    pose proof (count_strip btn s1) as [Hcp Hcs].
    pose proof (clamp_strip (countShortPress btn s1)) as [Hkp Hks].
    destruct (0 <=? _); inversion Hret; subst s'; simpl;
      rewrite ?Hkp, ?Hks, ?Hcp, ?Hcs; auto.
  - destruct (renderAnimating raw s) as [s1 | | |] eqn:Hanim;
      try discriminate.
    destruct (renderAnimating_keeps P P_insert raw s s1 Hanim Hpx) as [Hpx1 Hsh1].
    simpl in Hret.
    destruct (btn =? 2); [inversion Hret; subst s'; simpl; auto |].
    destruct (ANIM_MS <=? _); [| inversion Hret; subst s'; auto].
    destruct (select raw fuel _ _ _) as [[out pos] | | |]; try discriminate.
    simpl in Hret. unfold enterState in Hret.
    apply renderShowSelection_keeps in Hret as [Hp' Hs']; [| exact Hpx1].
    rewrite Hs'. auto.
  - destruct (btn =? 2); [| destruct (HOLD_MS <=? _)];
      inversion Hret; subst s'; simpl; auto.
Qed.

Lemma loop_keeps raw fuel ms level level2 s s' :
  loop raw fuel ms level level2 s = Ret s' → P (pixels s) →
  P (pixels s') ∧ (P (shown s) → P (shown s')).
Proof.
  unfold loop.
  destruct (pollButton_frame level level2 (set_nowMs (u32 ms) s))
    as (btn & l & a & e & p & -> & _).
  intros Hret Hpx.
  apply (dispatch_keeps raw fuel btn _ s' Hret); assumption.
Qed.

End KeepsClear.

Section Strip.
Context `{cfg : Config}.

Lemma setup_strip s :
  setup = Ret s →
  pixels s = replicate (Z.to_nat NUM_LEDS) 0
  ∧ shown s = replicate (Z.to_nat NUM_LEDS) 0.
Proof.
  unfold setup. rewrite show_clear_initial.
  destruct (for_upto _ _ _) as [a | | |] eqn:Hloop; try discriminate.
  unfold for_upto in Hloop.
  apply (for_loop_Ret (λ a, a = initial)) in Hloop; [| | reflexivity].
  - subst a. simpl. intros Hret. inversion Hret; subst s.
    split; reflexivity.
  - intros j b b' -> Hbody.
    destruct (rd UsedLEDs j) as [led | | |]; try discriminate.
    simpl in Hbody. destruct (NUM_LEDS <=? led); [discriminate |].
    inversion Hbody. reflexivity.
Qed.

Lemma only_table_insert px led c :
  led ∈ UsedLEDs → only_table px → only_table (<[Z.to_nat led := c]> px).
Proof.
  intros Hled Hpx n c' Hn Hc.
  destruct (decide (n = Z.to_nat led)) as [-> | Hne].
  - exists led. split; [exact Hled | reflexivity].
  - rewrite list_lookup_insert_ne in Hn by congruence.
    apply (Hpx n c' Hn Hc).
Qed.

Lemma only_table_replicate n : only_table (replicate n 0).
Proof.
  intros p c Hp Hc. apply lookup_replicate in Hp as [-> _]. congruence.
Qed.

End Strip.

(** X11. No LED outside the table is ever lit: in every state the sketch
    can be in, the frame the strip shows has the length of the strip and
    every LED of it that is not off stands at a position of [UsedLEDs]. *)
Theorem only_table_leds_lit `{cfg : Config} (raw : nat → Z) (s : St) :
  reachable raw s →
  length (shown s) = Z.to_nat NUM_LEDS ∧ only_table (shown s).
Proof.
  intros Hreach.
  enough ((length (pixels s) = Z.to_nat NUM_LEDS ∧ only_table (pixels s))
          ∧ (length (shown s) = Z.to_nat NUM_LEDS ∧ only_table (shown s)))
    by tauto.
  induction Hreach as [s Hsetup | s s' fuel ms level level2 _ IH Hloop].
  - apply setup_strip in Hsetup as [-> ->]. rewrite length_replicate.
    split; (split; [reflexivity | apply only_table_replicate]).
  - destruct IH as [Hpx Hsh].
    destruct (loop_keeps
             (λ px, length px = Z.to_nat NUM_LEDS ∧ only_table px)
             ltac:(intros px led c Hled [Hlen Hpx'];
                   split; [rewrite length_insert; exact Hlen
                          | apply only_table_insert; assumption])
             ltac:(intros px [Hlen _];
                   split; [rewrite length_replicate; exact Hlen
                          | apply only_table_replicate])
             raw fuel ms level level2 s s' Hloop Hpx) as [Hpx' Hsh'].
    split; [exact Hpx' | exact (Hsh' Hsh)].
Qed.

Lemma only_table_leds_lit_witness :
  ∃ evts s,
    show_run = Ret (evts, s)
    ∧ length (shown s) = Z.to_nat (@NUM_LEDS shipped)
    ∧ only_table (H := shipped) (shown s).
Proof.
  assert (Hrun : ∃ evts s, show_run = Ret (evts, s)).
  { do 2 eexists. vm_compute. reflexivity. }
  destruct Hrun as (evts & s & Hrun).
  exists evts, s. split; [exact Hrun |].
  exact (only_table_leds_lit (cfg := shipped) counter s
           (show_run_reachable evts s Hrun)).
Defined.

(** ** The selection on display *)

Section Branches.
Context `{cfg : Config} (raw : nat → Z) (fuel : nat).

(** What the renderers leave alone. *)
Lemma renderAnimating_fields s s1 :
  renderAnimating raw s = Ret s1 →
  state s1 = state s ∧ nowMs s1 = nowMs s
  ∧ stateEnterMs s1 = stateEnterMs s
  ∧ requestedCount s1 = requestedCount s
  ∧ selectedIdx s1 = selectedIdx s
  ∧ selectedCount s1 = selectedCount s.
Proof.
  destruct (renderAnimating_frame raw s) as (anim & px & sh & pos & ->).
  intros Hret. inversion Hret; subst s1. repeat split; reflexivity.
Qed.

(** The three ways out of the Animating branch. *)
Lemma dispatch_ANIMATING_cases btn s s' :
  state s = ANIMATING → dispatch raw fuel btn s = Ret s' →
  ∃ s1,
    renderAnimating raw s = Ret s1
    ∧ ((btn = 2 ∧ s' = set_stateEnterMs (nowMs s1) (set_state IDLE s1))
       ∨ (btn ≠ 2 ∧ u32 (nowMs s1 - stateEnterMs s1) < ANIM_MS ∧ s' = s1)
       ∨ (btn ≠ 2 ∧ ANIM_MS <= u32 (nowMs s1 - stateEnterMs s1)
          ∧ ∃ out pos,
              select raw fuel (requestedCount s1) (selectedIdx s1) (rngPos s1)
              = Ret (out, pos)
              ∧ renderShowSelection
                  (set_stateEnterMs (nowMs s1)
                     (set_state SHOW
                        (set_rngPos pos
                           (set_selectedIdx out
                              (set_selectedCount
                                 (selectCount (requestedCount s1)) s1)))))
                = Ret s')).
Proof.
  intros Hst. unfold dispatch. rewrite Hst.
  destruct (renderAnimating raw s) as [s1 | | |]; try discriminate.
  cbn [mbind outcome_bind]. intros Hret. exists s1. split; [reflexivity |].
  destruct (Z.eqb_spec btn 2) as [Hb | Hb].
  { left. split; [exact Hb |]. inversion Hret. reflexivity. }
  right.
  destruct (Z.leb_spec ANIM_MS (u32 (nowMs s1 - stateEnterMs s1)))
    as [Hlate | Hearly].
  2:{ left. split; [exact Hb |]. split; [exact Hearly |].
      inversion Hret. reflexivity. }
  right. split; [exact Hb |]. split; [exact Hlate |].
  destruct (select raw fuel _ _ _) as [[out pos] | | |] eqn:Hsel;
    try discriminate.
  exists out, pos. split; [reflexivity | exact Hret].
Qed.

(** The Show branch: it leaves for Idle on a long press or when the hold
    time is over, and does nothing else. *)
Lemma dispatch_SHOW_eq btn s :
  state s = SHOW →
  dispatch raw fuel btn s
  = Ret (if (btn =? 2) || (HOLD_MS <=? u32 (nowMs s - stateEnterMs s))
         then set_stateEnterMs (nowMs s) (set_state IDLE s) else s).
Proof.
  intros Hst. unfold dispatch. rewrite Hst.
  destruct (btn =? 2); [reflexivity |].
  destruct (HOLD_MS <=? u32 (nowMs s - stateEnterMs s)); reflexivity.
Qed.

End Branches.

Lemma setup_show_inv `{cfg : Config} s : setup = Ret s → show_inv s.
Proof.
  intros Hsetup.
  destruct (setup_strip s Hsetup) as [Hpx _].
  destruct (setup_Ret s Hsetup) as [Hst [_ Hlen]].
  unfold show_inv. rewrite Hpx, length_replicate, Hst.
  split; [reflexivity |]. split; [exact Hlen |].
  split; [intros Hne; exfalso; apply Hne; reflexivity | discriminate].
Qed.

Section ShowInv.
Context `{cfg : Config} (raw : nat → Z) (fuel : nat).
Hypothesis people : 1 <= PEOPLE_NB.
Hypothesis table : Forall (λ led, 0 <= led < NUM_LEDS) UsedLEDs.

Lemma renderShowSelection_shows s s' :
  length (pixels s) = Z.to_nat NUM_LEDS →
  drawn (selectedCount s) (selectedIdx s) →
  renderShowSelection s = Ret s' →
  shows_selection (selection (selectedCount s) (selectedIdx s)) (shown s').
Proof.
  intros Hpx (Hlen & _ & Hsel) Hret.
  destruct (show_loop s table Hlen Hsel) as (px & Hloop & Hpxl & Hlit).
  unfold renderShowSelection in Hret. rewrite Hloop in Hret.
  simpl in Hret. inversion Hret; subst s'. simpl.
  split; [lia |]. intros p Hp. apply Hlit. lia.
Qed.

Lemma selectCount_range r :
  1 <= r <= PEOPLE_NB →
  selectCount r = Z.min r MAX_SEL ∧ 1 <= selectCount r <= PEOPLE_NB.
Proof.
  intros Hr. unfold selectCount, MAX_SEL.
  destruct (Z.ltb_spec PEOPLE_NB r); [lia |].
  destruct (Z.ltb_spec 32 r); lia.
Qed.

Lemma clamp_range s :
  1 <= requestedCount s →
  1 <= requestedCount (clampPeople (clampZero s)) <= PEOPLE_NB.
Proof.
  intros Hr. unfold clampPeople, clampZero.
  destruct (Z.eqb_spec (requestedCount s) 0); [lia |].
  destruct (Z.ltb_spec PEOPLE_NB (requestedCount s)); simpl; lia.
Qed.

Lemma count_range btn s :
  1 <= requestedCount s <= PEOPLE_NB →
  1 <= requestedCount (countShortPress btn s) <= PEOPLE_NB.
Proof.
  intros Hr. pose proof PEOPLE_NB_range as [HPr _].
  pose proof (countShortPress_fields btn s) as (_ & _ & _ & _ & -> & _).
  destruct (btn =? 1); [| exact Hr].
  destruct (Z.ltb_spec (requestedCount s) PEOPLE_NB); [| exact Hr].
  rewrite u8_small by lia. lia.
Qed.

Lemma dispatch_show_inv btn s s' :
  show_inv s → dispatch raw fuel btn s = Ret s' → show_inv s'.
Proof.
  intros (Hpx & Hlen & Hrc & Hshow) Hret.
  assert (Hins : ∀ (px : list Z) (led c : Z),
            led ∈ UsedLEDs → length px = Z.to_nat NUM_LEDS →
            length (<[Z.to_nat led := c]> px) = Z.to_nat NUM_LEDS).
  { intros px led c _ Hl. rewrite length_insert. exact Hl. }
  assert (Hclr : ∀ px : list Z,
            length px = Z.to_nat NUM_LEDS →
            length (replicate (length px) 0) = Z.to_nat NUM_LEDS).
  { intros px Hl. rewrite length_replicate. exact Hl. }
  destruct (dispatch_keeps (λ px, length px = Z.to_nat NUM_LEDS) Hins Hclr
              raw fuel btn s s' Hret Hpx) as [Hpx' _].
  unfold show_inv. split; [exact Hpx' |].
  destruct (state s) eqn:Hst.
  - destruct (dispatch_IDLE raw fuel btn s Hst)
      as (s1 & Hd & Hi & _ & H1 & Hn1).
    rewrite Hd in Hret. inversion Hret; subst s1. rewrite Hi.
    split; [exact Hlen |].
    destruct (Z.eq_dec btn 1) as [-> | Hne].
    + destruct (H1 eq_refl) as (Hc & -> & _). rewrite Hc.
      split; [lia | discriminate].
    + rewrite (Hn1 Hne). split; [congruence | discriminate].
  - destruct (Z.eq_dec btn 2) as [-> | Hne].
    + destruct (dispatch_long_press raw fuel s) as (s1 & Hd & Hidle & _ & _
        & _ & Hi); [rewrite Hst; discriminate |].
      rewrite Hd in Hret. inversion Hret; subst s1. rewrite Hi, Hidle.
      split; [exact Hlen |]. split; [congruence | discriminate].
    + destruct (dispatch_COUNTING raw fuel btn s Hst Hne)
        as (s1 & Hd & Hi & _ & Hexp & Hopen).
      rewrite Hd in Hret. inversion Hret; subst s1. rewrite Hi.
      split; [exact Hlen |].
      pose proof (count_range btn s (Hrc ltac:(discriminate))) as Hcr.
      destruct (Z_lt_le_dec
                  (i32 (nowMs s - countWindowEnds (countShortPress btn s))) 0)
        as [Hlt | Hge].
      * destruct (Hopen Hlt) as (-> & -> & _).
        split; [intros _; exact Hcr | discriminate].
      * destruct (Hexp Hge) as (-> & ->).
        split; [| discriminate]. intros _. apply clamp_range. lia.
  - specialize (Hrc ltac:(discriminate)).
    destruct (dispatch_ANIMATING_cases raw fuel btn s s' Hst Hret)
      as (s1 & Hanim & Hcases).
    destruct (renderAnimating_fields raw s s1 Hanim)
      as (Hst1 & _ & _ & Hrc1 & Hi1 & _).
    destruct (renderAnimating_keeps (λ px, length px = Z.to_nat NUM_LEDS)
                Hins raw s s1 Hanim Hpx) as [Hpx1 _].
    destruct Hcases as [[_ ->] | [(_ & _ & ->) | (_ & _ & Hshow1)]].
    + split; [rewrite <- Hlen; apply (f_equal length Hi1) |].
      split; [intros Hne; exfalso; apply Hne; reflexivity | discriminate].
    + rewrite Hst1, Hst, Hi1, Hrc1.
      split; [exact Hlen |]. split; [intros _; exact Hrc | discriminate].
    + destruct Hshow1 as (out & pos & Hsel & Hrender).
      rewrite Hrc1, Hi1 in Hsel.
      apply select_drawn in Hsel as [Hdrawn Hout].
      rewrite <- Hrc1 in Hdrawn.
      match type of Hrender with
      | renderShowSelection ?s3 = _ =>
          pose proof (renderShowSelection_shows s3 s' Hpx1 Hdrawn Hrender)
            as Hlit;
          change (shows_selection
                    (selection (selectCount (requestedCount s1)) out)
                    (shown s')) in Hlit
      end.
      apply renderShowSelection_Ret in Hrender as (px' & Hs').
      assert (Hf : selectedIdx s' = out
                   ∧ selectedCount s' = selectCount (requestedCount s1)
                   ∧ requestedCount s' = requestedCount s1
                   ∧ state s' = SHOW).
      { rewrite Hs'. repeat split; reflexivity. }
      destruct Hf as (Hi & Hc & Hr & _).
      rewrite Hi, Hc, Hr, Hout, Hrc1.
      split; [exact Hlen |]. split; [intros _; exact Hrc |].
      intros _. split; [reflexivity |].
      rewrite Hrc1 in Hdrawn, Hlit. split; [exact Hdrawn | exact Hlit].
  - unfold dispatch in Hret. rewrite Hst in Hret.
    destruct (btn =? 2); [| destruct (HOLD_MS <=? _)];
      inversion Hret; subst s'; simpl.
    + split; [exact Hlen |]. split; [congruence | discriminate].
    + split; [exact Hlen |]. split; [congruence | discriminate].
    + rewrite Hst. split; [exact Hlen |]. split; [exact Hrc | exact Hshow].
Qed.

Lemma loop_show_inv ms level level2 s s' :
  show_inv s → loop raw fuel ms level level2 s = Ret s' → show_inv s'.
Proof.
  intros Hinv. unfold loop.
  destruct (pollButton_frame level level2 (set_nowMs (u32 ms) s))
    as (btn & l & a & e & p & -> & _).
  apply dispatch_show_inv. exact Hinv.
Qed.


End ShowInv.

(** X12. The selection on display: in every state of Show the sketch can be
    in, on a table of at least one person whose LEDs are all on the strip,
    the number of people selected is the requested count (capped at
    [MAX_SEL]) and lies within 1..PEOPLE_NB, the selected indices are
    distinct indices of the population, and the strip shows these people in
    white and every other LED off. *)
Theorem show_displays_selection `{cfg : Config} (raw : nat → Z) (s : St) :
  1 <= PEOPLE_NB →
  Forall (λ led, 0 <= led < NUM_LEDS) UsedLEDs →
  reachable raw s → state s = SHOW →
  1 <= selectedCount s <= PEOPLE_NB
  ∧ selectedCount s = Z.min (requestedCount s) MAX_SEL
  ∧ drawn (selectedCount s) (selectedIdx s)
  ∧ shows_selection (selection (selectedCount s) (selectedIdx s)) (shown s).
Proof.
  intros HP Htable Hreach Hst.
  assert (Hinv : show_inv s).
  { clear Hst.
    induction Hreach as [s Hsetup | s s' fuel ms level level2 _ IH Hloop].
    - apply setup_show_inv. exact Hsetup.
    - apply (loop_show_inv raw fuel HP Htable ms level level2 s s');
        [| exact Hloop].
      apply IH. }
  destruct Hinv as (_ & _ & Hrc & Hshow).
  destruct (Hshow Hst) as (Hc & Hdrawn & Hlit).
  destruct (selectCount_range (requestedCount s)) as [Hmin Hrange].
  { apply Hrc. rewrite Hst. discriminate. }
  rewrite Hc. split; [exact Hrange |]. split; [exact Hmin |].
  rewrite <- Hc. split; [exact Hdrawn | exact Hlit].
Qed.

Lemma show_displays_selection_witness :
  ∃ evts s,
    show_run = Ret (evts, s)
    ∧ state s = SHOW
    ∧ shows_selection (H := shipped)
        (selection (selectedCount s) (selectedIdx s)) (shown s).
Proof.
  assert (Hrun : ∃ evts s, show_run = Ret (evts, s) ∧ state s = SHOW).
  { do 2 eexists. split; vm_compute; reflexivity. }
  destruct Hrun as (evts & s & Hrun & Hst).
  destruct (show_displays_selection (cfg := shipped) counter s)
    as (_ & _ & _ & Hlit).
  - vm_compute. discriminate.
  - repeat constructor; lia.
  - exact (show_run_reachable evts s Hrun).
  - exact Hst.
  - exists evts, s. tauto.
Defined.

(** ** How long the animation and the display last *)

Section Timing.
Context `{cfg : Config} (raw : nat → Z) (fuel : nat).

(** The time since [t0] as the sketch computes it, for a pass less than
    2^32 ms after [t0]. *)
Lemma elapsed t0 ms :
  t0 <= ms < t0 + 4294967296 → u32 (u32 ms - u32 t0) = ms - t0.
Proof.
  intros Hms. rewrite u32_sub_u32. apply u32_small. lia.
Qed.

Lemma show_pass_early ms btn t0 s s' :
  state s = SHOW → stateEnterMs s = u32 t0 →
  t0 <= ms < t0 + HOLD_MS → btn ≠ 2 →
  passes raw fuel [(ms, btn)] s s' →
  state s' = SHOW ∧ stateEnterMs s' = u32 t0
  ∧ shown s' = shown s
  ∧ selectedIdx s' = selectedIdx s ∧ selectedCount s' = selectedCount s.
Proof.
  intros Hst Hent Hms Hb Hp.
  apply pass_inv in Hp as (l & a & e & p & s2 & Hd & Hnil).
  inversion Hnil; subst.
  rewrite dispatch_SHOW_eq in Hd by exact Hst.
  destruct (Z.eqb_spec btn 2); [contradiction |].
  change (nowMs (with_button l a e p (set_nowMs (u32 ms) s))) with (u32 ms)
    in Hd.
  change (stateEnterMs (with_button l a e p (set_nowMs (u32 ms) s)))
    with (stateEnterMs s) in Hd.
  rewrite Hent, elapsed in Hd by (unfold HOLD_MS in Hms; lia).
  destruct (Z.leb_spec HOLD_MS (ms - t0)); [lia |].
  injection Hd as <-.
  repeat split; first [exact Hst | exact Hent | reflexivity].
Qed.

Lemma show_pass_late ms btn t0 s s' :
  state s = SHOW → stateEnterMs s = u32 t0 →
  t0 + HOLD_MS <= ms < t0 + 4294967296 →
  passes raw fuel [(ms, btn)] s s' →
  state s' = IDLE ∧ stateEnterMs s' = u32 ms
  ∧ shown s' = shown s
  ∧ selectedIdx s' = selectedIdx s ∧ selectedCount s' = selectedCount s.
Proof.
  intros Hst Hent Hms Hp.
  apply pass_inv in Hp as (l & a & e & p & s2 & Hd & Hnil).
  inversion Hnil; subst.
  rewrite dispatch_SHOW_eq in Hd by exact Hst.
  change (nowMs (with_button l a e p (set_nowMs (u32 ms) s))) with (u32 ms)
    in Hd.
  change (stateEnterMs (with_button l a e p (set_nowMs (u32 ms) s)))
    with (stateEnterMs s) in Hd.
  rewrite Hent, elapsed in Hd by (unfold HOLD_MS in Hms; lia).
  destruct (Z.leb_spec HOLD_MS (ms - t0)); [| lia].
  rewrite orb_true_r in Hd.
  injection Hd as <-. repeat split; reflexivity.
Qed.

Lemma show_passes_early t0 tr :
  ∀ s s',
    state s = SHOW → stateEnterMs s = u32 t0 →
    Forall (λ x, t0 <= x.1 < t0 + HOLD_MS ∧ x.2 ≠ 2) tr →
    passes raw fuel tr s s' →
    state s' = SHOW ∧ stateEnterMs s' = u32 t0
    ∧ shown s' = shown s
    ∧ selectedIdx s' = selectedIdx s ∧ selectedCount s' = selectedCount s.
Proof.
  induction tr as [| [ms btn] tr IH]; intros s s' Hst Hent Hall Hp.
  - inversion Hp; subst. repeat split; assumption.
  - apply Forall_cons in Hall as [[Hms Hb] Hall]. simpl in Hms, Hb.
    change ((ms, btn) :: tr) with ([(ms, btn)] ++ tr) in Hp.
    apply passes_app in Hp as (s1 & H1 & Hp).
    destruct (show_pass_early ms btn t0 s s1 Hst Hent Hms Hb H1)
      as (Hst1 & Hent1 & Hsh1 & Hi1 & Hc1).
    destruct (IH s1 s' Hst1 Hent1 Hall Hp) as (Hst' & Hent' & Hsh' & Hi' & Hc').
    repeat split; congruence.
Qed.




End Timing.




(** X14. The selection stays on display for [HOLD_MS]: from a state of Show
    entered at [t0], passes that come before [t0 + HOLD_MS] without a long
    press stay in Show and leave the frame on the strip and the selection
    as they are, short presses included; the first pass at or after
    [t0 + HOLD_MS] (less than 2^32 ms after [t0]) goes back to Idle, the
    strip still showing the selection. *)
Theorem show_holds `{cfg : Config} (raw : nat → Z) (fuel : nat)
    (t0 tf btn : Z) (tr : list (Z * Z)) (s s' : St) :
  state s = SHOW → stateEnterMs s = u32 t0 →
  Forall (λ x, t0 <= x.1 < t0 + HOLD_MS ∧ x.2 ≠ 2) tr →
  t0 + HOLD_MS <= tf < t0 + 4294967296 →
  passes raw fuel (tr ++ [(tf, btn)]) s s' →
  (∃ sm, passes raw fuel tr s sm
         ∧ state sm = SHOW
         ∧ shown sm = shown s
         ∧ selectedIdx sm = selectedIdx s
         ∧ selectedCount sm = selectedCount s)
  ∧ state s' = IDLE
  ∧ stateEnterMs s' = u32 tf
  ∧ shown s' = shown s.
Proof.
  intros Hst Hent Hall Htf Hp.
  apply passes_app in Hp as (sm & Hearly & Hlate).
  destruct (show_passes_early raw fuel t0 tr s sm Hst Hent Hall Hearly)
    as (Hstm & Hentm & Hshm & Him & Hcm).
  destruct (show_pass_late raw fuel tf btn t0 sm s' Hstm Hentm Htf Hlate)
    as (Hst' & Hent' & Hsh' & _).
  split; [exists sm; tauto |].
  rewrite <- Hshm. tauto.
Qed.

Lemma hold_trace_passes :
  ∃ e0 s s',
    show_run = Ret (e0, s)
    ∧ state s = SHOW
    ∧ stateEnterMs s = u32 2900
    ∧ passes (H := shipped) counter 0
        ([(3100, 1); (5000, 0)] ++ [(12900, 0)]) s s'.
Proof.
  assert (Hrun : ∃ e0 s evts s',
            show_run = Ret (e0, s) ∧ state s = SHOW
            ∧ stateEnterMs s = u32 2900
            ∧ run (H := shipped) counter 0 hold_trace s = Ret (evts, s')
            ∧ zip hold_trace.*1 evts
              = [(3100, 1); (5000, 0)] ++ [(12900, 0)]).
  { do 4 eexists. split; [vm_compute; reflexivity |].
    split; [reflexivity |]. split; [reflexivity |].
    split; [vm_compute; reflexivity | reflexivity]. }
  destruct Hrun as (e0 & s & evts & s' & Hshow & Hst & Hent & Hrun & Hzip).
  apply run_passes in Hrun. rewrite Hzip in Hrun.
  exists e0, s, s'. tauto.
Qed.

Lemma show_holds_witness :
  ∃ e0 s s',
    show_run = Ret (e0, s)
    ∧ passes (H := shipped) counter 0
        ([(3100, 1); (5000, 0)] ++ [(12900, 0)]) s s'
    ∧ state s' = IDLE
    ∧ shown s' = shown s.
Proof.
  destruct hold_trace_passes as (e0 & s & s' & Hrun & Hst & Hent & Hp).
  destruct (show_holds (cfg := shipped) counter 0%nat 2900 12900 0
              [(3100, 1); (5000, 0)] s s')
    as (_ & Hidle & _ & Hshown).
  - exact Hst.
  - exact Hent.
  - repeat (apply Forall_cons; split;
            [simpl; unfold HOLD_MS; split; [lia | discriminate] |]).
    constructor.
  - unfold HOLD_MS. lia.
  - exact Hp.
  - exists e0, s, s'. tauto.
Defined.

(** ** The idle frame *)

Section IdleFrame.
Context `{cfg : Config}.

(** The frame buffer after the hues of the first [i] people are set. *)
Lemma idle_loop s :
  Forall (λ led, 0 <= led < NUM_LEDS) UsedLEDs →
  NoDup UsedLEDs →
  length (pixels s) = Z.to_nat NUM_LEDS →
  ∃ px,
    for_upto PEOPLE_NB (λ i a,
        led ← rd UsedLEDs i;
        Ret (setPixelColor led
               (colorWheel (u8 (rainbowOffset a + i * RAINBOW_SPACING))) a))
      s
    = Ret (with_frame (rainbowOffset s) (lastIdleStep s) (lastAnimStep s) px
             (shown s) (rngPos s) s)
    ∧ length px = length (pixels s)
    ∧ (∀ (j : nat) (led : Z),
         Z.of_nat j < PEOPLE_NB → UsedLEDs !! j = Some led →
         px !! Z.to_nat led
         = Some (colorWheel
                   (u8 (rainbowOffset s + Z.of_nat j * RAINBOW_SPACING))))
    ∧ (∀ p : nat, Z.of_nat p ∉ UsedLEDs → px !! p = pixels s !! p).
Proof.
  intros Hvalid Hinj Hstrip. unfold for_upto.
  pose proof PEOPLE_NB_range as [HPr HP].
  destruct (for_loop_inv
    (λ i a, ∃ px,
       a = with_frame (rainbowOffset s) (lastIdleStep s) (lastAnimStep s) px
             (shown s) (rngPos s) s
       ∧ length px = length (pixels s)
       ∧ (∀ (j : nat) (led : Z),
            (j < i)%nat → UsedLEDs !! j = Some led →
            px !! Z.to_nat led
            = Some (colorWheel
                      (u8 (rainbowOffset s + Z.of_nat j * RAINBOW_SPACING))))
       ∧ (∀ p : nat, Z.of_nat p ∉ UsedLEDs → px !! p = pixels s !! p))
    (λ i a, led ← rd UsedLEDs i;
            Ret (setPixelColor led
                   (colorWheel (u8 (rainbowOffset a + i * RAINBOW_SPACING)))
                   a))
    (Z.to_nat PEOPLE_NB) 0%nat s)
    as (a & Ha & px & -> & Hpx & Hlit & Hrest).
  - exists (pixels s). split; [symmetry; apply with_frame_id |].
    split; [reflexivity |]. split; [intros j led Hj; lia | reflexivity].
  - intros j a Hj (px & -> & Hpx & Hlit & Hrest). simpl in Hj.
    destruct (lookup_lt_is_Some_2 UsedLEDs j ltac:(lia)) as [led Hled].
    pose proof (Forall_lookup_1 _ _ _ _ Hvalid Hled) as Hledr.
    simpl in Hledr.
    rewrite (rd_lookup _ _ led) by (rewrite Nat2Z.id; exact Hled).
    cbn [mbind outcome_bind].
    eexists. split; [reflexivity |].
    exists (<[Z.to_nat led :=
               colorWheel (u8 (rainbowOffset s + Z.of_nat j * RAINBOW_SPACING))]>
              px).
    split.
    { unfold setPixelColor. destruct (Z.ltb_spec led NUM_LEDS); [| lia].
      destruct s. reflexivity. }
    split; [rewrite length_insert; exact Hpx |].
    split.
    + intros j' led' Hj' Hled'.
      destruct (decide (j' = j)) as [-> | Hne].
      * assert (led' = led) by congruence. subst led'.
        apply list_lookup_insert_eq. lia.
      * assert (Hdiff : led' ≠ led).
        { intros ->. apply Hne.
          apply (NoDup_lookup _ _ _ _ Hinj Hled' Hled). }
        pose proof (Forall_lookup_1 _ _ _ _ Hvalid Hled') as Hledr'.
        simpl in Hledr'.
        rewrite list_lookup_insert_ne by lia.
        apply Hlit; [lia | exact Hled'].
    + intros p Hp.
      rewrite list_lookup_insert_ne; [apply Hrest; exact Hp |].
      intros Heq. apply Hp. rewrite <- Heq, Z2Nat.id by lia.
      eapply list_elem_of_lookup_2. exact Hled.
  - change (Z.of_nat 0) with 0 in Ha. exists px.
    split; [exact Ha |]. split; [exact Hpx |].
    split; [| exact Hrest].
    intros j led Hj Hled. apply Hlit; [simpl; lia | exact Hled].
Qed.

End IdleFrame.

(** X15. The idle frame: on a table whose LEDs are all on the strip and in
    which no two people share a LED, when [IDLE_STEP_MS] or more have gone
    by since the last step, [renderIdle] advances the rainbow by one hue,
    gives the LED of person i the color of the wheel at that hue plus i
    times [RAINBOW_SPACING], leaves every LED outside the table as it was,
    sends the frame to the strip and notes the time of the step. *)
Theorem idle_frame `{cfg : Config} (s : St) :
  Forall (λ led, 0 <= led < NUM_LEDS) UsedLEDs →
  NoDup UsedLEDs →
  length (pixels s) = Z.to_nat NUM_LEDS →
  IDLE_STEP_MS <= u32 (nowMs s - lastIdleStep s) →
  ∃ s',
    renderIdle s = Ret s'
    ∧ rainbowOffset s' = u8 (rainbowOffset s + 1)
    ∧ lastIdleStep s' = nowMs s
    ∧ shown s' = pixels s'
    ∧ length (shown s') = Z.to_nat NUM_LEDS
    ∧ (∀ (i : nat) (led : Z),
         Z.of_nat i < PEOPLE_NB → UsedLEDs !! i = Some led →
         shown s' !! Z.to_nat led
         = Some (colorWheel
                   (u8 (u8 (rainbowOffset s + 1)
                        + Z.of_nat i * RAINBOW_SPACING))))
    ∧ (∀ p : nat, Z.of_nat p ∉ UsedLEDs → shown s' !! p = pixels s !! p).
Proof.
  intros Hvalid Hinj Hstrip Hstep.
  destruct (idle_loop (set_rainbowOffset (u8 (rainbowOffset s + 1)) s)
              Hvalid Hinj Hstrip) as (px & Hloop & Hpx & Hlit & Hrest).
  unfold renderIdle.
  destruct (Z.leb_spec IDLE_STEP_MS (u32 (nowMs s - lastIdleStep s)));
    [| lia].
  rewrite Hloop. cbn [mbind outcome_bind].
  eexists. split; [reflexivity |].
  split; [reflexivity |]. split; [reflexivity |]. split; [reflexivity |].
  split; [exact (eq_trans Hpx Hstrip) |].
  split; [exact Hlit | exact Hrest].
Qed.

Lemma idle_frame_witness :
  ∃ s',
    renderIdle (H := shipped) (set_nowMs 20 (@initial shipped)) = Ret s'
    ∧ rainbowOffset s' = 1
    ∧ shown s' !! 0%nat = Some (colorWheel 1)
    ∧ shown s' !! 1%nat = Some 0.
Proof.
  destruct (idle_frame (cfg := shipped) (set_nowMs 20 (@initial shipped)))
    as (s' & Hret & Hoff & _ & _ & _ & Hlit & Hrest).
  - repeat constructor; lia.
  - apply (bool_decide_unpack _). vm_compute. exact I.
  - reflexivity.
  - vm_compute. discriminate.
  - exists s'. split; [exact Hret |]. split; [exact Hoff |].
    split.
    + apply (Hlit 0%nat 0); [vm_compute; reflexivity | reflexivity].
    + rewrite (Hrest 1%nat); [reflexivity |].
      apply (bool_decide_unpack _). vm_compute. exact I.
Defined.
